(** * MenuGenerator (max2025_menugenerator.py): a shallow embedding

    The development follows the layout of the Python class:
    - [Py]      the [str] builtins the class relies on ([strip], [split],
                [in], [startswith], [lower], [endswith], [sorted]);
    - [os]      the part of the [os] / [os.path] modules it calls, as a
                record with the file system behind it;
    - [host]    the menu objects of the host application ([createSubMenu],
                [createAction], the quad menu calls, [print]) as an
                allocation counter and a chronological log of calls;
    - the methods [__init__], [_build_tree], [_print_directory_tree],
      [read_macro_file], [_create_menu_from_tree], [define_main_menu],
      [define_quad_menu] and [register_menus] themselves.

    The first part holds the definitions, the second the properties.

    Characters are the code points below 256 ([ascii]); a Python [str] is a
    [string]. *)

From Stdlib Require Import String Ascii List Bool Arith NArith ZArith Lia.
From Stdlib Require Import Sorting.Sorted Sorting.Permutation.
Import ListNotations.
Local Open Scope string_scope.
Local Open Scope list_scope.

(* ================================================================== *)
(** ** Python [str] builtins *)
(* ================================================================== *)

Module Py.

(** [str.isspace] on one character: TAB..CR, FS..US, SPACE, NEL, NBSP. *)
Definition isspace (c : ascii) : bool :=
  let n := N_of_ascii c in
  ((9 <=? n) && (n <=? 13) || (28 <=? n) && (n <=? 32)
   || (n =? 133) || (n =? 160))%N.

(** Truthiness of a [str]: the empty string is false. *)
Definition truthy (s : string) : bool :=
  match s with EmptyString => false | String _ _ => true end.

(** [s.lstrip()] / [s.rstrip()] / [s.strip()], generalised over the set
    of characters to remove so that [path.rstrip("\\/")] is an instance. *)
Fixpoint lstrip_by (p : ascii -> bool) (s : string) : string :=
  match s with
  | EmptyString => EmptyString
  | String c s' => if p c then lstrip_by p s' else s
  end.

Fixpoint rstrip_by (p : ascii -> bool) (s : string) : string :=
  match s with
  | EmptyString => EmptyString
  | String c s' =>
      match rstrip_by p s' with
      | EmptyString => if p c then EmptyString else String c EmptyString
      | r => String c r
      end
  end.

Definition strip (s : string) : string :=
  lstrip_by isspace (rstrip_by isspace s).

(** [s.rstrip(chars)]: the characters to drop are those of [chars]. *)
Fixpoint mem_char (c : ascii) (chars : string) : bool :=
  match chars with
  | EmptyString => false
  | String d chars' => Ascii.eqb c d || mem_char c chars'
  end.

Definition rstrip_chars (s chars : string) : string :=
  rstrip_by (fun c => mem_char c chars) s.

(** [s.startswith(p)]. *)
Definition startswith (s p : string) : bool := String.prefix p s.

(** [sub in s]. *)
Fixpoint contains (sub s : string) : bool :=
  String.prefix sub s
  || match s with
     | EmptyString => false
     | String _ s' => contains sub s'
     end.

(** [s.split()]: maximal runs of non-space characters. *)
Definition starts_token (s : string) : bool :=
  match s with
  | EmptyString => false
  | String c _ => negb (isspace c)
  end.

Fixpoint split (s : string) : list string :=
  match s with
  | EmptyString => []
  | String c s' =>
      if isspace c then split s'
      else if starts_token s' then
        match split s' with
        | tok :: toks => String c tok :: toks
        | [] => [String c EmptyString]
        end
      else String c EmptyString :: split s'
  end.

(** [s.split(sep)] for a one-character separator: empty fields are kept. *)
Fixpoint split_on (sep : ascii) (s : string) : list string :=
  match s with
  | EmptyString => [EmptyString]
  | String c s' =>
      if Ascii.eqb c sep then EmptyString :: split_on sep s'
      else
        match split_on sep s' with
        | fld :: flds => String c fld :: flds
        | [] => [String c EmptyString]
        end
  end.

(** [s.lower()]: A-Z and the Latin-1 capitals (all of C0..DE but D7). *)
Definition lower_char (c : ascii) : ascii :=
  let n := N_of_ascii c in
  if ((65 <=? n) && (n <=? 90)
      || (192 <=? n) && (n <=? 222) && negb (n =? 215))%N
  then ascii_of_N (n + 32) else c.

Fixpoint lower (s : string) : string :=
  match s with
  | EmptyString => EmptyString
  | String c s' => String (lower_char c) (lower s')
  end.

(** [s.endswith(suffix)]. *)
Definition endswith (s suffix : string) : bool :=
  let n := String.length s in
  let m := String.length suffix in
  Nat.leb m n && String.eqb (substring (n - m) m s) suffix.

(** [sorted(xs)] on a list of [str]: ascending in code point order.  The
    order on [str] is total, so the sorted list is unique and a stable
    insertion sort computes the same list as the built-in. *)
Fixpoint insert_sorted (x : string) (xs : list string) : list string :=
  match xs with
  | [] => [x]
  | y :: ys => if String.leb x y then x :: xs else y :: insert_sorted x ys
  end.

Fixpoint sorted (xs : list string) : list string :=
  match xs with
  | [] => []
  | x :: xs' => insert_sorted x (sorted xs')
  end.

End Py.

(* ================================================================== *)
(** ** Results of calls that may raise *)
(* ================================================================== *)

(** The exceptions that the code of the class raises itself: an index out
    of range, a missing key.  The calls of [os], of [open] and of the
    host are taken to succeed: what they may raise is outside the
    model. *)
Inductive exn : Type := IndexError | KeyError.

Inductive outcome (A : Type) : Type :=
| Returned (a : A)
| Raised (e : exn).
Arguments Returned {A} a.
Arguments Raised {A} e.

(* ================================================================== *)
(** ** The [os] interface *)
(* ================================================================== *)

(** What the class asks of [os] and [os.path].  [readlines p] is the list
    of lines that iterating over [open(p, "r")] yields, line ends
    included. *)
Record os : Type := {
  isdir     : string -> bool;
  isfile    : string -> bool;
  listdir   : string -> list string;
  readlines : string -> list string;
  basename  : string -> string;
  join      : string -> string -> string;
  normpath  : string -> string
}.

(* ================================================================== *)
(** ** [read_macro_file] *)
(* ================================================================== *)

(** The double quote character, code point 34. *)
Definition quote : ascii := ascii_of_nat 34.

(** The list comprehension of line 84: comment lines are dropped, the
    others are stripped. *)
Definition macro_lines (raw : list string) : list string :=
  map Py.strip
      (filter (fun line => negb (Py.startswith (Py.strip line) "--")) raw).

(** [line.split()[1]]. *)
Definition second_token (line : string) : outcome string :=
  match nth_error (Py.split line) 1 with
  | Some tok => Returned tok
  | None => Raised IndexError
  end.

(** The loop of lines 85-93, with the two accumulators as arguments. *)
Fixpoint scan_lines (start_id cat_id : string) (lines : list string)
         (macro_name macro_category : string) : outcome (string * string) :=
  match lines with
  | [] => Returned (macro_name, macro_category)
  | line :: rest =>
      match (if Py.contains start_id line && negb (Py.truthy macro_name)
             then second_token line
             else Returned macro_name) with
      | Raised e => Raised e
      | Returned macro_name' =>
          let macro_category' :=
            if Py.contains cat_id line && negb (Py.truthy macro_category)
            then
              let parts := Py.split_on quote line in
              if Nat.leb 2 (List.length parts)
              then nth 1 parts EmptyString
              else macro_category
            else macro_category in
          if Py.truthy macro_name' && Py.truthy macro_category'
          then Returned (macro_name', macro_category')
          else scan_lines start_id cat_id rest macro_name' macro_category'
      end
  end.

Definition read_macro_file_with (o : os) (input_path : string)
           (macro_start_identifier category_identifier : string)
  : outcome (string * string) :=
  if negb (isfile o input_path) then Returned (EmptyString, EmptyString)
  else
    scan_lines macro_start_identifier category_identifier
               (macro_lines (readlines o input_path))
               EmptyString EmptyString.

(** The call with the default markers, as [_create_menu_from_tree] makes it. *)
Definition read_macro_file (o : os) (input_path : string)
  : outcome (string * string) :=
  read_macro_file_with o input_path "macroScript" "category:".

(* ================================================================== *)
(** ** The directory tree *)
(* ================================================================== *)

Set Warnings "-register-all".

(** The value of a node's ["type"] key. *)
Inductive node_type : Type := directory | file.

Definition node_type_eqb (a b : node_type) : bool :=
  match a, b with
  | directory, directory | file, file => true
  | _, _ => false
  end.

(** The dict built by [_build_tree]: keys ["name"], ["path"], ["type"],
    ["children"]. *)
Inductive node : Type :=
| mk_node (name path : string) (type : node_type) (children : list node).

Definition name (n : node) : string :=
  match n with mk_node x _ _ _ => x end.
Definition path (n : node) : string :=
  match n with mk_node _ x _ _ => x end.
Definition type (n : node) : node_type :=
  match n with mk_node _ _ x _ => x end.
Definition children (n : node) : list node :=
  match n with mk_node _ _ _ x => x end.

(** [[f(x) for x in xs]] where [f] may fail to finish. *)
Fixpoint map_option {A B : Type} (f : A -> option B) (xs : list A)
  : option (list B) :=
  match xs with
  | [] => Some []
  | x :: xs' =>
      match f x with
      | None => None
      | Some y =>
          match map_option f xs' with
          | None => None
          | Some ys => Some (y :: ys)
          end
      end
  end.

(** [_build_tree], lines 39-53.  The recursion follows the file system,
    so it is bounded by [fuel]: [None] means the bound was reached. *)
Fixpoint _build_tree (o : os) (fuel : nat) (path : string) (is_root : bool)
  : option node :=
  match fuel with
  | O => None
  | S fuel' =>
      let node_name := basename o (Py.rstrip_chars path "\/") in
      let node_name :=
        if negb (Py.truthy node_name) then basename o path else node_name in
      let node_name := if negb is_root then node_name else node_name in
      let node_type := if isdir o path then directory else file in
      if isdir o path then
        match map_option
                (fun item => _build_tree o fuel' (join o path item) false)
                (Py.sorted (listdir o path)) with
        | Some cs => Some (mk_node node_name path node_type cs)
        | None => None
        end
      else Some (mk_node node_name path node_type [])
  end.

(* ================================================================== *)
(** ** The host application *)
(* ================================================================== *)

(** Host objects (menus, quad menus, contexts) are handles. *)
Definition handle : Type := nat.

(** One entry per call into the host, in the order the calls are made. *)
Inductive call : Type :=
| createSubMenu (menu : handle) (id title : string) (result : handle)
| createAction (menu : handle) (id : string) (tag : Z) (label : string)
| notificationParam (result : handle)
| GetContextById (manager : handle) (id : string) (result : handle)
| CreateQuadMenu (context : handle) (id title : string) (result : handle)
| SetRightClickModifiers (context quad_menu : handle) (modifiers : string)
| CreateMenu (quad_menu : handle) (id title position : string)
             (result : handle)
| print (text : string).

(** [allocated] counts the host objects made so far (the next handle),
    [drawn] the calls to [uuid.uuid4], [calls] is the log. *)
Record host : Type := {
  allocated : nat;
  drawn     : nat;
  calls     : list call
}.

(** A computation in the host: state passing, with exceptions. *)
Definition M (A : Type) : Type := host -> outcome A * host.

Definition ret {A : Type} (a : A) : M A := fun h => (Returned a, h).

Definition bind {A B : Type} (m : M A) (k : A -> M B) : M B :=
  fun h =>
    match m h with
    | (Returned a, h') => k a h'
    | (Raised e, h') => (Raised e, h')
    end.

Definition lift {A : Type} (r : outcome A) : M A := fun h => (r, h).

Notation "x <- m ;; k" := (bind m (fun x => k))
  (at level 61, m at next level, right associativity).
Notation "m ;;; k" := (bind m (fun _ => k))
  (at level 61, right associativity).

(** [for x in xs: body(x)]. *)
Definition for_each {A : Type} (body : A -> M unit) : list A -> M unit :=
  fix loop (xs : list A) : M unit :=
    match xs with
    | [] => ret tt
    | x :: xs' => body x ;;; loop xs'
    end.

Definition log (c : call) : M unit :=
  fun h => (Returned tt,
            {| allocated := allocated h; drawn := drawn h;
               calls := calls h ++ [c] |}).

Definition new_handle : M handle :=
  fun h => (Returned (allocated h),
            {| allocated := S (allocated h); drawn := drawn h;
               calls := calls h |}).

Section Generator.

(** The source of [uuid.uuid4()]: its [n]-th draw. *)
Variable uuid4 : nat -> string.
Variable o : os.

(** [str(uuid.uuid4())]. *)
Definition str_uuid4 : M string :=
  fun h => (Returned (uuid4 (drawn h)),
            {| allocated := allocated h; drawn := S (drawn h);
               calls := calls h |}).

Definition do_createSubMenu (menu : handle) (id title : string) : M handle :=
  r <- new_handle ;; log (createSubMenu menu id title r) ;;; ret r.

Definition do_createAction (menu : handle) (id : string) (tag : Z)
           (label : string) : M unit :=
  log (createAction menu id tag label).

(** The fields of [self] set by [__init__]. *)
Record MenuGenerator : Type := {
  root_directory_path     : string;
  main_menu_name          : string;
  quad_menu_name          : string;
  quad_menu_modifier_keys : string;
  quad_menu_position      : string;
  print_tree              : bool;
  directory_tree          : node
}.

Definition __init__ (fuel : nat) (root_directory_path : string)
           (main_menu_name quad_menu_name quad_menu_modifier_keys
            quad_menu_position : string) (print_tree : bool)
  : option MenuGenerator :=
  match _build_tree o fuel root_directory_path true with
  | Some t =>
      Some {| root_directory_path := root_directory_path;
              main_menu_name := main_menu_name;
              quad_menu_name := quad_menu_name;
              quad_menu_modifier_keys := quad_menu_modifier_keys;
              quad_menu_position := quad_menu_position;
              print_tree := print_tree;
              directory_tree := t |}
  | None => None
  end.

(** The action type tag of line 110. *)
Definition action_tag : Z := 647394.

(** The label of line 110: name, backtick, category. *)
Definition action_label (macro_name macro_category : string) : string :=
  macro_name ++ "`" ++ macro_category.

(** The test of line 107. *)
Definition is_mcr_file (child : node) : bool :=
  node_type_eqb (type child) file
  && Py.endswith (Py.lower (path child)) ".mcr".

(** The body of the first loop, lines 107-110. *)
Definition create_action_for (current_menu : handle) (child : node)
  : M unit :=
  if is_mcr_file child then
    r <- lift (read_macro_file o (path child)) ;;
    let (macro_name, macro_category) := (r : string * string) in
    if Py.truthy macro_name && Py.truthy macro_category then
      id <- str_uuid4 ;;
      do_createAction current_menu id action_tag
                      (action_label macro_name macro_category)
    else ret tt
  else ret tt.

(** The two loops of lines 106-113 on the current menu; [recurse] is the
    method itself. *)
Definition loops (recurse : handle -> node -> M unit)
           (nd_children : list node) (current_menu : handle) : M unit :=
  for_each (create_action_for current_menu) nd_children ;;;
  for_each
    (fun child =>
       if node_type_eqb (type child) directory
       then recurse current_menu child
       else ret tt)
    nd_children.

(** [_create_menu_from_tree], lines 98-113; [self_root] is
    [self.root_directory_path]. *)
Fixpoint _create_menu_from_tree (self_root : string) (parent_menu : handle)
         (nd : node) {struct nd} : M unit :=
  match nd with
  | mk_node nd_name nd_path nd_type nd_children =>
      if String.eqb (normpath o nd_path) (normpath o self_root)
      then loops (_create_menu_from_tree self_root) nd_children parent_menu
      else
        match nd_type with
        | directory =>
            id <- str_uuid4 ;;
            current_menu <- do_createSubMenu parent_menu id nd_name ;;
            loops (_create_menu_from_tree self_root) nd_children current_menu
        | file => ret tt
        end
  end.

(** A dict literal with [str] keys and values, in source order. *)
Definition dict : Type := list (string * string).

(** [k in d]. *)
Fixpoint dict_mem (d : dict) (k : string) : bool :=
  match d with
  | [] => false
  | (k', _) :: d' => String.eqb k k' || dict_mem d' k
  end.

(** [d[k]]. *)
Fixpoint dict_item (d : dict) (k : string) : outcome string :=
  match d with
  | [] => Raised KeyError
  | (k', v) :: d' => if String.eqb k k' then Returned v else dict_item d' k
  end.

Definition viewport_context_id : string :=
  "ac7c70f8-3f86-4ff5-a510-e4fd6a9c368e".

Definition modifier_keys_map : dict :=
  [ ("NONE", "nonePressed");
    ("ALT", "altPressed");
    ("CTRL", "controlPressed");
    ("CTRL+ALT", "controlAndAltPressed");
    ("CTRL+SHIFT", "shiftAndControlPressed");
    ("SHIFT+ALT+CTRL", "shiftAndAltAndControlPressed");
    ("SHIFT", "shiftPressed");
    ("SHIFT+ALT", "shiftAndAltPressed") ].

Definition quad_menu_positions : dict :=
  [ ("TOP_LEFT", "TopLeft");
    ("TOP_RIGHT", "TopRight");
    ("BOTTOM_RIGHT", "BottomRight");
    ("BOTTOM_LEFT", "BottomLeft") ].

(** [rt.name(s)]: the MAXScript name value of [s]; no effect on the host. *)
Definition rt_name (s : string) : string := s.

Definition do_notificationParam : M handle :=
  r <- new_handle ;; log (notificationParam r) ;;; ret r.

Definition do_GetContextById (manager : handle) (id : string) : M handle :=
  r <- new_handle ;; log (GetContextById manager id r) ;;; ret r.

Definition do_CreateQuadMenu (context : handle) (id title : string)
  : M handle :=
  r <- new_handle ;; log (CreateQuadMenu context id title r) ;;; ret r.

Definition do_SetRightClickModifiers (context quad_menu : handle)
           (modifiers : string) : M unit :=
  log (SetRightClickModifiers context quad_menu modifiers).

Definition do_CreateMenu (quad_menu : handle) (id title position : string)
  : M handle :=
  r <- new_handle ;; log (CreateMenu quad_menu id title position r) ;;; ret r.

Definition do_print (text : string) : M unit := log (print text).

(** [define_quad_menu], lines 133-170. *)
Definition define_quad_menu (self : MenuGenerator) : M unit :=
  quad_menu_mgr <- do_notificationParam ;;
  viewport_context <- do_GetContextById quad_menu_mgr viewport_context_id ;;
  id <- str_uuid4 ;;
  quad_menu <- do_CreateQuadMenu viewport_context id (quad_menu_name self) ;;
  let _ := rt_name (quad_menu_modifier_keys self) in
  (if dict_mem modifier_keys_map (quad_menu_modifier_keys self) then
     modifiers <- lift (dict_item modifier_keys_map
                                  (quad_menu_modifier_keys self)) ;;
     do_SetRightClickModifiers viewport_context quad_menu (rt_name modifiers)
   else
     do_print ("Warning: Invalid modifier key combination '"
               ++ quad_menu_modifier_keys self ++ "'. Using default.")) ;;;
  if dict_mem quad_menu_positions (quad_menu_position self) then
    position <- lift (dict_item quad_menu_positions
                                (quad_menu_position self)) ;;
    id <- str_uuid4 ;;
    menu <- do_CreateMenu quad_menu id position (rt_name position) ;;
    _create_menu_from_tree (root_directory_path self) menu
                           (directory_tree self)
  else
    do_print ("Warning: Invalid quad menu position '"
              ++ quad_menu_position self
              ++ "'. Using default 'TOP_RIGHT'.") ;;;
    position <- lift (dict_item quad_menu_positions "TOP_RIGHT") ;;
    id <- str_uuid4 ;;
    menu <- do_CreateMenu quad_menu id position (rt_name position) ;;
    _create_menu_from_tree (root_directory_path self) menu
                           (directory_tree self).

End Generator.

(* ================================================================== *)
(** ** A file system given by a table, for concrete runs *)
(* ================================================================== *)

Module Table.

Inductive object : Type :=
| Dir (items : list string)
| File (lines : list string).

Definition table : Type := list (string * object).

Fixpoint lookup (t : table) (p : string) : option object :=
  match t with
  | [] => None
  | (p', e) :: t' => if String.eqb p p' then Some e else lookup t' p
  end.

(** The text after the last ['/'] of [p]. *)
Fixpoint last_segment (p : string) : string :=
  match p with
  | EmptyString => EmptyString
  | String c p' =>
      if Py.contains "/" p' then last_segment p'
      else if Ascii.eqb c "/" then p' else p
  end.

(** Paths of a table are ['/']-separated and already normal. *)
Definition os_of (t : table) : os :=
  {| isdir := fun p =>
       match lookup t p with Some (Dir _) => true | _ => false end;
     isfile := fun p =>
       match lookup t p with Some (File _) => true | _ => false end;
     listdir := fun p =>
       match lookup t p with Some (Dir items) => items | _ => [] end;
     readlines := fun p =>
       match lookup t p with Some (File lines) => lines | _ => [] end;
     basename := last_segment;
     join := fun p item => (p ++ "/" ++ item)%string;
     normpath := fun p => p |}.

(** A table with one descriptor file. *)
Definition one_file (p : string) (lines : list string) : table :=
  [ (p, File lines) ].

End Table.

(** A double quote as a one-character [str]. *)
Definition dq : string := String quote EmptyString.

(* ================================================================== *)
(** ** The descriptor reader, by "first match wins" *)
(* ================================================================== *)

Section ReaderSpec.

Variables start_id cat_id : string.

(** The name by "first match wins": the second token of the first line
    that contains the start marker. *)
Fixpoint first_name (lines : list string) : outcome string :=
  match lines with
  | [] => Returned EmptyString
  | line :: rest =>
      if Py.contains start_id line then second_token line
      else first_name rest
  end.

(** The text that follows the first double quote of a line, if any ... *)
Fixpoint after_quote (s : string) : option string :=
  match s with
  | EmptyString => None
  | String c s' => if Ascii.eqb c quote then Some s' else after_quote s'
  end.

(** ... and its part before the next double quote, or the end of line. *)
Fixpoint until_quote (s : string) : string :=
  match s with
  | EmptyString => EmptyString
  | String c s' =>
      if Ascii.eqb c quote then EmptyString else String c (until_quote s')
  end.

Definition quoted_text (line : string) : option string :=
  option_map until_quote (after_quote line).

(** The category by "first match wins": the quoted text of the first line
    that contains the category marker and has a non-empty quoted text. *)
Fixpoint first_category (lines : list string) : string :=
  match lines with
  | [] => EmptyString
  | line :: rest =>
      if Py.contains cat_id line then
        match quoted_text line with
        | Some t => if Py.truthy t then t else first_category rest
        | None => first_category rest
        end
      else first_category rest
  end.

End ReaderSpec.

(** A line is passed over for the category when it lacks the marker or
    has no non-empty quoted text. *)
Definition no_category (cat_id line : string) : Prop :=
  Py.contains cat_id line = false
  \/ quoted_text line = None
  \/ quoted_text line = Some EmptyString.

(** The number of double quotes of a line. *)
Fixpoint count_quotes (s : string) : nat :=
  match s with
  | EmptyString => 0
  | String c s' => (if Ascii.eqb c quote then 1 else 0) + count_quotes s'
  end.

(* ================================================================== *)
(** ** Descriptor files used in the examples *)
(* ================================================================== *)

Module Descriptors.

(** A line feed as a one-character [str]. *)
Definition nl : string := String (ascii_of_nat 10) EmptyString.

(** The two declarations between comment lines. *)
Definition well_formed : list string :=
  [ ("-- tools" ++ nl)%string;
    ("macroScript Foo" ++ nl)%string;
    ("   -- the category follows" ++ nl)%string;
    ("category: " ++ dq ++ "Bar" ++ dq ++ nl)%string ].

(** The start marker alone on its line. *)
Definition bare_marker : list string :=
  [ ("macroScript" ++ nl)%string ].

(** A category whose closing quote is missing. *)
Definition unterminated : list string :=
  [ ("category: " ++ dq ++ "Bar" ++ nl)%string ].

(** A category that spells the start marker, ahead of the declaration. *)
Definition shadowed : list string :=
  [ ("category: " ++ dq ++ "macroScript" ++ dq ++ nl)%string;
    ("macroScript Foo" ++ nl)%string ].


Definition os_with (lines : list string) : os :=
  Table.os_of (Table.one_file "tool.mcr" lines).

End Descriptors.

(* ================================================================== *)
(** ** The descriptor format, as the specification words it *)
(* ================================================================== *)

(** Letters, digits and the underscore. *)
Definition is_identifier_char (c : ascii) : bool :=
  let n := N_of_ascii c in
  ((48 <=? n) && (n <=? 57) || (65 <=? n) && (n <=? 90)
   || (97 <=? n) && (n <=? 122) || (n =? 95))%N.

Fixpoint all_chars (p : ascii -> bool) (s : string) : bool :=
  match s with
  | EmptyString => true
  | String c s' => p c && all_chars p s'
  end.

Definition is_identifier (s : string) : bool :=
  Py.truthy s && all_chars is_identifier_char s.

(** "a line containing the token [macroScript] followed by the identifier
    as the next whitespace-delimited token". *)
Definition names_macro (line ident : string) : Prop :=
  exists before after,
    Py.split line = before ++ "macroScript"%string :: ident :: after.

(** "a line containing [category:] with the text in double quotes". *)
Definition gives_category (line text : string) : Prop :=
  Py.contains "category:" line = true
  /\ Py.contains (dq ++ text ++ dq) line = true.

(** A file "whose non-comment lines include" the two declarations. *)
Definition declares (raw : list string) (ident text : string) : Prop :=
  is_identifier ident = true
  /\ (exists l1, In l1 (macro_lines raw) /\ names_macro l1 ident)
  /\ (exists l2, In l2 (macro_lines raw) /\ gives_category l2 text).

(** "the text between the first pair of double-quote characters" of a
    line. *)
Definition between_quote_pair (line text : string) : Prop :=
  exists a b,
    line = (a ++ dq ++ text ++ dq ++ b)%string
    /\ Py.mem_char quote a = false
    /\ Py.mem_char quote text = false.

(** "... on the first non-comment line containing the category marker". *)
Definition category_of_first_marker_line (lines : list string)
           (text : string) : Prop :=
  exists pre line post,
    lines = pre ++ line :: post
    /\ Forall (fun l => Py.contains "category:" l = false) pre
    /\ Py.contains "category:" line = true
    /\ between_quote_pair line text.

(* ================================================================== *)
(** ** The tree builder: what a scan is expected to produce *)
(* ================================================================== *)

(** The code point order of [str], as [sorted] uses it. *)
Definition str_le (a b : string) : Prop := String.leb a b = true.
Definition str_lt (a b : string) : Prop := String.ltb a b = true.

(** The file system below [p] is finite: every chain of directories
    that starts at [p] ends. *)
Inductive scan_terminates (o : os) : string -> Prop :=
| scan_leaf (p : string) :
    isdir o p = false -> scan_terminates o p
| scan_dir (p : string) :
    isdir o p = true ->
    (forall item, In item (listdir o p) ->
                  scan_terminates o (join o p item)) ->
    scan_terminates o p.

(** [items] is the listing of [p], in strictly ascending order when the
    listing has no repeated name. *)
Definition sorted_listing (o : os) (p : string) (items : list string)
  : Prop :=
  Permutation items (listdir o p)
  /\ StronglySorted str_le items
  /\ (NoDup (listdir o p) -> StronglySorted str_lt items).

(** A tree that mirrors the file system at every level: a directory node
    has one child per entry, in sorted order of the entry names; any other
    path is a [file] leaf. *)
Inductive scanned (o : os) : node -> Prop :=
| scanned_file (nm p : string) :
    isdir o p = false ->
    scanned o (mk_node nm p file [])
| scanned_dir (nm p : string) (cs : list node) (items : list string) :
    isdir o p = true ->
    sorted_listing o p items ->
    map path cs = map (join o p) items ->
    Forall (scanned o) cs ->
    scanned o (mk_node nm p directory cs).

(** The scenario of the specification: [a.mcr] and [Sub/b.mcr] under the
    root [Tools]; a second root without any entry on disk. *)
Module Scenario.

Definition paint_tool : list string :=
  [ ("macroScript PaintTool" ++ Descriptors.nl)%string;
    ("category: " ++ dq ++ "Paint" ++ dq ++ Descriptors.nl)%string ].

Definition erase_tool : list string :=
  [ ("-- eraser" ++ Descriptors.nl)%string;
    ("category: " ++ dq ++ "Paint" ++ dq ++ Descriptors.nl)%string;
    ("macroScript EraseTool" ++ Descriptors.nl)%string ].

Definition disk : Table.table :=
  [ ("Tools"%string, Table.Dir ["a.mcr"; "Sub"; "notes.txt"]%string);
    ("Tools/a.mcr"%string, Table.File paint_tool);
    ("Tools/notes.txt"%string, Table.File ["todo"%string]);
    ("Tools/Sub"%string, Table.Dir ["b.mcr"]%string);
    ("Tools/Sub/b.mcr"%string, Table.File erase_tool) ].

Definition tools : os := Table.os_of disk.

(** Draws of [uuid.uuid4()]: the text of the draw number is as good as
    any. *)
Definition uuid4 (n : nat) : string :=
  String (ascii_of_nat (48 + n mod 10)) EmptyString.

End Scenario.

(** A decidable bound on the depth of the file system below [p]. *)
Fixpoint finite_within (o : os) (depth : nat) (p : string) : bool :=
  negb (isdir o p)
  || match depth with
     | O => false
     | S depth' =>
         forallb (fun item => finite_within o depth' (join o p item))
                 (listdir o p)
     end.

(* ================================================================== *)
(** ** What a synthesis leaves in the log *)
(* ================================================================== *)

(** An entry of a menu: an action, by its label, or a submenu, by its
    title. *)
Inductive entry : Type :=
| Act (label : string)
| Sub (title : string).

Definition is_action_on (menu : handle) (c : call) : bool :=
  match c with
  | createAction m _ _ _ => Nat.eqb m menu
  | _ => false
  end.

Definition is_submenu_of (menu : handle) (c : call) : bool :=
  match c with
  | createSubMenu m _ _ _ => Nat.eqb m menu
  | _ => false
  end.

(** The entries created directly on [menu], in creation order. *)
Definition entry_of (menu : handle) (c : call) : list entry :=
  match c with
  | createAction m _ _ label => if Nat.eqb m menu then [Act label] else []
  | createSubMenu m _ title _ => if Nat.eqb m menu then [Sub title] else []
  | _ => []
  end.

Definition direct (menu : handle) (log : list call) : list entry :=
  flat_map (entry_of menu) log.

Definition actions_then_submenus (es : list entry) : Prop :=
  exists labels titles, es = map Act labels ++ map Sub titles.

(** Creation order in a log: on every menu, each action is created before
    each submenu. *)
Definition actions_precede_submenus (log : list call) : Prop :=
  forall (menu : handle) (i j : nat) (a s : call),
    nth_error log i = Some a -> is_action_on menu a = true ->
    nth_error log j = Some s -> is_submenu_of menu s = true ->
    i < j.

(** [built menu lo hi es log]: [log] populates [menu] with the entries
    [es], in this order; the submenus made on the way take the handles
    from [lo] up to [hi], each is populated right after its creation, and
    each holds its actions before its submenus. *)
Inductive built : handle -> nat -> nat -> list entry -> list call -> Prop :=
| built_nil (menu : handle) (lo : nat) :
    built menu lo lo [] []
| built_action (menu : handle) (lo hi : nat) (id label : string)
               (es : list entry) (log : list call) :
    built menu lo hi es log ->
    built menu lo hi (Act label :: es)
          (createAction menu id action_tag label :: log)
| built_submenu (menu : handle) (lo mid hi : nat) (id title : string)
                (es' : list entry) (inner : list call)
                (es : list entry) (rest : list call) :
    built lo (S lo) mid es' inner ->
    actions_then_submenus es' ->
    built menu mid hi es rest ->
    built menu lo hi (Sub title :: es)
          (createSubMenu menu id title lo :: inner ++ rest).

(** A directory at or below [nd] whose path normalises to the configured
    root path: [_create_menu_from_tree] would take it for the root. *)
Fixpoint aliases_root (o : os) (root : string) (nd : node) : bool :=
  match nd with
  | mk_node _ p ty cs =>
      match ty with
      | directory =>
          String.eqb (normpath o p) (normpath o root)
          || existsb (aliases_root o root) cs
      | file => false
      end
  end.

(** The label of the action of a child, when it gets one. *)
Definition label_of (o : os) (child : node) : list string :=
  if is_mcr_file child then
    match read_macro_file o (path child) with
    | Returned (macro_name, macro_category) =>
        if Py.truthy macro_name && Py.truthy macro_category
        then [action_label macro_name macro_category]
        else []
    | Raised _ => []
    end
  else [].

Definition action_labels (o : os) (cs : list node) : list string :=
  flat_map (label_of o) cs.

Definition submenu_titles (cs : list node) : list string :=
  map name (filter (fun c => node_type_eqb (type c) directory) cs).

(** A host with [n] objects, nothing drawn and an empty log. *)
Definition fresh_host (n : nat) : host :=
  {| allocated := n; drawn := 0; calls := [] |}.

(** How far a run got: [done] is a prefix of [expected], and all of it
    when the run returned. *)
Definition run_of {A : Type} (r : outcome unit) (done expected : list A)
  : Prop :=
  (exists rest, expected = done ++ rest)
  /\ (r = Returned tt -> done = expected).

(** The entries the two loops put on the current menu. *)
Definition expected_entries (o : os) (cs : list node) : list entry :=
  map Act (action_labels o cs) ++ map Sub (submenu_titles cs).

(** What [_create_menu_from_tree] does for a directory that is not taken
    for the root: one submenu on the parent, then the population of that
    submenu. *)
Definition adds_submenu (uuid4 : nat -> string) (o : os) (root : string)
           (nd : node) : Prop :=
  forall (parent : handle) (h : host) (r : outcome unit) (h' : host),
    type nd = directory ->
    aliases_root o root nd = false ->
    parent < allocated h ->
    _create_menu_from_tree uuid4 o root parent nd h = (r, h') ->
    exists id es inner,
      calls h' = calls h
                 ++ createSubMenu parent id (name nd) (allocated h) :: inner
      /\ built (allocated h) (S (allocated h)) (allocated h') es inner
      /\ actions_then_submenus es
      /\ run_of r es (expected_entries o (children nd)).

(** The calls [_create_menu_from_tree] makes. *)
Definition is_menu_call (c : call) : bool :=
  match c with
  | createAction _ _ _ _ | createSubMenu _ _ _ _ => true
  | _ => false
  end.


(** The tree of the scenario, as [_build_tree] returns it. *)
Definition scenario_tree : node :=
  mk_node "Tools" "Tools" directory
    [ mk_node "Sub" "Tools/Sub" directory
        [ mk_node "b.mcr" "Tools/Sub/b.mcr" file [] ];
      mk_node "a.mcr" "Tools/a.mcr" file [];
      mk_node "notes.txt" "Tools/notes.txt" file [] ].

(** The generator of the scenario, with a modifier-key string that is
    not a key of [modifier_keys_map]. *)
Definition foo_generator : MenuGenerator :=
  {| root_directory_path := "Tools";
     main_menu_name := "Tools Menu";
     quad_menu_name := "Tools Quad Menu";
     quad_menu_modifier_keys := "FOO";
     quad_menu_position := "TOP_RIGHT";
     print_tree := false;
     directory_tree := scenario_tree |}.

Definition is_gating_call (c : call) : bool :=
  match c with
  | SetRightClickModifiers _ _ _ => true
  | _ => false
  end.

(** The paths a scan of [root] visits: the root, and the entries of each
    visited directory. *)
Inductive visited (o : os) (root : string) : string -> Prop :=
| visited_root : visited o root root
| visited_entry (p item : string) :
    visited o root p ->
    isdir o p = true ->
    In item (listdir o p) ->
    visited o root (join o p item).

(** No entry that a scan of [root] visits normalises to the root path. *)
Definition root_is_unique (o : os) (root : string) : Prop :=
  forall p item,
    visited o root p ->
    isdir o p = true ->
    In item (listdir o p) ->
    String.eqb (normpath o (join o p item)) (normpath o root) = false.

(** "ends case-insensitively in [.mcr]": a dot and the three letters, each
    in either case, at the end of the path. *)
Definition mcr_extension (p : string) : Prop :=
  exists stem m c r,
    p = (stem ++ String "." (String m (String c (String r EmptyString))))%string
    /\ (m = "m"%char \/ m = "M"%char)
    /\ (c = "c"%char \/ c = "C"%char)
    /\ (r = "r"%char \/ r = "R"%char).

(* ================================================================== *)
(** ** Further descriptor files *)
(* ================================================================== *)

Module MoreDescriptors.

(** The two declarations, then a line that alone would raise. *)
Definition trailing_marker : list string :=
  (Descriptors.well_formed
   ++ [ ("macroScript" ++ Descriptors.nl)%string ])%list.

End MoreDescriptors.

(** A character that is not white space. *)
Definition is_ink (c : ascii) : bool := negb (Py.isspace c).

(** The nodes of a tree, the top one first, then those of each child in
    turn. *)
Fixpoint preorder (nd : node) : list node :=
  match nd with
  | mk_node _ _ _ cs => nd :: flat_map preorder cs
  end.

(** The nodes below the top one. *)
Definition below (nd : node) : list node := flat_map preorder (children nd).

(** The generator of the scenario, as [__init__] makes it with the default
    names. *)
Definition scenario_generator : MenuGenerator :=
  {| root_directory_path := "Tools";
     main_menu_name := "Tools Menu";
     quad_menu_name := "Tools Quad Menu";
     quad_menu_modifier_keys := "CTRL+SHIFT";
     quad_menu_position := "TOP_RIGHT";
     print_tree := false;
     directory_tree := scenario_tree |}.

(** The scenario after the directories changed on disk: [Tools] lists
    nothing any more and [Sub] is gone; the descriptor files are as they
    were. *)
Definition disk_after : Table.table :=
  [ ("Tools"%string, Table.Dir []);
    ("Tools/a.mcr"%string, Table.File Scenario.paint_tool);
    ("Tools/Sub/b.mcr"%string, Table.File Scenario.erase_tool) ].

(** The identifier a call passes to the host, for the calls that create
    a menu element. *)
Definition call_id (c : call) : list string :=
  match c with
  | createSubMenu _ id _ _ | createAction _ id _ _
  | CreateQuadMenu _ id _ _ | CreateMenu _ id _ _ _ => [id]
  | _ => []
  end.

Definition ids (log : list call) : list string := flat_map call_id log.

(** From [h] to [h']: calls were added to the log, and the identifiers
    they carry are the draws of [uuid4] from that of [h] on, one draw per
    identifier, in order. *)
Definition drew (uuid4 : nat -> string) (h h' : host) : Prop :=
  exists log,
    calls h' = calls h ++ log
    /\ drawn h' = drawn h + List.length (ids log)
    /\ ids log = map uuid4 (seq (drawn h) (List.length (ids log))).

Definition is_directory (c : node) : bool :=
  node_type_eqb (type c) directory.

(** The actions of the first loop on [menu], for the children [cs]. *)
Definition actions_for (o : os) (menu : handle) (cs : list node)
           (acts : list call) : Prop :=
  Forall2 (fun a label => exists id,
               a = createAction menu id action_tag label)
          acts (action_labels o cs).

(** [mirrors o cs menu lo hi log]: [log] is what the second loop adds for
    the children [cs] on [menu], all levels included: nothing for a
    [file]; for a [directory], its submenu on [menu] with the directory's
    name, then the actions of its own children on that submenu, then the
    same for its own directories.  The new submenus take the handles from
    [lo] up to [hi]. *)
Inductive mirrors (o : os)
  : list node -> handle -> nat -> nat -> list call -> Prop :=
| mirrors_nil (menu : handle) (lo : nat) :
    mirrors o [] menu lo lo []
| mirrors_file (c : node) (cs : list node) (menu : handle) (lo hi : nat)
               (log : list call) :
    is_directory c = false ->
    mirrors o cs menu lo hi log ->
    mirrors o (c :: cs) menu lo hi log
| mirrors_directory (c : node) (cs : list node) (menu : handle)
                    (lo mid hi : nat) (id : string)
                    (acts inner rest : list call) :
    is_directory c = true ->
    actions_for o lo (children c) acts ->
    mirrors o (children c) lo (S lo) mid inner ->
    mirrors o cs menu mid hi rest ->
    mirrors o (c :: cs) menu lo hi
            (createSubMenu menu id (name c) lo :: acts ++ inner ++ rest).

(** What a returning call of [_create_menu_from_tree] leaves for a
    directory that is not taken for the root, all levels included. *)
Definition adds_mirror (uuid4 : nat -> string) (o : os) (root : string)
           (nd : node) : Prop :=
  forall (parent : handle) (h h' : host),
    type nd = directory ->
    aliases_root o root nd = false ->
    _create_menu_from_tree uuid4 o root parent nd h = (Returned tt, h') ->
    exists id acts inner,
      calls h' = calls h
                 ++ createSubMenu parent id (name nd) (allocated h)
                 :: acts ++ inner
      /\ actions_for o (allocated h) (children nd) acts
      /\ mirrors o (children nd) (allocated h) (S (allocated h))
                 (allocated h') inner.

(* ================================================================== *)
(** ** The calls of [define_quad_menu] ahead of the synthesis *)
(* ================================================================== *)

Definition is_print_call (c : call) : bool :=
  match c with print _ => true | _ => false end.

Definition is_CreateMenu_call (c : call) : bool :=
  match c with CreateMenu _ _ _ _ _ => true | _ => false end.

(** [d[k]] when [k in d], [fallback] otherwise. *)
Definition dict_get (d : dict) (k fallback : string) : string :=
  match dict_item d k with
  | Returned v => v
  | Raised _ => fallback
  end.

(** The warning of line 154. *)
Definition modifier_warning (self : MenuGenerator) : string :=
  ("Warning: Invalid modifier key combination '"
   ++ quad_menu_modifier_keys self ++ "'. Using default.")%string.

(** The warning of line 167. *)
Definition position_warning (self : MenuGenerator) : string :=
  ("Warning: Invalid quad menu position '"
   ++ quad_menu_position self ++ "'. Using default 'TOP_RIGHT'.")%string.

(** Lines 149-154, for the context [ctx] and the quad menu [quad]. *)
Definition modifier_calls (self : MenuGenerator) (ctx quad : handle)
  : list call :=
  match dict_item modifier_keys_map (quad_menu_modifier_keys self) with
  | Returned v => [SetRightClickModifiers ctx quad v]
  | Raised _ => [print (modifier_warning self)]
  end.

(** The print of line 167, when it is reached. *)
Definition position_calls (self : MenuGenerator) : list call :=
  if dict_mem quad_menu_positions (quad_menu_position self) then []
  else [print (position_warning self)].

(** All the calls of lines 134-164/169, from a host with [a] objects and
    [d] draws. *)
Definition quad_prelude (uuid4 : nat -> string) (self : MenuGenerator)
           (a d : nat) : list call :=
  [ notificationParam a;
    GetContextById a viewport_context_id (S a);
    CreateQuadMenu (S a) (uuid4 d) (quad_menu_name self) (S (S a)) ]
  ++ modifier_calls self (S a) (S (S a))
  ++ position_calls self
  ++ [ CreateMenu (S (S a)) (uuid4 (S d))
                  (dict_get quad_menu_positions (quad_menu_position self)
                            "TopRight")
                  (dict_get quad_menu_positions (quad_menu_position self)
                            "TopRight")
                  (S (S (S a))) ].

(* ================================================================== *)
(** ** [_print_directory_tree] and [define_main_menu] *)
(* ================================================================== *)

(** [for i, x in enumerate(xs): body(i, x)], the count starting at [i]. *)
Definition for_each_enumerate {A : Type} (body : Z -> A -> M unit)
  : Z -> list A -> M unit :=
  fix loop (i : Z) (xs : list A) {struct xs} : M unit :=
    match xs with
    | [] => ret tt
    | x :: xs' => body i x ;;; loop (i + 1)%Z xs'
    end.

(** [i == len(xs) - 1]. *)
Definition is_last_index {A : Type} (i : Z) (xs : list A) : bool :=
  Z.eqb i (Z.of_nat (List.length xs) - 1).

(** [_print_directory_tree], lines 57-64.  The box-drawing characters of
    the connectors stand here as their UTF-8 bytes. *)
Fixpoint _print_directory_tree (nd : node) (prefix : string)
         (is_last is_root : bool) {struct nd} : M unit :=
  match nd with
  | mk_node nd_name _ _ nd_children =>
      let connector := if is_last then "└── " else "├── " in
      (if negb is_root then do_print (prefix ++ connector ++ nd_name)
       else ret tt) ;;;
      let child_prefix :=
        (prefix ++ (if is_last then "    " else "│   "))%string in
      for_each_enumerate
        (fun i child =>
           let last_child := is_last_index i nd_children in
           _print_directory_tree child child_prefix last_child false)
        0%Z nd_children
  end.

(** [menu_mgr.mainMenuBar]: an attribute read; it gives a handle on the
    menu bar and is no call of its own. *)
Definition do_mainMenuBar (manager : handle) : M handle := new_handle.

(** A method that may assign to a field of [self]: the generator is
    passed along with the host, and an exception leaves both as they
    were when it was raised. *)
Definition Method (A : Type) : Type :=
  MenuGenerator -> host -> outcome A * (MenuGenerator * host).

Definition mret {A : Type} (a : A) : Method A :=
  fun self h => (Returned a, (self, h)).

Definition mbind {A B : Type} (m : Method A) (k : A -> Method B)
  : Method B :=
  fun self h =>
    match m self h with
    | (Returned a, (self', h')) => k a self' h'
    | (Raised e, s) => (Raised e, s)
    end.

(** A computation in the host, run from a method. *)
Definition in_host {A : Type} (m : M A) : Method A :=
  fun self h => let (r, h') := m h in (r, (self, h')).

(** [self.<field>]. *)
Definition read_self {A : Type} (field : MenuGenerator -> A) : Method A :=
  fun self h => (Returned (field self), (self, h)).

(** [self.print_tree = b]. *)
Definition assign_print_tree (b : bool) : Method unit :=
  fun self h =>
    (Returned tt,
     ({| root_directory_path := root_directory_path self;
         main_menu_name := main_menu_name self;
         quad_menu_name := quad_menu_name self;
         quad_menu_modifier_keys := quad_menu_modifier_keys self;
         quad_menu_position := quad_menu_position self;
         print_tree := b;
         directory_tree := directory_tree self |}, h)).

Notation "x <~ m ;; k" := (mbind m (fun x => k))
  (at level 61, m at next level, right associativity).
Notation "m ;;~ k" := (mbind m (fun _ => k))
  (at level 61, right associativity).

(** [define_main_menu], lines 117-129. *)
Definition define_main_menu (uuid4 : nat -> string) (o : os) : Method unit :=
  menu_mgr <~ in_host do_notificationParam ;;
  main_menu_bar <~ in_host (do_mainMenuBar menu_mgr) ;;
  id <~ in_host (str_uuid4 uuid4) ;;
  title <~ read_self main_menu_name ;;
  menu <~ in_host (do_createSubMenu main_menu_bar id title) ;;
  flag <~ read_self print_tree ;;
  (if flag : bool then
     tree <~ read_self directory_tree ;;
     let children := children tree in
     in_host (for_each_enumerate
                (fun i child =>
                   let last_child := is_last_index i children in
                   _print_directory_tree child EmptyString last_child false)
                0%Z children) ;;~
     in_host (do_print EmptyString) ;;~
     assign_print_tree false
   else mret tt) ;;~
  root <~ read_self root_directory_path ;;
  tree <~ read_self directory_tree ;;
  in_host (_create_menu_from_tree uuid4 o root menu tree).

(** A printed line of the tree for the node [n]: some indentation, one of
    the two connectors, the name of the node. *)
Definition tree_line (c : call) (n : node) : Prop :=
  exists indent connector,
    (connector = "└── "%string \/ connector = "├── "%string)
    /\ c = print (indent ++ connector ++ name n).

(** The host [h] with [log] added to its calls, and nothing else
    changed. *)
Definition logged (h : host) (log : list call) : host :=
  {| allocated := allocated h; drawn := drawn h;
     calls := calls h ++ log |}.

(** [self] with its [print_tree] field cleared if it was set. *)
Definition printed_once (self : MenuGenerator) : MenuGenerator :=
  if print_tree self then
    {| root_directory_path := root_directory_path self;
       main_menu_name := main_menu_name self;
       quad_menu_name := quad_menu_name self;
       quad_menu_modifier_keys := quad_menu_modifier_keys self;
       quad_menu_position := quad_menu_position self;
       print_tree := false;
       directory_tree := directory_tree self |}
  else self.

(** The generator of the scenario with the diagnostic print asked for. *)
Definition printing_generator : MenuGenerator :=
  {| root_directory_path := "Tools";
     main_menu_name := "Tools Menu";
     quad_menu_name := "Tools Quad Menu";
     quad_menu_modifier_keys := "CTRL+SHIFT";
     quad_menu_position := "TOP_RIGHT";
     print_tree := true;
     directory_tree := scenario_tree |}.

(** The two calls of [define_main_menu] ahead of the diagnostic print,
    from a host with [a] objects and [d] draws: the bar is the object
    [S a], the new menu the object [S (S a)]. *)
Definition main_prelude (uuid4 : nat -> string) (self : MenuGenerator)
           (a d : nat) : list call :=
  [ notificationParam a;
    createSubMenu (S a) (uuid4 d) (main_menu_name self) (S (S a)) ].

(* ================================================================== *)
(** ** [register_menus] and the callback scripts of the host *)
(* ================================================================== *)

(** A bound method of a generator, handed to the host as a callback. *)
Inductive callback : Type :=
| bound_define_main_menu (self : MenuGenerator)
| bound_define_quad_menu (self : MenuGenerator).

(** A registered script: the event it waits for, what it runs, and the
    id it was registered under. *)
Record script : Type := {
  event     : string;
  fn        : callback;
  script_id : string
}.

(** What [register_menus] acts on: the scripts registered with
    [rt.callbacks], oldest first, and the managers that were asked to
    load their current configuration again. *)
Record cui : Type := {
  scripts : list script;
  reloads : list string
}.

Section Callbacks.

(** [rt.name(a) == rt.name(b)]: how the host compares two names is left
    open. *)
Variable same_name : string -> string -> bool.

(** [rt.callbacks.removeScripts(id=rt.name(id))]: every script registered
    under the id goes, whatever its event. *)
Definition removeScripts (id : string) (c : cui) : cui :=
  {| scripts :=
       filter (fun s => negb (same_name (script_id s) id)) (scripts c);
     reloads := reloads c |}.

(** [rt.callbacks.addScript(rt.name(event), fn, id=rt.name(id))]. *)
Definition addScript (ev : string) (f : callback) (id : string) (c : cui)
  : cui :=
  {| scripts := scripts c ++ [ {| event := ev; fn := f; script_id := id |} ];
     reloads := reloads c |}.

(** [mgr.LoadConfiguration(mgr.GetCurrentConfiguration())] for the manager
    that [rt.maxOps.<getter>()] returns. *)
Definition LoadConfiguration (getter : string) (c : cui) : cui :=
  {| scripts := scripts c; reloads := reloads c ++ [getter] |}.

(** [register_menus], lines 174-189. *)
Definition register_menus (self : MenuGenerator)
           (main_menu_callback_id quad_menu_callback_id : string) (c : cui)
  : cui :=
  let c := removeScripts main_menu_callback_id c in
  let c := addScript "cuiRegisterMenus" (bound_define_main_menu self)
                     main_menu_callback_id c in
  let c := removeScripts quad_menu_callback_id c in
  let c := addScript "cuiRegisterQuadMenus" (bound_define_quad_menu self)
                     quad_menu_callback_id c in
  let c := LoadConfiguration "GetICuiMenuMgr" c in
  LoadConfiguration "GetICuiQuadMenuMgr" c.

(** The scripts registered under [id]. *)
Definition scripts_under (id : string) (c : cui) : list script :=
  filter (fun s => same_name (script_id s) id) (scripts c).

End Callbacks.

(** The two scripts [register_menus] adds. *)
Definition main_script (self : MenuGenerator) (id : string) : script :=
  {| event := "cuiRegisterMenus"; fn := bound_define_main_menu self;
     script_id := id |}.

Definition quad_script (self : MenuGenerator) (id : string) : script :=
  {| event := "cuiRegisterQuadMenus"; fn := bound_define_quad_menu self;
     script_id := id |}.

(** A host that already holds a script of another tool and one left from
    an earlier registration. *)
Definition busy_cui : cui :=
  {| scripts :=
       [ {| event := "filePostOpen";
            fn := bound_define_quad_menu foo_generator;
            script_id := "other_tool" |};
         main_script foo_generator "menu_callback" ];
     reloads := [] |}.

Definition is_createSubMenu (c : call) : bool :=
  match c with createSubMenu _ _ _ _ => true | _ => false end.

Definition is_createAction (c : call) : bool :=
  match c with createAction _ _ _ _ => true | _ => false end.

(** The directories that the synthesis meets below a node: the directory
    children, and those below each of them. *)
Fixpoint submenus_below (nd : node) : nat :=
  match nd with
  | mk_node _ _ _ cs =>
      list_sum (map (fun c => if is_directory c
                              then S (submenus_below c) else 0) cs)
  end.

(** The descriptors that give an action below a node: those among its
    children, and those below each directory child. *)
Fixpoint actions_below (o : os) (nd : node) : nat :=
  match nd with
  | mk_node _ _ _ cs =>
      List.length (action_labels o cs)
      + list_sum (map (fun c => if is_directory c
                                then actions_below o c else 0) cs)
  end.

(* ================================================================== *)
(** ** Descriptors on the way of a synthesis *)
(* ================================================================== *)

(** The nodes that the two loops of a node go through, in the order in
    which line 107 tests them: the children, then the same for each
    [directory] child in turn. *)
Fixpoint reached (nd : node) : list node :=
  match nd with
  | mk_node _ _ _ cs =>
      cs ++ flat_map (fun c => if is_directory c then reached c else []) cs
  end.

(** The descriptor of a node is read without an exception, when line 107
    selects the node. *)
Definition descriptor_reads (o : os) (n : node) : Prop :=
  is_mcr_file n = true -> exists v, read_macro_file o (path n) = Returned v.

(* ================================================================== *)
(** ** The children that get an action, as the specification words them *)
(* ================================================================== *)

(** One letter, in either case. *)
Definition letter (small capital c : ascii) : bool :=
  Ascii.eqb c small || Ascii.eqb c capital.

(** "ends case-insensitively in [.mcr]": the last four characters are a
    dot and the letters m, c, r, each in either case. *)
Fixpoint ends_in_mcr (p : string) : bool :=
  match p with
  | EmptyString => false
  | String d rest =>
      match rest with
      | String m (String c (String r EmptyString)) =>
          Ascii.eqb d "."
          && letter "m" "M" m && letter "c" "C" c && letter "r" "R" r
      | _ => ends_in_mcr rest
      end
  end.

(** "a File child whose path ends case-insensitively in [.mcr]". *)
Definition descriptor_child (child : node) : bool :=
  match type child with
  | file => ends_in_mcr (path child)
  | directory => false
  end.

Definition non_empty (s : string) : bool :=
  negb (Nat.eqb (String.length s) 0).

(** "... and whose descriptor yields a non-empty name and a non-empty
    category". *)
Definition gets_action (o : os) (child : node) : bool :=
  descriptor_child child
  && match read_macro_file o (path child) with
     | Returned (macro_name, macro_category) =>
         non_empty macro_name && non_empty macro_category
     | Raised _ => false
     end.

(** A menu context with a descriptor whose extension is in capitals, a
    descriptor without a category, a text file that reads like a
    descriptor, and a directory. *)
Module Mixed.

Definition name_only : list string :=
  [ ("macroScript Lonely" ++ Descriptors.nl)%string ].

Definition disk : Table.table :=
  [ ("Tools"%string,
     Table.Dir ["notes.txt"; "empty.mcr"; "Sub"; "A.MCR"]%string);
    ("Tools/A.MCR"%string, Table.File Scenario.paint_tool);
    ("Tools/empty.mcr"%string, Table.File name_only);
    ("Tools/notes.txt"%string, Table.File Scenario.paint_tool);
    ("Tools/Sub"%string, Table.Dir ["b.mcr"]%string);
    ("Tools/Sub/b.mcr"%string, Table.File Scenario.erase_tool) ].

Definition tools : os := Table.os_of disk.

End Mixed.

(** The tree of that context, as [_build_tree] returns it. *)
Definition mixed_tree : node :=
  mk_node "Tools" "Tools" directory
    [ mk_node "A.MCR" "Tools/A.MCR" file [];
      mk_node "Sub" "Tools/Sub" directory
        [ mk_node "b.mcr" "Tools/Sub/b.mcr" file [] ];
      mk_node "empty.mcr" "Tools/empty.mcr" file [];
      mk_node "notes.txt" "Tools/notes.txt" file [] ].

(** A menu context in which the first descriptor has the start marker
    alone on its line. *)
Module Broken.

Definition disk : Table.table :=
  [ ("Tools"%string, Table.Dir ["a.mcr"; "b.mcr"; "Sub"]%string);
    ("Tools/a.mcr"%string, Table.File Descriptors.bare_marker);
    ("Tools/b.mcr"%string, Table.File Scenario.paint_tool);
    ("Tools/Sub"%string, Table.Dir []) ].

Definition tools : os := Table.os_of disk.

End Broken.

Definition broken_tree : node :=
  mk_node "Tools" "Tools" directory
    [ mk_node "Sub" "Tools/Sub" directory [];
      mk_node "a.mcr" "Tools/a.mcr" file [];
      mk_node "b.mcr" "Tools/b.mcr" file [] ].

(* ================================================================== *)
(** * Properties *)
(* ================================================================== *)

(** ** The descriptor reader: what the loop computes *)

Section Reader.

Variables start_id cat_id : string.

Lemma split_on_cons (s : string) :
  exists fld flds, Py.split_on quote s = fld :: flds.
Proof.
  destruct s as [|c s]; simpl; eauto.
  destruct (Ascii.eqb c quote); eauto.
  destruct (Py.split_on quote s); eauto.
Qed.

Lemma split_on_head (s : string) :
  hd EmptyString (Py.split_on quote s) = until_quote s.
Proof.
  induction s as [|c s IH]; simpl; auto.
  destruct (Ascii.eqb c quote); simpl; auto.
  destruct (split_on_cons s) as (f & fs & E).
  rewrite E in *. simpl in *. now rewrite IH.
Qed.

Lemma split_on_tail (s : string) :
  tl (Py.split_on quote s)
  = match after_quote s with
    | Some r => Py.split_on quote r
    | None => []
    end.
Proof.
  induction s as [|c s IH]; simpl; auto.
  destruct (Ascii.eqb c quote); simpl; auto.
  destruct (split_on_cons s) as (f & fs & E).
  rewrite E in *. simpl in *. exact IH.
Qed.

(** Lines 89-91 read off [quoted_text]. *)
Lemma parts_quoted_text (line : string) :
  (if Nat.leb 2 (List.length (Py.split_on quote line))
   then Some (nth 1 (Py.split_on quote line) EmptyString)
   else None)
  = quoted_text line.
Proof.
  unfold quoted_text.
  pose proof (split_on_tail line) as T.
  destruct (split_on_cons line) as (f & fs & E).
  rewrite E in *. simpl in T. subst fs.
  destruct (after_quote line) as [r|]; simpl; auto.
  pose proof (split_on_head r) as H.
  destruct (split_on_cons r) as (g & gs & E').
  rewrite E' in *. simpl in *. now subst g.
Qed.

Lemma split_tokens_truthy (s : string) :
  Forall (fun tok => Py.truthy tok = true) (Py.split s).
Proof.
  induction s as [|c s IH]; simpl; auto.
  destruct (Py.isspace c); auto.
  destruct (Py.starts_token s).
  - destruct (Py.split s) as [|tok toks]; auto.
    inversion IH; subst. constructor; auto.
  - constructor; auto.
Qed.

Lemma second_token_truthy (line tok : string) :
  second_token line = Returned tok -> Py.truthy tok = true.
Proof.
  unfold second_token.
  destruct (nth_error (Py.split line) 1) as [t|] eqn:E; [|discriminate].
  intros [= <-].
  pose proof (split_tokens_truthy line) as F.
  rewrite Forall_forall in F. apply F.
  eapply nth_error_In; eauto.
Qed.

(** The loop, with its accumulators, against the two "first match"
    functions: the early [break] changes nothing, and the only exception
    is the [IndexError] of [line.split()[1]]. *)
Lemma scan_lines_spec (lines : list string) (n0 c0 : string) :
  scan_lines start_id cat_id lines n0 c0
  = match (if Py.truthy n0 then Returned n0
           else first_name start_id lines) with
    | Raised e => Raised e
    | Returned n =>
        Returned (n, if Py.truthy c0 then c0
                     else first_category cat_id lines)
    end.
Proof.
  revert n0 c0.
  induction lines as [|line rest IH]; intros n0 c0.
  - simpl. destruct n0, c0; reflexivity.
  - cbn [scan_lines first_name first_category].
    pose proof (parts_quoted_text line) as Q. cbv zeta.
    destruct (Py.contains start_id line) eqn:Hs;
      destruct (Py.truthy n0) eqn:Hn; cbn [andb negb].
    all: try (destruct (second_token line) as [tok|e] eqn:Ht;
              [pose proof (second_token_truthy _ _ Ht) as Htok | reflexivity]).
    all: destruct (Py.contains cat_id line) eqn:Hc;
      destruct (Py.truthy c0) eqn:Hc0; cbn [andb negb].
    all: try (destruct (Nat.leb 2 (List.length (Py.split_on quote line)));
              rewrite <- Q; clear Q).
    all: repeat (match goal with
           | H : Py.truthy ?x = _ |- context [Py.truthy ?x] => rewrite H
           | |- context [Py.truthy ?x] => destruct (Py.truthy x) eqn:?
           end; cbn [andb negb]); try reflexivity.
    all: rewrite IH;
      repeat match goal with
        | H : Py.truthy ?x = _ |- context [Py.truthy ?x] => rewrite H
        end; try reflexivity.
Qed.

End Reader.

(** [read_macro_file] on an existing file, by the two "first match"
    functions. *)
Lemma read_macro_file_spec (o : os) (p : string) :
  isfile o p = true ->
  read_macro_file o p
  = match first_name "macroScript" (macro_lines (readlines o p)) with
    | Raised e => Raised e
    | Returned n =>
        Returned (n, first_category "category:" (macro_lines (readlines o p)))
    end.
Proof.
  intros F. unfold read_macro_file, read_macro_file_with.
  rewrite F. cbn [negb]. now rewrite scan_lines_spec.
Qed.

Lemma read_macro_file_missing (o : os) (p : string) :
  isfile o p = false ->
  read_macro_file o p = Returned (EmptyString, EmptyString).
Proof.
  intros F. unfold read_macro_file, read_macro_file_with. now rewrite F.
Qed.

(** *** Facts on the "first match" functions *)



Lemma first_category_skip (cat_id : string) (pre rest : list string) :
  Forall (no_category cat_id) pre ->
  first_category cat_id (pre ++ rest) = first_category cat_id rest.
Proof.
  induction 1 as [|l pre Hl _ IH]; simpl; auto.
  destruct Hl as [H|[H|H]]; rewrite H; simpl; auto.
  all: destruct (Py.contains cat_id l); auto.
Qed.


(** Where a non-empty category comes from. *)
Lemma first_category_found (cat_id : string) (lines : list string) :
  Py.truthy (first_category cat_id lines) = true ->
  exists pre line post,
    lines = pre ++ line :: post
    /\ Forall (no_category cat_id) pre
    /\ Py.contains cat_id line = true
    /\ quoted_text line = Some (first_category cat_id lines).
Proof.
  induction lines as [|l rest IH]; simpl; [discriminate|].
  destruct (Py.contains cat_id l) eqn:Hc.
  - destruct (quoted_text l) as [t|] eqn:Hq.
    + destruct (Py.truthy t) eqn:Ht.
      * intros _. exists [], l, rest. repeat split; auto.
      * intros H. destruct (IH H) as (pre & line & post & E & F & C & Q).
        exists (l :: pre), line, post. rewrite E at 1.
        repeat split; auto. constructor; auto.
        right; right. destruct t; [auto|discriminate].
    + intros H. destruct (IH H) as (pre & line & post & E & F & C & Q).
      exists (l :: pre), line, post. rewrite E at 1.
      repeat split; auto. constructor; auto. right; left; auto.
  - intros H. destruct (IH H) as (pre & line & post & E & F & C & Q).
    exists (l :: pre), line, post. rewrite E at 1.
    repeat split; auto. constructor; auto. left; auto.
Qed.

(** *** Quotes in a line *)





Lemma count_quotes_app (s t : string) :
  count_quotes (s ++ t) = count_quotes s + count_quotes t.
Proof. induction s as [|c s IH]; simpl; [auto|rewrite IH; lia]. Qed.

(** *** Tokens of a line *)







(** ** The descriptor reader: the claims *)

(** C7.  [read_macro_file] is not total: on an existing file whose only
    line is the start marker, [line.split()[1]] raises [IndexError], where
    the claim has it return a pair of strings. *)
Theorem read_macro_file_bare_marker_raises :
  isfile (Descriptors.os_with Descriptors.bare_marker) "tool.mcr" = true
  /\ read_macro_file (Descriptors.os_with Descriptors.bare_marker) "tool.mcr"
     = Raised IndexError.
Proof. split; reflexivity. Qed.

(** The reader raises exactly when the first line with the start marker
    has no second token. *)
Lemma read_macro_file_raises_iff (o : os) (p : string) (e : exn) :
  read_macro_file o p = Raised e <->
  isfile o p = true
  /\ first_name "macroScript" (macro_lines (readlines o p)) = Raised e.
Proof.
  destruct (isfile o p) eqn:F.
  - rewrite (read_macro_file_spec o p F).
    destruct (first_name _ _); split.
    + discriminate.
    + intros [_ H]; discriminate.
    + intros [= ->]; auto.
    + intros [_ [= ->]]; auto.
  - rewrite (read_macro_file_missing o p F). split.
    + discriminate.
    + intros [H _]; discriminate.
Qed.

(** C6, as stated, fails: a category is extracted from a marker line that
    has a single double quote, so no pair of quotes encloses it. *)
Lemma category_without_quote_pair :
  read_macro_file (Descriptors.os_with Descriptors.unterminated) "tool.mcr"
  = Returned (EmptyString, "Bar"%string)
  /\ ~ category_of_first_marker_line
       (macro_lines Descriptors.unterminated) "Bar".
Proof.
  split; [reflexivity|].
  intros (pre & line & post & E & _ & _ & (a & b & L & _ & _)).
  assert (Q : count_quotes line <= 1).
  { destruct pre as [|x pre].
    - injection E as <- _. vm_compute. lia.
    - injection E as _ E. destruct pre; discriminate. }
  rewrite L in Q. unfold dq in Q.
  repeat (rewrite count_quotes_app in Q; cbn [count_quotes] in Q).
  rewrite Ascii.eqb_refl in Q. lia.
Qed.

(** C6, amended.  The category returned for an existing file is the
    "first match" category: the text after the first double quote, up to
    the next one or to the end of the line, of the first non-comment line
    that contains the category marker and where that text is not empty;
    the lines after it never change it.  A marker line without any double
    quote, or with an empty quoted text, is passed over. *)
Theorem read_macro_file_category (o : os) (p n c : string) :
  isfile o p = true ->
  read_macro_file o p = Returned (n, c) ->
  c = first_category "category:" (macro_lines (readlines o p))
  /\ (c <> EmptyString ->
      exists pre line post,
        macro_lines (readlines o p) = pre ++ line :: post
        /\ Forall (no_category "category:") pre
        /\ Py.contains "category:" line = true
        /\ quoted_text line = Some c).
Proof.
  intros F R. rewrite (read_macro_file_spec o p F) in R.
  destruct (first_name _ _) as [n'|e]; [|discriminate].
  injection R as -> <-. split; [reflexivity|].
  intros Hc. apply first_category_found.
  destruct (first_category _ _); [contradiction|reflexivity].
Qed.

Lemma read_macro_file_category_witness :
  "Bar"%string
  = first_category "category:"
      (macro_lines (readlines (Descriptors.os_with Descriptors.well_formed)
                              "tool.mcr"))
  /\ ("Bar"%string <> EmptyString ->
      exists pre line post,
        macro_lines (readlines (Descriptors.os_with Descriptors.well_formed)
                               "tool.mcr") = pre ++ line :: post
        /\ Forall (no_category "category:") pre
        /\ Py.contains "category:" line = true
        /\ quoted_text line = Some "Bar"%string).
Proof.
  apply (read_macro_file_category
           (Descriptors.os_with Descriptors.well_formed) "tool.mcr" "Foo" "Bar");
    reflexivity.
Defined.


(** The same with the two declarations alone, the category first, when
    its quoted text spells the start marker: the name is read off the
    category line. *)
Lemma round_trip_shadowed :
  declares Descriptors.shadowed "Foo" "macroScript"
  /\ read_macro_file (Descriptors.os_with Descriptors.shadowed) "tool.mcr"
     <> Returned ("Foo"%string, "macroScript"%string).
Proof.
  split.
  - split; [reflexivity|]. split.
    + exists "macroScript Foo"%string. split; [vm_compute; auto|].
      exists [], []. reflexivity.
    + exists ("category: " ++ dq ++ "macroScript" ++ dq)%string.
      split; [vm_compute; auto|]. split; reflexivity.
  - vm_compute. discriminate.
Qed.



(** ** [sorted] on [str] *)

Lemma string_compare_lt_trans (a b c : string) :
  String.compare a b = Lt -> String.compare b c = Lt ->
  String.compare a c = Lt.
Proof.
  revert b c.
  induction a as [|x a IH]; intros [|y b] [|z c]; simpl; try easy.
  unfold Ascii.compare.
  destruct (N.compare_spec (N_of_ascii x) (N_of_ascii y)),
           (N.compare_spec (N_of_ascii y) (N_of_ascii z)),
           (N.compare_spec (N_of_ascii x) (N_of_ascii z));
    try easy; try lia; eauto.
Qed.

Lemma string_compare_refl (a : string) : String.compare a a = Eq.
Proof.
  induction a as [|x a IH]; simpl; auto.
  unfold Ascii.compare. now rewrite N.compare_refl.
Qed.

Lemma str_le_cases (a b : string) : str_le a b <-> a = b \/ str_lt a b.
Proof.
  unfold str_le, str_lt, String.leb, String.ltb.
  destruct (String.compare a b) eqn:E; split; auto; try easy.
  - intros _. left. now apply String.compare_eq_iff.
  - intros [->|H]; [|discriminate].
    rewrite string_compare_refl in E. discriminate.
Qed.

Lemma str_lt_trans (a b c : string) : str_lt a b -> str_lt b c -> str_lt a c.
Proof.
  unfold str_lt, String.ltb. intros H1 H2.
  destruct (String.compare a b) eqn:E1; try discriminate.
  destruct (String.compare b c) eqn:E2; try discriminate.
  now rewrite (string_compare_lt_trans a b c E1 E2).
Qed.

Lemma str_le_trans (a b c : string) : str_le a b -> str_le b c -> str_le a c.
Proof.
  rewrite !str_le_cases.
  intros [->|H1] [->|H2]; auto. right. eapply str_lt_trans; eauto.
Qed.

Lemma str_le_total (a b : string) : str_le a b \/ str_le b a.
Proof. apply String.leb_total. Qed.

Lemma insert_sorted_perm (x : string) (l : list string) :
  Permutation (Py.insert_sorted x l) (x :: l).
Proof.
  induction l as [|y l IH]; simpl; auto.
  destruct (String.leb x y); auto.
  rewrite IH. apply perm_swap.
Qed.

Lemma sorted_perm (l : list string) : Permutation (Py.sorted l) l.
Proof.
  induction l as [|x l IH]; simpl; auto.
  rewrite insert_sorted_perm. now constructor.
Qed.

Lemma insert_sorted_ordered (x : string) (l : list string) :
  StronglySorted str_le l -> StronglySorted str_le (Py.insert_sorted x l).
Proof.
  induction 1 as [|y l S IH F]; simpl.
  - repeat constructor.
  - destruct (String.leb x y) eqn:E.
    + constructor; [constructor; auto|].
      constructor; [exact E|].
      eapply Forall_impl; [|exact F].
      intros z Hz. eapply str_le_trans; eauto.
    + constructor; auto.
      assert (Hyx : str_le y x).
      { destruct (str_le_total x y) as [H|H]; auto.
        unfold str_le in H. congruence. }
      rewrite Forall_forall. intros z Hz.
      apply (Permutation_in _ (insert_sorted_perm x l)) in Hz.
      destruct Hz as [<-|Hz]; auto.
      rewrite Forall_forall in F. auto.
Qed.

Lemma sorted_ordered (l : list string) : StronglySorted str_le (Py.sorted l).
Proof.
  induction l as [|x l IH]; simpl; [constructor|].
  now apply insert_sorted_ordered.
Qed.

Lemma ordered_strict (l : list string) :
  StronglySorted str_le l -> NoDup l -> StronglySorted str_lt l.
Proof.
  induction 1 as [|x l S IH F]; intros N; [constructor|].
  inversion N as [|? ? Hx Hl]; subst.
  constructor; auto.
  rewrite Forall_forall in *. intros y Hy.
  destruct (proj1 (str_le_cases x y) (F y Hy)) as [->|H]; [contradiction|auto].
Qed.

Lemma sorted_is_sorted_listing (o : os) (p : string) :
  sorted_listing o p (Py.sorted (listdir o p)).
Proof.
  split; [apply sorted_perm|]. split; [apply sorted_ordered|].
  intros N. apply ordered_strict; [apply sorted_ordered|].
  eapply Permutation_NoDup; [|exact N].
  symmetry. apply sorted_perm.
Qed.

(** ** The tree builder *)

Lemma map_option_Forall2 {A B : Type} (f : A -> option B) (xs : list A)
      (ys : list B) :
  map_option f xs = Some ys <-> Forall2 (fun x y => f x = Some y) xs ys.
Proof.
  revert ys. induction xs as [|x xs IH]; intros ys; simpl.
  - split; [intros [= <-]; constructor|inversion 1; reflexivity].
  - split.
    + destruct (f x) as [y|] eqn:E; [|discriminate].
      destruct (map_option f xs) as [ys'|]; [|discriminate].
      intros [= <-]. constructor; auto. now apply IH.
    + inversion 1 as [|? y ? ys' Hx Hxs]; subst.
      rewrite Hx. apply IH in Hxs. now rewrite Hxs.
Qed.

(** [is_root] only chooses between two equal names. *)
Lemma build_tree_is_root (o : os) (fuel : nat) (p : string) (r : bool) :
  _build_tree o fuel p r = _build_tree o fuel p false.
Proof. destruct fuel; simpl; [reflexivity|]. now destruct r. Qed.

(** More fuel does not change a finished scan. *)
Lemma build_tree_fuel_mono (o : os) (fuel fuel' : nat) (p : string)
      (r : bool) (t : node) :
  _build_tree o fuel p r = Some t -> fuel <= fuel' ->
  _build_tree o fuel' p r = Some t.
Proof.
  revert fuel' p r t.
  induction fuel as [|fuel IH]; intros fuel' p r t; [discriminate|].
  intros H L. destruct fuel' as [|fuel']; [lia|].
  cbn [_build_tree] in *. cbv zeta in *.
  destruct (isdir o p); auto.
  destruct (map_option _ _) as [cs|] eqn:E; [|discriminate].
  apply map_option_Forall2 in E.
  assert (E' : map_option
                 (fun item => _build_tree o fuel' (join o p item) false)
                 (Py.sorted (listdir o p)) = Some cs).
  { apply map_option_Forall2.
    eapply Forall2_impl; [|exact E].
    intros item c Hc. apply IH; [exact Hc|lia]. }
  now rewrite E'.
Qed.

(** A bound that works for every entry of a listing. *)
Lemma common_fuel (o : os) (paths : list string) :
  (forall q, In q paths ->
     exists fuel, exists t, _build_tree o fuel q false = Some t) ->
  exists fuel, forall q, In q paths ->
     exists t, _build_tree o fuel q false = Some t.
Proof.
  induction paths as [|q paths IH]; intros H.
  - exists 0. intros q [].
  - destruct (H q (or_introl eq_refl)) as (f1 & t1 & H1).
    destruct IH as (f2 & H2); [intros q' Hq'; apply H; now right|].
    exists (Nat.max f1 f2). intros q' [<-|Hq'].
    + exists t1. eapply build_tree_fuel_mono; eauto. lia.
    + destruct (H2 q' Hq') as (t2 & Ht2).
      exists t2. eapply build_tree_fuel_mono; eauto. lia.
Qed.

Lemma map_option_total {A B : Type} (f : A -> option B) (xs : list A) :
  (forall x, In x xs -> exists y, f x = Some y) ->
  exists ys, map_option f xs = Some ys.
Proof.
  induction xs as [|x xs IH]; intros H; simpl; eauto.
  destruct (H x (or_introl eq_refl)) as (y & ->).
  destruct IH as (ys & ->); [intros x' Hx'; apply H; now right|].
  eauto.
Qed.

(** On a finite file system the scan finishes. *)
Lemma build_tree_total (o : os) (p : string) :
  scan_terminates o p ->
  exists fuel, exists t, _build_tree o fuel p false = Some t.
Proof.
  induction 1 as [p F|p D _ IH].
  - exists 1. cbn [_build_tree]. cbv zeta. rewrite F. eauto.
  - destruct (common_fuel o (map (join o p) (Py.sorted (listdir o p))))
      as (fuel & Hfuel).
    { intros q Hq. apply in_map_iff in Hq. destruct Hq as (item & <- & Hi).
      apply IH. eapply Permutation_in; [apply sorted_perm|exact Hi]. }
    exists (S fuel). cbn [_build_tree]. cbv zeta. rewrite D.
    destruct (map_option_total
                (fun item => _build_tree o fuel (join o p item) false)
                (Py.sorted (listdir o p))) as (cs & ->); eauto.
    intros item Hi. apply Hfuel. now apply in_map.
Qed.

(** What a finished scan returns. *)
Lemma build_tree_scanned (o : os) (fuel : nat) (p : string) (r : bool)
      (t : node) :
  _build_tree o fuel p r = Some t ->
  path t = p
  /\ type t = (if isdir o p then directory else file)
  /\ scanned o t.
Proof.
  revert p r t.
  induction fuel as [|fuel IH]; intros p r t; [discriminate|].
  cbn [_build_tree]. cbv zeta.
  destruct (isdir o p) eqn:D.
  - destruct (map_option _ _) as [cs|] eqn:E; [|discriminate].
    intros [= <-]. cbn [path type]. repeat split.
    apply map_option_Forall2 in E.
    apply scanned_dir with (items := Py.sorted (listdir o p)); auto.
    + apply sorted_is_sorted_listing.
    + induction E as [|item c items cs' Hc _ IHE]; simpl; auto.
      f_equal; auto. now destruct (IH _ _ _ Hc) as (-> & _).
    + induction E as [|item c items cs' Hc _ IHE]; constructor; auto.
      now destruct (IH _ _ _ Hc) as (_ & _ & S).
  - intros [= <-]. cbn [path type]. repeat split.
    now apply scanned_file.
Qed.

Lemma finite_within_sound (o : os) (depth : nat) (p : string) :
  finite_within o depth p = true -> scan_terminates o p.
Proof.
  revert p. induction depth as [|depth IH]; intros p; cbn [finite_within].
  - rewrite orb_false_r, negb_true_iff. apply scan_leaf.
  - destruct (isdir o p) eqn:D; cbn [negb orb].
    + intros H. apply scan_dir; auto.
      rewrite forallb_forall in H. auto.
    + intros _. now apply scan_leaf.
Qed.

(** C3.  For an existing directory [D] over a finite file system, the
    scan finishes (with any fuel from some bound on) in a [directory]
    node for [D] with one child per entry: the children follow the sorted
    entry names, a permutation of the listing in ascending code point
    order, strictly ascending when the listing has no repeated name, and
    the same holds at every level below ([scanned]). *)
Theorem build_tree_directory (o : os) (D : string) (is_root : bool) :
  isdir o D = true ->
  scan_terminates o D ->
  exists fuel, forall fuel', fuel <= fuel' ->
    exists nm cs,
      _build_tree o fuel' D is_root = Some (mk_node nm D directory cs)
      /\ List.length cs = List.length (listdir o D)
      /\ (exists items,
            sorted_listing o D items
            /\ map path cs = map (join o D) items)
      /\ scanned o (mk_node nm D directory cs).
Proof.
  intros HD HT.
  destruct (build_tree_total o D HT) as (fuel & t & Ht).
  exists fuel. intros fuel' L.
  rewrite build_tree_is_root.
  pose proof (build_tree_fuel_mono o fuel fuel' D false t Ht L) as Ht'.
  destruct (build_tree_scanned o fuel' D false t Ht') as (P & T & S).
  rewrite HD in T. destruct t as [nm p ty cs]. cbn [path type] in *. subst.
  exists nm, cs. split; [exact Ht'|].
  inversion S as [|? ? ? items _ L' M F]; subst.
  repeat split; auto.
  - apply (f_equal (@List.length string)) in M.
    rewrite !length_map in M. rewrite M.
    apply Permutation_length. apply L'.
  - exists items. auto.
Qed.

Lemma build_tree_directory_witness :
  exists fuel, forall fuel', fuel <= fuel' ->
    exists nm cs,
      _build_tree Scenario.tools fuel' "Tools" true
      = Some (mk_node nm "Tools" directory cs)
      /\ List.length cs = List.length (listdir Scenario.tools "Tools")
      /\ (exists items,
            sorted_listing Scenario.tools "Tools" items
            /\ map path cs = map (join Scenario.tools "Tools") items)
      /\ scanned Scenario.tools (mk_node nm "Tools" directory cs).
Proof.
  apply (build_tree_directory Scenario.tools "Tools" true).
  - reflexivity.
  - apply (finite_within_sound Scenario.tools 2). reflexivity.
Defined.

(** The branch of [_build_tree] for a path that is not a directory. *)
Lemma build_tree_leaf (o : os) (p : string) (is_root : bool) (fuel : nat) :
  isdir o p = false ->
  exists nm,
    _build_tree o (S fuel) p is_root = Some (mk_node nm p file [])
    /\ nm = (if Py.truthy (basename o (Py.rstrip_chars p "\/"))
             then basename o (Py.rstrip_chars p "\/")
             else basename o p).
Proof.
  intros D. cbn [_build_tree]. cbv zeta. rewrite D.
  eexists. split; [reflexivity|].
  destruct is_root, (Py.truthy (basename o (Py.rstrip_chars p "\/")));
    reflexivity.
Qed.

(** C8.  For a path that is not a directory (a missing path included),
    the scan returns at once, without an exception, a [file] leaf for the
    path, with no children. *)
Theorem build_tree_not_directory (o : os) (p : string) (is_root : bool)
        (fuel : nat) :
  isdir o p = false ->
  exists nm,
    _build_tree o (S fuel) p is_root = Some (mk_node nm p file []).
Proof.
  intros D. destruct (build_tree_leaf o p is_root fuel D) as (nm & E & _).
  now exists nm.
Qed.

Lemma build_tree_not_directory_witness :
  exists nm,
    _build_tree Scenario.tools 1 "Tools/missing" false
    = Some (mk_node nm "Tools/missing" file []).
Proof.
  apply (build_tree_not_directory Scenario.tools "Tools/missing" false 0).
  reflexivity.
Defined.

(** ** Logs of menu calls *)

Lemma node_ind' (P : node -> Prop) :
  (forall nm p ty cs, Forall P cs -> P (mk_node nm p ty cs)) ->
  forall nd, P nd.
Proof.
  intros step.
  fix IH 1. intros [nm p ty cs]. apply step.
  induction cs as [|c cs IHcs]; constructor; auto.
Qed.

Lemma direct_app (menu : handle) (l1 l2 : list call) :
  direct menu (l1 ++ l2) = direct menu l1 ++ direct menu l2.
Proof. apply flat_map_app. Qed.

Lemma built_le (menu : handle) (lo hi : nat) (es : list entry)
      (log : list call) :
  built menu lo hi es log -> lo <= hi.
Proof. induction 1; lia. Qed.

Lemma built_app (menu : handle) (lo mid hi : nat) (es1 es2 : list entry)
      (log1 log2 : list call) :
  built menu lo mid es1 log1 ->
  built menu mid hi es2 log2 ->
  built menu lo hi (es1 ++ es2) (log1 ++ log2).
Proof.
  induction 1 as [| menu lo mid id label es log B IH
                  | menu lo m1 mid id title es' inner es rest B1 _ A B2 IH2];
    intros B'; simpl; auto.
  - constructor; auto.
  - rewrite <- app_assoc. econstructor; eauto.
Qed.

(** The entries of a menu read off a [built] log: those of the menu
    itself are the listed ones, a menu outside the handle range has none,
    and every other menu has its actions before its submenus. *)
Lemma built_direct (menu : handle) (lo hi : nat) (es : list entry)
      (log : list call) :
  built menu lo hi es log ->
  menu < lo ->
  direct menu log = es
  /\ (forall m, m <> menu -> m < lo \/ hi <= m -> direct m log = [])
  /\ (forall m, m <> menu -> actions_then_submenus (direct m log)).
Proof.
  induction 1 as [ menu lo
                 | menu lo hi id label es log B IH
                 | menu lo mid hi id title es' inner es rest
                        B1 IH1 A B2 IH2 ];
    intros L.
  - repeat split; auto. intros m _. now exists [], [].
  - destruct (IH L) as (D & O & S).
    unfold direct in *. cbn [flat_map entry_of].
    rewrite Nat.eqb_refl. repeat split.
    + cbn [app]. now rewrite D.
    + intros m Hm R. apply Nat.eqb_neq in Hm.
      rewrite Nat.eqb_sym, Hm. cbn [app]. apply O; auto.
      now apply Nat.eqb_neq in Hm.
    + intros m Hm. pose proof Hm as Hm'. apply Nat.eqb_neq in Hm'.
      rewrite Nat.eqb_sym, Hm'. cbn [app]. auto.
  - pose proof (built_le _ _ _ _ _ B1) as L1.
    pose proof (built_le _ _ _ _ _ B2) as L2.
    destruct IH1 as (D1 & O1 & S1); [lia|].
    destruct IH2 as (D2 & O2 & S2); [lia|].
    assert (E : forall m, direct m (createSubMenu menu id title lo
                                      :: inner ++ rest)
                          = entry_of m (createSubMenu menu id title lo)
                            ++ direct m inner ++ direct m rest).
    { intros m. unfold direct. cbn [flat_map]. now rewrite flat_map_app. }
    repeat split.
    + rewrite E. cbn [entry_of]. rewrite Nat.eqb_refl.
      rewrite (O1 menu) by lia. rewrite D2. reflexivity.
    + intros m Hm R. rewrite E. cbn [entry_of].
      pose proof Hm as Hm'. apply Nat.eqb_neq in Hm'.
      rewrite Nat.eqb_sym, Hm'.
      rewrite (O1 m) by lia. rewrite (O2 m) by (auto; lia). reflexivity.
    + intros m Hm. rewrite E. cbn [entry_of].
      pose proof Hm as Hm'. apply Nat.eqb_neq in Hm'.
      rewrite Nat.eqb_sym, Hm'. cbn [app].
      destruct (Nat.eq_dec m lo) as [->|Hlo].
      * rewrite D1, (O2 lo) by (auto; lia). now rewrite app_nil_r.
      * destruct (le_lt_dec mid m) as [Hmid|Hmid].
        -- rewrite (O1 m) by (auto; lia). cbn [app]. auto.
        -- destruct (le_lt_dec (S lo) m) as [Hin|Hout].
           ++ rewrite (O2 m) by (auto; lia). rewrite app_nil_r. auto.
           ++ rewrite (O1 m) by (auto; lia). cbn [app]. auto.
Qed.

Lemma submenu_not_before_action (labels titles : list string)
      (x y z : list entry) (t l : string) :
  map Act labels ++ map Sub titles = x ++ Sub t :: y ++ Act l :: z -> False.
Proof.
  revert x. induction labels as [|a labels IH]; intros x E.
  - cbn [map app] in E.
    assert (I : In (Act l) (map Sub titles)).
    { rewrite E. apply in_or_app. right. right.
      apply in_or_app. right. now left. }
    apply in_map_iff in I. destruct I as (? & ? & _). discriminate.
  - destruct x as [|e x]; cbn [map app] in E.
    + discriminate.
    + injection E as _ E. eauto.
Qed.

(** Menus that keep their actions ahead of their submenus, entry-wise,
    do so index-wise. *)
Lemma direct_order (log : list call) :
  (forall menu, actions_then_submenus (direct menu log)) ->
  actions_precede_submenus log.
Proof.
  intros H menu i j a s Ha Ia Hs Is.
  destruct (lt_dec i j) as [|N]; [assumption|exfalso].
  assert (Hne : i <> j).
  { intros ->. rewrite Ha in Hs. injection Hs as ->.
    destruct s; discriminate. }
  assert (Hji : j < i) by lia.
  destruct (nth_error_split log j Hs) as (l1 & l2 & -> & Hlen).
  rewrite nth_error_app2 in Ha by lia.
  replace (i - List.length l1) with (S (i - j - 1)) in Ha by lia.
  cbn [nth_error] in Ha.
  destruct (nth_error_split l2 _ Ha) as (l3 & l4 & -> & _).
  destruct (H menu) as (labels & titles & E).
  rewrite direct_app in E. unfold direct in E at 2.
  cbn [flat_map] in E. rewrite flat_map_app in E. cbn [flat_map] in E.
  destruct s; try discriminate. destruct a; try discriminate.
  cbn [is_action_on is_submenu_of] in *.
  cbn [entry_of] in E. rewrite Ia, Is in E. cbn [app] in E.
  symmetry in E. eapply submenu_not_before_action; eauto.
Qed.

(** ** Runs of the synthesizer *)

Lemma run_of_nil {A : Type} (r : outcome unit) :
  run_of r (@nil A) (@nil A).
Proof. split; [now exists []|auto]. Qed.

Lemma run_of_raised {A : Type} (e : exn) (expected : list A) :
  run_of (Raised e) [] expected.
Proof. split; [now exists expected|discriminate]. Qed.

Lemma run_of_cons {A : Type} (r : outcome unit) (x : A)
      (done expected : list A) :
  run_of r done expected -> run_of r (x :: done) (x :: expected).
Proof.
  intros [[rest ->] E]. split; [now exists rest|].
  intros Hr. f_equal. auto.
Qed.

Lemma run_of_map {A B : Type} (f : A -> B) (r : outcome unit)
      (done expected : list A) :
  run_of r done expected -> run_of r (map f done) (map f expected).
Proof.
  intros [[rest ->] E]. split.
  - exists (map f rest). apply map_app.
  - intros Hr. f_equal. auto.
Qed.

Section Synthesis.

Variable uuid4 : nat -> string.
Variable o : os.
Variable root : string.

Let recurse := _create_menu_from_tree uuid4 o root.

Lemma for_each_cons {A : Type} (body : A -> M unit) (x : A) (xs : list A)
      (h : host) :
  for_each body (x :: xs) h
  = match body x h with
    | (Returned _, h') => for_each body xs h'
    | (Raised e, h') => (Raised e, h')
    end.
Proof. reflexivity. Qed.

(** One turn of the first loop. *)
Lemma create_action_for_run (menu : handle) (child : node) (h : host) :
  create_action_for uuid4 o menu child h
  = if is_mcr_file child then
      match read_macro_file o (path child) with
      | Raised e => (Raised e, h)
      | Returned (n, c) =>
          if Py.truthy n && Py.truthy c then
            (Returned tt,
             {| allocated := allocated h; drawn := S (drawn h);
                calls := calls h
                         ++ [createAction menu (uuid4 (drawn h)) action_tag
                                          (action_label n c)] |})
          else (Returned tt, h)
      end
    else (Returned tt, h).
Proof.
  unfold create_action_for.
  destruct (is_mcr_file child); [|reflexivity].
  unfold bind, lift.
  destruct (read_macro_file o (path child)) as [[n c]|e]; [|reflexivity].
  destruct (Py.truthy n && Py.truthy c); reflexivity.
Qed.

(** The first loop: actions on the current menu only, no new handle, one
    action per label of [action_labels] as far as the loop got. *)
Lemma first_loop_built (menu : handle) (cs : list node) (h : host)
      (r : outcome unit) (h' : host) :
  for_each (create_action_for uuid4 o menu) cs h = (r, h') ->
  exists labels log,
    calls h' = calls h ++ log
    /\ allocated h' = allocated h
    /\ built menu (allocated h) (allocated h) (map Act labels) log
    /\ run_of r labels (action_labels o cs).
Proof.
  revert h. induction cs as [|c cs IH]; intros h.
  - intros [= <- <-]. exists [], []. rewrite app_nil_r.
    repeat split; try constructor. now exists [].
  - rewrite for_each_cons, create_action_for_run.
    unfold action_labels. cbn [flat_map]. unfold label_of at 1.
    destruct (is_mcr_file c).
    + destruct (read_macro_file o (path c)) as [[n cat]|e].
      * destruct (Py.truthy n && Py.truthy cat).
        -- intros R. apply IH in R.
           destruct R as (labels & log & C & A & B & E).
           cbn [calls allocated] in *.
           exists (action_label n cat :: labels),
                  (createAction menu (uuid4 (drawn h)) action_tag
                                (action_label n cat) :: log).
           rewrite C, <- app_assoc. repeat split; auto.
           ++ cbn [map]. constructor. exact B.
           ++ destruct E as [[rest E] _]. exists rest.
              cbn [app]. f_equal. exact E.
           ++ intros Hr. cbn [app]. f_equal. now apply E.
        -- intros R. apply IH in R. exact R.
      * intros [= <- <-]. exists [], []. rewrite app_nil_r.
        repeat split; try constructor.
        -- eexists; reflexivity.
        -- discriminate.
    + intros R. apply IH in R. exact R.
Qed.

(** The second loop: one block per directory child. *)
Lemma second_loop_built (menu : handle) (cs : list node) :
  Forall (adds_submenu uuid4 o root) cs ->
  existsb (aliases_root o root) cs = false ->
  forall (h : host) (r : outcome unit) (h' : host),
    menu < allocated h ->
    for_each (fun child =>
                if node_type_eqb (type child) directory
                then recurse menu child else ret tt) cs h = (r, h') ->
    exists titles log,
      calls h' = calls h ++ log
      /\ built menu (allocated h) (allocated h') (map Sub titles) log
      /\ run_of r titles (submenu_titles cs).
Proof.
  induction 1 as [|c cs Pc _ IH]; intros Al h r h' L.
  - intros [= <- <-]. exists [], []. rewrite app_nil_r.
    repeat split; try constructor. now exists [].
  - cbn [existsb] in Al. apply orb_false_iff in Al. destruct Al as [Ac Acs].
    rewrite for_each_cons. unfold submenu_titles. cbn [filter].
    destruct (node_type_eqb (type c) directory) eqn:T.
    + assert (Tc : type c = directory) by (destruct (type c); easy).
      destruct (recurse menu c h) as [r1 h1] eqn:R1.
      destruct (Pc menu h r1 h1 Tc Ac L R1)
        as (id & es & inner & C1 & B1 & A1 & E1).
      pose proof (built_le _ _ _ _ _ B1) as L1.
      destruct r1 as [[]|e].
      * intros R. apply IH in R; [|assumption|lia].
        destruct R as (titles & log & C & B & E).
        exists (name c :: titles),
               (createSubMenu menu id (name c) (allocated h)
                  :: inner ++ log).
        rewrite C, C1, <- app_assoc. repeat split.
        -- cbn [map]. econstructor; eauto.
        -- destruct E as [[rest E] _]. exists rest.
           cbn [map app]. f_equal. exact E.
        -- intros Hr. cbn [map]. f_equal. now apply E.
      * intros [= <- <-].
        exists [name c],
               (createSubMenu menu id (name c) (allocated h) :: inner ++ []).
        rewrite app_nil_r. repeat split; auto.
        -- cbn [map]. rewrite <- (app_nil_r inner).
           econstructor; eauto. constructor.
        -- eexists. cbn [map app]. reflexivity.
        -- discriminate.
    + unfold ret at 1. intros R. apply IH in R; auto.
Qed.

(** The two loops on a menu that exists already. *)
Lemma loops_built (menu : handle) (cs : list node) :
  Forall (adds_submenu uuid4 o root) cs ->
  existsb (aliases_root o root) cs = false ->
  forall (h : host) (r : outcome unit) (h' : host),
    menu < allocated h ->
    loops uuid4 o recurse cs menu h = (r, h') ->
    exists es log,
      calls h' = calls h ++ log
      /\ built menu (allocated h) (allocated h') es log
      /\ actions_then_submenus es
      /\ run_of r es (expected_entries o cs).
Proof.
  intros P Al h r h' L. unfold loops, bind.
  destruct (for_each (create_action_for uuid4 o menu) cs h)
    as [r1 h1] eqn:R1.
  destruct (first_loop_built _ _ _ _ _ R1)
    as (labels & log1 & C1 & A1 & B1 & E1).
  unfold expected_entries.
  destruct r1 as [[]|e].
  - intros R2.
    destruct (second_loop_built menu cs P Al h1 r h')
      as (titles & log2 & C2 & B2 & E2); [lia|exact R2|].
    exists (map Act labels ++ map Sub titles), (log1 ++ log2).
    rewrite C2, C1, <- app_assoc. repeat split.
    + eapply built_app; eauto. now rewrite A1 in B2.
    + now exists labels, titles.
    + destruct E1 as [_ E1]. rewrite (E1 eq_refl).
      destruct E2 as [[rest ->] _]. exists (map Sub rest).
      now rewrite map_app, app_assoc.
    + intros Hr. destruct E1 as [_ E1], E2 as [_ E2].
      now rewrite E1, E2.
  - intros [= <- <-]. exists (map Act labels), log1.
    rewrite A1. repeat split; auto.
    + exists labels, []. now rewrite app_nil_r.
    + destruct E1 as [[rest ->] _].
      exists (map Act rest ++ map Sub (submenu_titles cs)).
      now rewrite map_app, app_assoc.
    + discriminate.
Qed.

Lemma every_directory_adds_submenu (nd : node) :
  adds_submenu uuid4 o root nd.
Proof.
  induction nd as [nm p ty cs IH] using node_ind'.
  intros parent h r h' T Al L. cbn [type] in T. subst ty.
  cbn [aliases_root] in Al. apply orb_false_iff in Al.
  destruct Al as [Ne Al].
  cbn [_create_menu_from_tree]. rewrite Ne.
  unfold bind at 1, str_uuid4 at 1.
  unfold bind at 1, do_createSubMenu, new_handle, log, ret, bind at 1 2.
  cbn [allocated drawn calls].
  intros R.
  match type of R with
  | loops _ _ _ _ _ ?h1 = _ =>
      destruct (loops_built (allocated h) cs IH Al h1 r h')
        as (es & lg & C & B & A & E)
  end.
  - cbn [allocated]. lia.
  - exact R.
  - cbn [calls allocated] in *.
    exists (uuid4 (drawn h)), es, lg. cbn [name children].
    rewrite C, <- app_assoc. repeat split; auto; apply E.
Qed.

(** The population of an existing menu from a list of children. *)
Lemma populate_built (menu : handle) (cs : list node) (h : host)
      (r : outcome unit) (h' : host) :
  existsb (aliases_root o root) cs = false ->
  menu < allocated h ->
  loops uuid4 o recurse cs menu h = (r, h') ->
  exists es log,
    calls h' = calls h ++ log
    /\ built menu (allocated h) (allocated h') es log
    /\ actions_then_submenus es
    /\ run_of r es (expected_entries o cs).
Proof.
  intros Al L R. eapply loops_built; eauto.
  rewrite Forall_forall. intros c _. apply every_directory_adds_submenu.
Qed.

End Synthesis.

(** Any call of the method on an existing parent menu, whatever the node
    and the outcome: the log it adds is a [built] one. *)
Lemma synthesis_built (uuid4 : nat -> string) (o : os) (root : string)
      (parent : handle) (nd : node) (h : host) (r : outcome unit)
      (h' : host) :
  existsb (aliases_root o root) (children nd) = false ->
  parent < allocated h ->
  _create_menu_from_tree uuid4 o root parent nd h = (r, h') ->
  exists es log,
    calls h' = calls h ++ log
    /\ built parent (allocated h) (allocated h') es log
    /\ actions_then_submenus es.
Proof.
  intros Al L R.
  destruct nd as [nm p ty cs]. cbn [children] in Al.
  destruct (String.eqb (normpath o p) (normpath o root)) eqn:Q.
  - cbn [_create_menu_from_tree] in R. rewrite Q in R.
    destruct (populate_built uuid4 o root parent cs h r h' Al L R)
      as (es & log & C & B & A & _).
    now exists es, log.
  - destruct ty.
    + destruct (every_directory_adds_submenu uuid4 o root
                  (mk_node nm p directory cs) parent h r h')
        as (id & es & inner & C & B & A & _); auto.
      { cbn [aliases_root]. now rewrite Q, Al. }
      exists [Sub nm],
             (createSubMenu parent id nm (allocated h) :: inner ++ []).
      rewrite app_nil_r. repeat split; auto.
      * rewrite <- (app_nil_r inner). econstructor; eauto. constructor.
      * now exists [], [nm].
    + cbn [_create_menu_from_tree] in R. rewrite Q in R.
      injection R as <- <-. exists [], []. rewrite app_nil_r.
      repeat split; try constructor. now exists [], [].
Qed.

(** ** The synthesizer: the claims *)

(** C1.  In the log that one call of [_create_menu_from_tree] adds, on
    every menu each action is created before each submenu, whatever the
    order of files and directories among the children and whether or not
    the call returns.  The tree is one in which no directory below the
    top is taken for the configured root, and the parent menu is an
    existing host object. *)
Theorem actions_created_before_submenus
        (uuid4 : nat -> string) (o : os) (self_root : string)
        (parent : handle) (nd : node) (h : host) :
  existsb (aliases_root o self_root) (children nd) = false ->
  parent < allocated h ->
  exists log,
    calls (snd (_create_menu_from_tree uuid4 o self_root parent nd h))
    = calls h ++ log
    /\ actions_precede_submenus log.
Proof.
  intros Al L.
  destruct (_create_menu_from_tree uuid4 o self_root parent nd h)
    as [r h'] eqn:R.
  destruct (synthesis_built _ _ _ _ _ _ _ _ Al L R) as (es & log & C & B & A).
  exists log. split; [exact C|].
  apply direct_order. intros menu.
  destruct (built_direct _ _ _ _ _ B L) as (D & _ & S).
  destruct (Nat.eq_dec menu parent) as [->|Hm].
  - now rewrite D.
  - now apply S.
Qed.

Lemma actions_created_before_submenus_witness :
  exists log,
    calls (snd (_create_menu_from_tree Scenario.uuid4 Scenario.tools "Tools"
                                       0 scenario_tree (fresh_host 1)))
    = calls (fresh_host 1) ++ log
    /\ actions_precede_submenus log.
Proof.
  apply (actions_created_before_submenus
           Scenario.uuid4 Scenario.tools "Tools" 0 scenario_tree
           (fresh_host 1)).
  - reflexivity.
  - simpl. lia.
Defined.





(** C10.  When the configured root is not a directory at construction
    time, the cached tree is a single [file] node for the root path, and
    synthesizing from it on any menu returns without an exception and
    leaves the host as it was: no submenu, no action. *)
Theorem missing_root_builds_empty_menu
        (uuid4 : nat -> string) (o : os) (self_root : string) (fuel : nat)
        (main quad keys position : string) (print_flag : bool)
        (parent : handle) (h : host) :
  isdir o self_root = false ->
  exists self nm,
    __init__ o (S fuel) self_root main quad keys position print_flag
    = Some self
    /\ root_directory_path self = self_root
    /\ directory_tree self = mk_node nm self_root file []
    /\ _create_menu_from_tree uuid4 o (root_directory_path self) parent
                              (directory_tree self) h
       = (Returned tt, h).
Proof.
  intros D. unfold __init__.
  destruct (build_tree_leaf o self_root true fuel D) as (nm & -> & _).
  eexists. exists nm. repeat split.
  cbn [root_directory_path directory_tree _create_menu_from_tree].
  now rewrite String.eqb_refl.
Qed.

Lemma missing_root_builds_empty_menu_witness :
  exists self nm,
    __init__ Scenario.tools 1 "Gone" "Tools Menu" "Tools Quad Menu"
             "CTRL+SHIFT" "TOP_RIGHT" false
    = Some self
    /\ root_directory_path self = "Gone"%string
    /\ directory_tree self = mk_node nm "Gone" file []
    /\ _create_menu_from_tree Scenario.uuid4 Scenario.tools
                              (root_directory_path self) 0
                              (directory_tree self) (fresh_host 1)
       = (Returned tt, fresh_host 1).
Proof.
  apply (missing_root_builds_empty_menu
           Scenario.uuid4 Scenario.tools "Gone" 0
           "Tools Menu" "Tools Quad Menu" "CTRL+SHIFT" "TOP_RIGHT" false
           0 (fresh_host 1)).
  reflexivity.
Defined.

(** ** The quad menu *)

Lemma built_menu_calls (menu : handle) (lo hi : nat) (es : list entry)
      (log : list call) :
  built menu lo hi es log -> Forall (fun c => is_menu_call c = true) log.
Proof.
  induction 1; repeat constructor; auto.
  apply Forall_app. auto.
Qed.

(** Whatever the tree, the synthesizer only creates actions and
    submenus. *)
Lemma synthesis_menu_calls (uuid4 : nat -> string) (o : os) (root : string)
      (nd : node) :
  forall (parent : handle) (h : host),
  exists log,
    calls (snd (_create_menu_from_tree uuid4 o root parent nd h))
    = calls h ++ log
    /\ Forall (fun c => is_menu_call c = true) log.
Proof.
  induction nd as [nm p ty cs IH] using node_ind'.
  assert (Loops : forall menu h,
             exists log,
               calls (snd (loops uuid4 o (_create_menu_from_tree uuid4 o root)
                                 cs menu h)) = calls h ++ log
               /\ Forall (fun c => is_menu_call c = true) log).
  { intros menu h. unfold loops, bind.
    destruct (for_each (create_action_for uuid4 o menu) cs h)
      as [r1 h1] eqn:R1.
    destruct (first_loop_built _ _ _ _ _ _ _ R1)
      as (labels & log1 & C1 & _ & B1 & _).
    apply built_menu_calls in B1.
    destruct r1 as [[]|e]; [|exists log1; auto].
    clear R1 labels. revert h1 log1 C1 B1.
    induction IH as [|c cs' Pc _ IHcs]; intros h1 log1 C1 B1.
    - exists log1. auto.
    - rewrite for_each_cons.
      destruct (node_type_eqb (type c) directory).
      + destruct (Pc menu h1) as (lg & C & F).
        destruct (_create_menu_from_tree uuid4 o root menu c h1)
          as [r2 h2]. cbn [snd] in C.
        assert (C2 : calls h2 = calls h ++ log1 ++ lg)
          by (rewrite C, C1, <- app_assoc; reflexivity).
        assert (F2 : Forall (fun c => is_menu_call c = true) (log1 ++ lg))
          by (apply Forall_app; auto).
        destruct r2 as [[]|e].
        * apply (IHcs h2 (log1 ++ lg)); auto.
        * exists (log1 ++ lg). auto.
      + unfold ret at 1. apply (IHcs h1 log1); auto. }
  intros parent h. cbn [_create_menu_from_tree].
  destruct (String.eqb (normpath o p) (normpath o root)); [apply Loops|].
  destruct ty.
  - unfold bind at 1, str_uuid4 at 1.
    unfold bind at 1, do_createSubMenu, new_handle, log, ret, bind at 1 2.
    cbn [allocated drawn calls].
    match goal with
    | |- context [loops _ _ _ _ ?m ?h1] =>
        destruct (Loops m h1) as (lg & C & F)
    end.
    cbn [calls] in C.
    eexists. rewrite C, <- app_assoc. split; [reflexivity|].
    constructor; auto.
  - exists []. cbn. rewrite app_nil_r. auto.
Qed.

Lemma dict_item_mem (d : dict) (k : string) :
  dict_mem d k = true -> exists v, dict_item d k = Returned v.
Proof.
  induction d as [|[k' v] d IH]; cbn [dict_mem dict_item]; [discriminate|].
  destruct (String.eqb k k'); eauto.
Qed.

(** With a modifier-key string outside the map, [define_quad_menu] prints
    its warning and goes on to build the quad menu, and no call of
    [SetRightClickModifiers] is ever made for it. *)
Lemma unknown_modifier_no_gating (uuid4 : nat -> string) (o : os)
      (self : MenuGenerator) (h : host) :
  dict_mem modifier_keys_map (quad_menu_modifier_keys self) = false ->
  exists log,
    calls (snd (define_quad_menu uuid4 o self h)) = calls h ++ log
    /\ In (print ("Warning: Invalid modifier key combination '"
                  ++ quad_menu_modifier_keys self ++ "'. Using default."))
          log
    /\ In (CreateQuadMenu (S (allocated h)) (uuid4 (drawn h))
                          (quad_menu_name self) (S (S (allocated h))))
          log
    /\ Forall (fun c => is_gating_call c = false) log.
Proof.
  intros K. unfold define_quad_menu. rewrite K.
  unfold do_notificationParam, do_GetContextById, do_CreateQuadMenu,
    do_CreateMenu, do_print, str_uuid4, new_handle, log, lift, ret.
  assert (Tail : forall m h1 pre,
             calls h1 = calls h ++ pre ->
             In (print ("Warning: Invalid modifier key combination '"
                        ++ quad_menu_modifier_keys self
                        ++ "'. Using default.")) pre ->
             In (CreateQuadMenu (S (allocated h)) (uuid4 (drawn h))
                                (quad_menu_name self)
                                (S (S (allocated h)))) pre ->
             Forall (fun c => is_gating_call c = false) pre ->
             exists log,
               calls (snd (_create_menu_from_tree uuid4 o
                             (root_directory_path self) m
                             (directory_tree self) h1))
               = calls h ++ log
               /\ In (print ("Warning: Invalid modifier key combination '"
                             ++ quad_menu_modifier_keys self
                             ++ "'. Using default.")) log
               /\ In (CreateQuadMenu (S (allocated h)) (uuid4 (drawn h))
                                     (quad_menu_name self)
                                     (S (S (allocated h)))) log
               /\ Forall (fun c => is_gating_call c = false) log).
  { intros m h1 pre C I1 I2 F.
    destruct (synthesis_menu_calls uuid4 o (root_directory_path self)
                (directory_tree self) m h1) as (lg & C' & F').
    exists (pre ++ lg). rewrite C', C, <- app_assoc.
    repeat split; auto using in_or_app.
    apply Forall_app. split; auto.
    eapply Forall_impl; [|exact F'].
    intros c Hc. destruct c; auto; discriminate. }
  destruct (dict_mem quad_menu_positions (quad_menu_position self)) eqn:P.
  - destruct (dict_item_mem _ _ P) as (position & ->).
    cbn [bind allocated drawn calls].
    eapply Tail; cbn [calls].
    + rewrite <- !app_assoc. reflexivity.
    + cbn. tauto.
    + cbn. tauto.
    + repeat constructor.
  - cbn [bind allocated drawn calls dict_item quad_menu_positions].
    cbn [String.eqb Ascii.eqb Bool.eqb].
    eapply Tail; cbn [calls].
    + rewrite <- !app_assoc. reflexivity.
    + cbn. tauto.
    + cbn. tauto.
    + repeat constructor.
Qed.

(** C9.  The generator of the scenario with the modifier-key string
    [FOO]: [define_quad_menu] returns, the warning is printed and the
    quad menu is created, yet [SetRightClickModifiers] is not called:
    no gating, the documented default or any other, is applied. *)
Theorem unknown_modifier_leaves_quad_menu_ungated :
  dict_mem modifier_keys_map (quad_menu_modifier_keys foo_generator) = false
  /\ fst (define_quad_menu Scenario.uuid4 Scenario.tools foo_generator
                           (fresh_host 0)) = Returned tt
  /\ calls (snd (define_quad_menu Scenario.uuid4 Scenario.tools
                                  foo_generator (fresh_host 0)))
     = [ notificationParam 0;
         GetContextById 0 viewport_context_id 1;
         CreateQuadMenu 1 "0" "Tools Quad Menu" 2;
         print "Warning: Invalid modifier key combination 'FOO'. Using default.";
         CreateMenu 2 "1" "TopRight" "TopRight" 3;
         createAction 3 "2" action_tag "PaintTool`Paint";
         createSubMenu 3 "3" "Sub" 4;
         createAction 4 "4" action_tag "EraseTool`Paint" ]
  /\ existsb is_gating_call
       (calls (snd (define_quad_menu Scenario.uuid4 Scenario.tools
                                     foo_generator (fresh_host 0))))
     = false.
Proof. repeat split; vm_compute; reflexivity. Qed.

(** With the default string [CTRL+SHIFT] the gating call is made. *)
Lemma default_modifier_is_gated :
  In (SetRightClickModifiers 1 2 "shiftAndControlPressed")
     (calls (snd (define_quad_menu Scenario.uuid4 Scenario.tools
                    {| root_directory_path := "Tools";
                       main_menu_name := "Tools Menu";
                       quad_menu_name := "Tools Quad Menu";
                       quad_menu_modifier_keys := "CTRL+SHIFT";
                       quad_menu_position := "TOP_RIGHT";
                       print_tree := false;
                       directory_tree := scenario_tree |}
                    (fresh_host 0)))).
Proof. vm_compute. tauto. Qed.

(** ** Trees made by [_build_tree] *)

(** The tree of the scenario is the one the builder returns. *)
Lemma scenario_tree_built :
  _build_tree Scenario.tools 3 "Tools" true = Some scenario_tree.
Proof. reflexivity. Qed.

(** The scenario of the specification, end to end: one action for
    [a.mcr] on the caller's menu, then the submenu [Sub] with one action
    for [b.mcr]; [notes.txt] gets nothing. *)
Lemma scenario_menu :
  _create_menu_from_tree Scenario.uuid4 Scenario.tools "Tools" 0
                         scenario_tree (fresh_host 1)
  = (Returned tt,
     {| allocated := 2; drawn := 3;
        calls := [ createAction 0 "0" action_tag "PaintTool`Paint";
                   createSubMenu 0 "1" "Sub" 1;
                   createAction 1 "2" action_tag "EraseTool`Paint" ] |}).
Proof. reflexivity. Qed.

Lemma aliases_root_child (o : os) (root : string) (c : node) :
  String.eqb (normpath o (path c)) (normpath o root) = false ->
  existsb (aliases_root o root) (children c) = false ->
  aliases_root o root c = false.
Proof.
  destruct c as [nm p ty cs]. cbn [path children aliases_root].
  intros -> ->. now destruct ty.
Qed.

(** In a tree built from a visited path, no directory below the top is
    taken for the root, as soon as the root is unique among the visited
    entries. *)
Lemma build_tree_no_alias (o : os) (root : string) (fuel : nat)
      (p : string) (r : bool) (t : node) :
  root_is_unique o root ->
  visited o root p ->
  _build_tree o fuel p r = Some t ->
  existsb (aliases_root o root) (children t) = false.
Proof.
  intros U. revert p r t.
  induction fuel as [|fuel IH]; intros p r t V; [discriminate|].
  cbn [_build_tree]. cbv zeta.
  destruct (isdir o p) eqn:D; [|intros [= <-]; reflexivity].
  destruct (map_option _ _) as [cs|] eqn:E; [|discriminate].
  intros [= <-]. cbn [children].
  apply map_option_Forall2 in E.
  assert (I : forall item, In item (Py.sorted (listdir o p)) ->
                           In item (listdir o p)).
  { intros item. apply Permutation_in, sorted_perm. }
  induction E as [|item c items cs' Hc _ IHE]; [reflexivity|].
  cbn [existsb]. rewrite IHE by (intros; apply I; now right).
  rewrite orb_false_r.
  assert (Hi : In item (listdir o p)) by (apply I; now left).
  destruct (build_tree_scanned o fuel _ _ _ Hc) as (P & _ & _).
  apply aliases_root_child.
  - rewrite P. now apply U.
  - eapply IH; [|exact Hc]. now apply visited_entry.
Qed.

(** The tree a generator caches satisfies the hypothesis on trees of the
    claims on the synthesizer. *)
Lemma generator_tree_no_alias (o : os) (fuel : nat)
      (root main quad keys position : string) (flag : bool)
      (self : MenuGenerator) :
  root_is_unique o root ->
  __init__ o fuel root main quad keys position flag = Some self ->
  root_directory_path self = root
  /\ path (directory_tree self) = root
  /\ existsb (aliases_root o root) (children (directory_tree self)) = false.
Proof.
  intros U. unfold __init__.
  destruct (_build_tree o fuel root true) as [t|] eqn:B; [|discriminate].
  intros [= <-]. cbn [root_directory_path directory_tree].
  destruct (build_tree_scanned o fuel root true t B) as (P & _ & _).
  repeat split; auto.
  eapply build_tree_no_alias; eauto. constructor.
Qed.

(** ** The descriptor extension *)

Ltac by_char a :=
  destruct a as [[] [] [] [] [] [] [] []]; vm_compute;
  split; intros; repeat match goal with
                   | H : _ \/ _ |- _ => destruct H
                   end; try discriminate; auto.

Lemma lower_char_dot (a : ascii) :
  Py.lower_char a = "."%char <-> a = "."%char.
Proof. by_char a. Qed.

Lemma lower_char_m (a : ascii) :
  Py.lower_char a = "m"%char <-> a = "m"%char \/ a = "M"%char.
Proof. by_char a. Qed.

Lemma lower_char_c (a : ascii) :
  Py.lower_char a = "c"%char <-> a = "c"%char \/ a = "C"%char.
Proof. by_char a. Qed.

Lemma lower_char_r (a : ascii) :
  Py.lower_char a = "r"%char <-> a = "r"%char \/ a = "R"%char.
Proof. by_char a. Qed.

Lemma lower_app (s t : string) :
  Py.lower (s ++ t) = (Py.lower s ++ Py.lower t)%string.
Proof. induction s as [|c s IH]; simpl; [auto|now rewrite IH]. Qed.

Lemma lower_split (s x y : string) :
  Py.lower s = (x ++ y)%string ->
  exists s1 s2, s = (s1 ++ s2)%string /\ Py.lower s1 = x /\ Py.lower s2 = y.
Proof.
  revert s. induction x as [|c x IH]; intros s E.
  - exists EmptyString, s. auto.
  - destruct s as [|d s]; [discriminate|].
    cbn [Py.lower append] in E. injection E as Hc E.
    destruct (IH s E) as (s1 & s2 & -> & L1 & L2).
    exists (String d s1), s2. cbn [Py.lower append]. now rewrite Hc, L1.
Qed.

Lemma string_length_app (s t : string) :
  String.length (s ++ t) = String.length s + String.length t.
Proof. induction s as [|c s IH]; simpl; auto. Qed.

Lemma substring_all (s : string) : substring 0 (String.length s) s = s.
Proof. induction s as [|c s IH]; simpl; [auto|now rewrite IH]. Qed.

Lemma substring_suffix (pre suf : string) :
  substring (String.length pre) (String.length suf) (pre ++ suf) = suf.
Proof.
  induction pre as [|c pre IH]; cbn [String.length append].
  - apply substring_all.
  - cbn [substring]. exact IH.
Qed.

Lemma substring_split (s : string) (k : nat) :
  k <= String.length s ->
  s = (substring 0 k s ++ substring k (String.length s - k) s)%string.
Proof.
  revert k. induction s as [|c s IH]; intros [|k] L; cbn in *; try lia; auto.
  - now rewrite substring_all.
  - rewrite <- IH by lia. reflexivity.
Qed.

(** [s.endswith(suffix)] holds exactly when [s] is some text followed by
    [suffix]. *)
Lemma endswith_spec (s suffix : string) :
  Py.endswith s suffix = true <-> exists pre, s = (pre ++ suffix)%string.
Proof.
  unfold Py.endswith. split.
  - intros H. apply andb_true_iff in H. destruct H as [L E].
    apply Nat.leb_le in L. apply String.eqb_eq in E.
    exists (substring 0 (String.length s - String.length suffix) s).
    pose proof (substring_split s (String.length s - String.length suffix))
      as S.
    replace (String.length s - (String.length s - String.length suffix))
      with (String.length suffix) in S by lia.
    rewrite E in S. apply S. lia.
  - intros [pre ->]. rewrite string_length_app.
    replace (String.length pre + String.length suffix
             - String.length suffix) with (String.length pre) by lia.
    rewrite substring_suffix, String.eqb_refl, andb_true_r.
    apply Nat.leb_le. lia.
Qed.

(** X26.  The test of line 107 holds exactly of the [file] nodes whose
    path ends in a dot followed by [m], [c], [r], each letter in either
    case: the extension is matched without regard to case, and nothing
    else is. *)
Lemma is_mcr_file_spec (child : node) :
  is_mcr_file child = true <->
  type child = file /\ mcr_extension (path child).
Proof.
  unfold is_mcr_file, mcr_extension.
  rewrite andb_true_iff, endswith_spec. split.
  - intros [T [pre E]]. split; [destruct (type child); easy|].
    destruct (lower_split _ _ _ E) as (s1 & s2 & -> & _ & L).
    destruct s2 as [|d [|m [|c [|r [|]]]]]; try discriminate.
    cbn [Py.lower] in L. injection L as Hd Hm Hc Hr.
    apply (proj1 (lower_char_dot d)) in Hd. subst d.
    exists s1, m, c, r. repeat split; auto.
    + now apply (proj1 (lower_char_m m)).
    + now apply (proj1 (lower_char_c c)).
    + now apply (proj1 (lower_char_r r)).
  - intros [T (stem & m & c & r & -> & Hm & Hc & Hr)].
    split; [now rewrite T|].
    exists (Py.lower stem). rewrite lower_app. f_equal.
    cbn [Py.lower].
    apply (proj2 (lower_char_m m)) in Hm.
    apply (proj2 (lower_char_c c)) in Hc.
    apply (proj2 (lower_char_r r)) in Hr.
    now rewrite Hm, Hc, Hr.
Qed.

(** ** The quad menu of a generator *)

Lemma direct_no_menu_call (menu : handle) (pre : list call) :
  Forall (fun c => is_menu_call c = false) pre -> direct menu pre = [].
Proof.
  induction 1 as [|c pre Hc _ IH]; [reflexivity|].
  unfold direct in *. cbn [flat_map]. rewrite IH, app_nil_r.
  destruct c; try reflexivity; discriminate.
Qed.

(** Synthesis after calls that create neither action nor submenu. *)
Lemma synthesis_after_prelude (uuid4 : nat -> string) (o : os)
      (root : string) (nd : node) (menu : handle) (h h1 : host)
      (pre : list call) :
  existsb (aliases_root o root) (children nd) = false ->
  menu < allocated h1 ->
  calls h1 = calls h ++ pre ->
  Forall (fun c => is_menu_call c = false) pre ->
  exists log,
    calls (snd (_create_menu_from_tree uuid4 o root menu nd h1))
    = calls h ++ log
    /\ actions_precede_submenus log.
Proof.
  intros Al L C F.
  destruct (_create_menu_from_tree uuid4 o root menu nd h1)
    as [r h'] eqn:R.
  destruct (synthesis_built _ _ _ _ _ _ _ _ Al L R) as (es & lg & C' & B & A).
  exists (pre ++ lg). cbn [snd]. rewrite C', C, <- app_assoc.
  split; [reflexivity|].
  apply direct_order. intros m.
  rewrite direct_app, (direct_no_menu_call m pre F). cbn [app].
  destruct (built_direct _ _ _ _ _ B L) as (D & _ & S).
  destruct (Nat.eq_dec m menu) as [->|Hm]; [now rewrite D|now apply S].
Qed.

(** For a generator made by [__init__] over a file system where the root
    is unique, the whole log of [define_quad_menu] keeps, on every menu,
    the actions ahead of the submenus. *)
Lemma quad_menu_actions_first (uuid4 : nat -> string) (o : os) (fuel : nat)
      (root main quad keys position : string) (flag : bool)
      (self : MenuGenerator) (h : host) :
  root_is_unique o root ->
  __init__ o fuel root main quad keys position flag = Some self ->
  exists log,
    calls (snd (define_quad_menu uuid4 o self h)) = calls h ++ log
    /\ actions_precede_submenus log.
Proof.
  intros U I.
  destruct (generator_tree_no_alias _ _ _ _ _ _ _ _ _ U I) as (Rt & _ & Al).
  rewrite <- Rt in Al.
  unfold define_quad_menu.
  unfold do_notificationParam, do_GetContextById, do_CreateQuadMenu,
    do_SetRightClickModifiers, do_CreateMenu, do_print, str_uuid4,
    new_handle, log, lift, ret.
  destruct (dict_mem modifier_keys_map (quad_menu_modifier_keys self)) eqn:K;
    [destruct (dict_item_mem _ _ K) as (modifiers & ->)|];
    (destruct (dict_mem quad_menu_positions (quad_menu_position self)) eqn:P;
     [destruct (dict_item_mem _ _ P) as (pos & ->)|]);
    cbn [bind allocated drawn calls dict_item quad_menu_positions
         String.eqb Ascii.eqb Bool.eqb];
    (eapply synthesis_after_prelude;
     [ exact Al
     | cbn [allocated]; lia
     | cbn [calls]; rewrite <- !app_assoc; reflexivity
     | repeat constructor ]).
Qed.

(** In the scenario the root is unique. *)
Lemma scenario_root_is_unique : root_is_unique Scenario.tools "Tools".
Proof.
  intros p item _ D I.
  cbn [Scenario.tools Table.os_of isdir listdir join normpath] in *.
  unfold Scenario.disk in *. cbn [Table.lookup] in *.
  repeat match type of D with
         | context [String.eqb p ?q] =>
             destruct (String.eqb_spec p q) as [->|_]
         end; try discriminate;
    cbn [In] in I;
    repeat match goal with
           | H : _ \/ _ |- _ => destruct H as [<-|H]
           | H : False |- _ => destruct H
           end; reflexivity.
Qed.

(* ================================================================== *)
(** * Further properties *)
(* ================================================================== *)

(** ** The descriptor reader *)

Lemma first_name_raised (start_id : string) (lines : list string)
      (e : exn) :
  first_name start_id lines = Raised e <->
  e = IndexError
  /\ exists pre line post,
       lines = pre ++ line :: post
       /\ Forall (fun l => Py.contains start_id l = false) pre
       /\ Py.contains start_id line = true
       /\ List.length (Py.split line) < 2.
Proof.
  induction lines as [|l rest IH]; cbn [first_name].
  - split; [discriminate|].
    intros (_ & pre & line & post & E & _). destruct pre; discriminate.
  - destruct (Py.contains start_id l) eqn:C.
    + unfold second_token. split.
      * destruct (nth_error (Py.split l) 1) eqn:N; [discriminate|].
        intros [= <-]. split; [reflexivity|].
        exists [], l, rest. repeat split; auto.
        apply nth_error_None in N. lia.
      * intros (-> & pre & line & post & E & F & C' & L).
        destruct pre as [|x pre].
        -- injection E as <- _.
           destruct (nth_error (Py.split l) 1) eqn:N; [|reflexivity].
           assert (nth_error (Py.split l) 1 <> None) as N' by congruence.
           apply nth_error_Some in N'. lia.
        -- injection E as <- _. inversion F; congruence.
    + rewrite IH. split.
      * intros (-> & pre & line & post & -> & F & C' & L).
        split; [reflexivity|].
        exists (l :: pre), line, post. repeat split; auto.
      * intros (-> & pre & line & post & E & F & C' & L).
        split; [reflexivity|].
        destruct pre as [|x pre].
        -- injection E as <- _. congruence.
        -- injection E as <- ->. inversion F; subst.
           exists pre, line, post. repeat split; auto.
Qed.

(** X1.  [read_macro_file] raises exactly when the file exists and the
    first non-comment line that contains [macroScript] has fewer than two
    whitespace-delimited tokens; the exception is then [IndexError], and
    no other exception is ever raised. *)
Theorem read_macro_file_raises_exactly (o : os) (p : string) (e : exn) :
  read_macro_file o p = Raised e <->
  e = IndexError
  /\ isfile o p = true
  /\ exists pre line post,
       macro_lines (readlines o p) = pre ++ line :: post
       /\ Forall (fun l => Py.contains "macroScript" l = false) pre
       /\ Py.contains "macroScript" line = true
       /\ List.length (Py.split line) < 2.
Proof.
  rewrite read_macro_file_raises_iff, first_name_raised. tauto.
Qed.

Lemma split_tokens_ink (s : string) :
  Forall (fun tok => all_chars is_ink tok = true) (Py.split s).
Proof.
  induction s as [|c s IH]; cbn [Py.split]; auto.
  destruct (Py.isspace c) eqn:W; auto.
  assert (I : is_ink c = true) by (unfold is_ink; now rewrite W).
  destruct (Py.starts_token s).
  - destruct (Py.split s) as [|tok toks].
    + repeat constructor. cbn [all_chars]. now rewrite I.
    + inversion IH; subst. constructor; auto.
      cbn [all_chars]. now rewrite I.
  - constructor; auto. cbn [all_chars]. now rewrite I.
Qed.

Lemma first_name_ink (start_id : string) (lines : list string)
      (n : string) :
  first_name start_id lines = Returned n -> all_chars is_ink n = true.
Proof.
  induction lines as [|l rest IH]; cbn [first_name].
  - now intros [= <-].
  - destruct (Py.contains start_id l); auto.
    unfold second_token.
    destruct (nth_error (Py.split l) 1) as [tok|] eqn:N; [|discriminate].
    intros [= <-].
    pose proof (split_tokens_ink l) as F. rewrite Forall_forall in F.
    apply F. eapply nth_error_In; eauto.
Qed.

Lemma until_quote_clean (s : string) :
  Py.mem_char quote (until_quote s) = false.
Proof.
  induction s as [|c s IH]; cbn [until_quote]; auto.
  destruct (Ascii.eqb c quote) eqn:E; auto.
  cbn [Py.mem_char]. rewrite Ascii.eqb_sym, E. exact IH.
Qed.

Lemma first_category_clean (cat_id : string) (lines : list string) :
  Py.mem_char quote (first_category cat_id lines) = false.
Proof.
  induction lines as [|l rest IH]; cbn [first_category]; auto.
  destruct (Py.contains cat_id l); auto.
  unfold quoted_text.
  destruct (after_quote l) as [r|]; cbn [option_map]; auto.
  destruct (Py.truthy (until_quote r)); auto.
  apply until_quote_clean.
Qed.

(** X2.  Whatever the file, a returned name contains no white space and a
    returned category contains no double quote. *)
Theorem read_macro_file_result_shape (o : os) (p n c : string) :
  read_macro_file o p = Returned (n, c) ->
  all_chars is_ink n = true /\ Py.mem_char quote c = false.
Proof.
  destruct (isfile o p) eqn:F.
  - rewrite (read_macro_file_spec o p F).
    destruct (first_name _ _) as [n'|e] eqn:N; [|discriminate].
    intros [= <- <-]. split.
    + eapply first_name_ink; eauto.
    + apply first_category_clean.
  - rewrite (read_macro_file_missing o p F). now intros [= <- <-].
Qed.

Lemma read_macro_file_result_shape_witness :
  all_chars is_ink "Foo" = true /\ Py.mem_char quote "Bar" = false.
Proof.
  apply (read_macro_file_result_shape
           (Descriptors.os_with Descriptors.well_formed) "tool.mcr").
  reflexivity.
Defined.

Lemma macro_lines_app (a b : list string) :
  macro_lines (a ++ b) = macro_lines a ++ macro_lines b.
Proof. unfold macro_lines. now rewrite filter_app, map_app. Qed.

Lemma first_name_found_app (start_id : string) (l1 l2 : list string)
      (n : string) :
  first_name start_id l1 = Returned n -> n <> EmptyString ->
  first_name start_id (l1 ++ l2) = Returned n.
Proof.
  induction l1 as [|l rest IH]; cbn [first_name app].
  - intros [= <-] H. contradiction.
  - destruct (Py.contains start_id l); auto.
Qed.

Lemma first_category_found_app (cat_id : string) (l1 l2 : list string) :
  first_category cat_id l1 <> EmptyString ->
  first_category cat_id (l1 ++ l2) = first_category cat_id l1.
Proof.
  induction l1 as [|l rest IH]; cbn [first_category app].
  - intros H. contradiction.
  - destruct (Py.contains cat_id l); auto.
    destruct (quoted_text l) as [t|]; auto.
    destruct (Py.truthy t); auto.
Qed.

(** X3.  First match wins, for good: once a file gives a name, appending
    lines to it never changes the name and never makes the reader raise,
    and a category already found stays as it is. *)
Theorem read_macro_file_keeps_first_match (o1 o2 : os) (p n c : string)
        (more : list string) :
  isfile o1 p = true ->
  isfile o2 p = true ->
  readlines o2 p = readlines o1 p ++ more ->
  read_macro_file o1 p = Returned (n, c) ->
  n <> EmptyString ->
  exists c',
    read_macro_file o2 p = Returned (n, c')
    /\ (c <> EmptyString -> c' = c).
Proof.
  intros F1 F2 E R Hn.
  rewrite (read_macro_file_spec o1 p F1) in R.
  rewrite (read_macro_file_spec o2 p F2), E, macro_lines_app.
  destruct (first_name "macroScript" (macro_lines (readlines o1 p)))
    as [n'|e] eqn:N; [|discriminate].
  injection R as -> <-.
  rewrite (first_name_found_app _ _ _ _ N Hn).
  eexists. split; [reflexivity|].
  intros Hc. now apply first_category_found_app.
Qed.

Lemma read_macro_file_keeps_first_match_witness :
  exists c',
    read_macro_file (Descriptors.os_with MoreDescriptors.trailing_marker)
                    "tool.mcr" = Returned ("Foo"%string, c')
    /\ ("Bar"%string <> EmptyString -> c' = "Bar"%string).
Proof.
  apply (read_macro_file_keeps_first_match
           (Descriptors.os_with Descriptors.well_formed)
           (Descriptors.os_with MoreDescriptors.trailing_marker)
           "tool.mcr" "Foo" "Bar"
           [ ("macroScript" ++ Descriptors.nl)%string ]).
  - reflexivity.
  - reflexivity.
  - reflexivity.
  - reflexivity.
  - discriminate.
Defined.

Lemma first_name_empty (start_id : string) (lines : list string) :
  first_name start_id lines = Returned EmptyString <->
  Forall (fun l => Py.contains start_id l = false) lines.
Proof.
  induction lines as [|l rest IH]; cbn [first_name].
  - split; auto.
  - destruct (Py.contains start_id l) eqn:C.
    + split.
      * intros H. apply second_token_truthy in H. discriminate.
      * inversion 1; congruence.
    + rewrite IH. split; [now constructor|now inversion 1].
Qed.

Lemma first_category_empty (cat_id : string) (lines : list string) :
  first_category cat_id lines = EmptyString <->
  Forall (no_category cat_id) lines.
Proof.
  split.
  - induction lines as [|l rest IH]; cbn [first_category]; auto.
    unfold no_category at 1.
    destruct (Py.contains cat_id l) eqn:C; [|now constructor; auto].
    destruct (quoted_text l) as [t|] eqn:Q; [|now constructor; auto].
    destruct t as [|ch t]; cbn [Py.truthy]; [now constructor; auto|].
    discriminate.
  - intros F. rewrite <- (app_nil_r lines).
    now rewrite first_category_skip.
Qed.

(** X4.  [read_macro_file] returns the pair of empty strings exactly when
    the path is not an existing file, or no non-comment line of the file
    contains [macroScript] and none contains [category:] together with a
    non-empty quoted text. *)
Theorem read_macro_file_empty_pair (o : os) (p : string) :
  read_macro_file o p = Returned (EmptyString, EmptyString) <->
  isfile o p = false
  \/ (Forall (fun l => Py.contains "macroScript" l = false)
             (macro_lines (readlines o p))
      /\ Forall (no_category "category:") (macro_lines (readlines o p))).
Proof.
  destruct (isfile o p) eqn:F.
  - rewrite (read_macro_file_spec o p F).
    rewrite <- first_name_empty, <- first_category_empty.
    destruct (first_name _ _) as [n|e]; split.
    + intros [= -> ->]. right. auto.
    + intros [H|[[= ->] ->]]; [discriminate|reflexivity].
    + discriminate.
    + intros [H|[H _]]; discriminate.
  - rewrite (read_macro_file_missing o p F). split; auto.
Qed.

(** ** The tree builder *)

Lemma preorder_unfold (nd : node) : preorder nd = nd :: below nd.
Proof. now destruct nd. Qed.

Lemma Forall_flat_map {A B : Type} (P : B -> Prop) (f : A -> list B)
      (xs : list A) :
  Forall (fun x => Forall P (f x)) xs -> Forall P (flat_map f xs).
Proof.
  induction 1 as [|x xs Hx _ IH]; cbn [flat_map]; auto.
  apply Forall_app. auto.
Qed.

(** A property of the node of a path that is inherited along the scan
    holds of every node of the tree. *)
Lemma build_tree_every_node (o : os) (Q : string -> node -> Prop) :
  (forall p nm ty cs r fuel,
      _build_tree o (S fuel) p r = Some (mk_node nm p ty cs) ->
      Q p (mk_node nm p ty cs)) ->
  forall fuel p r t,
    _build_tree o fuel p r = Some t ->
    Forall (fun n => Q (path n) n) (preorder t).
Proof.
  intros HQ. induction fuel as [|fuel IH]; intros p r t; [discriminate|].
  intros B. pose proof B as B'. revert B'.
  cbn [_build_tree]. cbv zeta.
  destruct (isdir o p) eqn:D.
  - destruct (map_option _ _) as [cs|] eqn:E; [|discriminate].
    intros [= <-]. cbn [preorder]. constructor.
    + cbn [path]. eapply HQ. exact B.
    + apply map_option_Forall2 in E. apply Forall_flat_map.
      clear B. induction E as [|item c items cs' Hc _ IHE]; constructor; eauto.
  - intros [= <-]. cbn [preorder flat_map]. constructor; [|constructor].
    cbn [path]. eapply HQ. exact B.
Qed.

(** X5.  In every tree a scan returns, whatever the path it starts from,
    a node is a [directory] exactly when its path is a directory on disk,
    and a [file] node has no children. *)
Theorem build_tree_types (o : os) (fuel : nat) (p : string) (r : bool)
        (t : node) :
  _build_tree o fuel p r = Some t ->
  Forall (fun n =>
            (type n = directory <-> isdir o (path n) = true)
            /\ (type n = file -> children n = []))
         (preorder t).
Proof.
  apply (build_tree_every_node o
           (fun q n => (type n = directory <-> isdir o q = true)
                       /\ (type n = file -> children n = []))).
  clear. intros p nm ty cs r fuel. cbn [_build_tree]. cbv zeta.
  destruct (isdir o p) eqn:D.
  - destruct (map_option _ _); [|discriminate].
    intros [= _ <- _]. cbn [type children]. split; [tauto|discriminate].
  - intros [= _ <- <-]. cbn [type children]. split; [|reflexivity].
    split; discriminate.
Qed.

Lemma build_tree_types_witness :
  Forall (fun n =>
            (type n = directory <-> isdir Scenario.tools (path n) = true)
            /\ (type n = file -> children n = []))
         (preorder scenario_tree).
Proof.
  apply (build_tree_types Scenario.tools 3 "Tools" true scenario_tree).
  reflexivity.
Defined.

(** The nodes below the top of a scan from a visited path: each is the
    node of an entry of a visited directory. *)
Lemma build_tree_below (o : os) (root : string) (Q : string -> Prop) :
  (forall q item,
      visited o root q -> isdir o q = true -> In item (listdir o q) ->
      Q (join o q item)) ->
  forall fuel p r t,
    visited o root p ->
    _build_tree o fuel p r = Some t ->
    Forall (fun n => Q (path n)) (below t).
Proof.
  intros HQ. induction fuel as [|fuel IH]; intros p r t V; [discriminate|].
  cbn [_build_tree]. cbv zeta.
  destruct (isdir o p) eqn:D; [|intros [= <-]; constructor].
  destruct (map_option _ _) as [cs|] eqn:E; [|discriminate].
  intros [= <-]. unfold below. cbn [children].
  apply map_option_Forall2 in E. apply Forall_flat_map.
  assert (I : forall item, In item (Py.sorted (listdir o p)) ->
                           In item (listdir o p)).
  { intros item. apply Permutation_in, sorted_perm. }
  induction E as [|item c items cs' Hc _ IHE]; constructor.
  - rewrite preorder_unfold. constructor.
    + destruct (build_tree_scanned o fuel _ _ _ Hc) as (-> & _).
      apply HQ; auto. apply I. now left.
    + eapply IH; [|exact Hc]. apply visited_entry; auto. apply I. now left.
  - apply IHE. intros item' H. apply I. now right.
Qed.

(** X6.  The tree that [__init__] caches carries the configured root
    path on its top node, and, when no entry that the scan visits
    normalises to the root path, on no other node: only the top node is
    taken for the root by [_create_menu_from_tree]. *)
Theorem init_root_only_on_top (o : os) (fuel : nat)
        (root main quad keys position : string) (flag : bool)
        (self : MenuGenerator) :
  root_is_unique o root ->
  __init__ o fuel root main quad keys position flag = Some self ->
  root_directory_path self = root
  /\ path (directory_tree self) = root
  /\ Forall (fun n =>
               String.eqb (normpath o (path n))
                          (normpath o (root_directory_path self)) = false)
            (below (directory_tree self)).
Proof.
  intros U. unfold __init__.
  destruct (_build_tree o fuel root true) as [t|] eqn:B; [|discriminate].
  intros [= <-]. cbn [root_directory_path directory_tree].
  destruct (build_tree_scanned o fuel root true t B) as (P & _ & _).
  repeat split; auto.
  apply (build_tree_below o root
           (fun q => String.eqb (normpath o q) (normpath o root) = false)
           U fuel root true t); [constructor|exact B].
Qed.

Lemma init_root_only_on_top_witness :
  root_directory_path scenario_generator = "Tools"%string
  /\ path (directory_tree scenario_generator) = "Tools"%string
  /\ Forall (fun n =>
               String.eqb (normpath Scenario.tools (path n))
                          (normpath Scenario.tools
                             (root_directory_path scenario_generator))
               = false)
            (below (directory_tree scenario_generator)).
Proof.
  apply (init_root_only_on_top Scenario.tools 3 "Tools" "Tools Menu"
           "Tools Quad Menu" "CTRL+SHIFT" "TOP_RIGHT" false
           scenario_generator).
  - apply scenario_root_is_unique.
  - reflexivity.
Defined.

(** ** The synthesizer *)

Lemma for_each_ext {A : Type} (f g : A -> M unit) (xs : list A) :
  (forall x, In x xs -> forall h, f x h = g x h) ->
  forall h, for_each f xs h = for_each g xs h.
Proof.
  induction xs as [|x xs IH]; intros E h; [reflexivity|].
  rewrite !for_each_cons, (E x (or_introl eq_refl)).
  destruct (g x h) as [[[]|e] h1]; auto.
  apply IH. intros y Hy. apply E. now right.
Qed.

Lemma for_each_outcome {A : Type} (P : outcome unit -> Prop)
      (f : A -> M unit) (xs : list A) :
  P (Returned tt) ->
  (forall x, In x xs -> forall h, P (fst (f x h))) ->
  forall h, P (fst (for_each f xs h)).
Proof.
  intros P0. induction xs as [|x xs IH]; intros E h; [exact P0|].
  rewrite for_each_cons.
  pose proof (E x (or_introl eq_refl) h) as Hx.
  destruct (f x h) as [[[]|e] h1]; cbn [fst] in *; auto.
  apply IH. intros y Hy. apply E. now right.
Qed.

Lemma in_below_child (nd c : node) :
  In c (children nd) -> In c (below nd).
Proof.
  intros H. unfold below. apply in_flat_map. exists c. split; auto.
  rewrite preorder_unfold. now left.
Qed.

Lemma in_below_trans (nd c n : node) :
  In c (children nd) -> In n (below c) -> In n (below nd).
Proof.
  intros H Hn. unfold below at 1. apply in_flat_map. exists c. split; auto.
  rewrite preorder_unfold. now right.
Qed.

Lemma read_macro_file_ext (o1 o2 : os) (p : string) :
  isfile o1 p = isfile o2 p ->
  readlines o1 p = readlines o2 p ->
  read_macro_file o1 p = read_macro_file o2 p.
Proof.
  intros F L. unfold read_macro_file, read_macro_file_with.
  now rewrite F, L.
Qed.

(** X7.  [_create_menu_from_tree] works from the cached tree: of the file
    system it reads only the descriptors of the [.mcr] file nodes (and
    normalises paths).  Two file systems that agree on those give the
    same calls and the same outcome, however their directories differ. *)
Theorem synthesis_reads_only_descriptors
        (uuid4 : nat -> string) (o1 o2 : os) (root : string) (nd : node) :
  (forall q, normpath o1 q = normpath o2 q) ->
  (forall n, In n (below nd) -> is_mcr_file n = true ->
             isfile o1 (path n) = isfile o2 (path n)
             /\ readlines o1 (path n) = readlines o2 (path n)) ->
  forall (parent : handle) (h : host),
    _create_menu_from_tree uuid4 o1 root parent nd h
    = _create_menu_from_tree uuid4 o2 root parent nd h.
Proof.
  intros N. induction nd as [nm p ty cs IH] using node_ind'.
  intros D.
  assert (L : forall menu h,
             loops uuid4 o1 (_create_menu_from_tree uuid4 o1 root) cs menu h
             = loops uuid4 o2 (_create_menu_from_tree uuid4 o2 root)
                     cs menu h).
  { intros menu h. unfold loops, bind.
    rewrite (for_each_ext (create_action_for uuid4 o1 menu)
                          (create_action_for uuid4 o2 menu)).
    - destruct (for_each (create_action_for uuid4 o2 menu) cs h)
        as [[[]|e] h1]; auto.
      apply for_each_ext. intros c Hc h2.
      destruct (node_type_eqb (type c) directory); auto.
      rewrite Forall_forall in IH. apply IH; auto.
      intros n Hn. apply D.
      apply (in_below_trans (mk_node nm p ty cs) c n Hc Hn).
    - intros c Hc h1. rewrite !create_action_for_run.
      destruct (is_mcr_file c) eqn:T; auto.
      destruct (D c (in_below_child (mk_node nm p ty cs) c Hc) T) as [F R].
      now rewrite (read_macro_file_ext o1 o2 (path c) F R). }
  intros parent h. cbn [_create_menu_from_tree]. rewrite !N.
  destruct (String.eqb (normpath o2 p) (normpath o2 root)); auto.
  destruct ty; auto.
  unfold bind, str_uuid4, do_createSubMenu, new_handle, log, ret.
  cbn [allocated drawn calls]. apply L.
Qed.

Lemma synthesis_reads_only_descriptors_witness :
  _create_menu_from_tree Scenario.uuid4 Scenario.tools "Tools" 0
                         scenario_tree (fresh_host 1)
  = _create_menu_from_tree Scenario.uuid4 (Table.os_of disk_after) "Tools" 0
                           scenario_tree (fresh_host 1).
Proof.
  apply (synthesis_reads_only_descriptors
           Scenario.uuid4 Scenario.tools (Table.os_of disk_after) "Tools"
           scenario_tree).
  - reflexivity.
  - intros n H T. vm_compute in H.
    repeat (destruct H as [<-|H];
            [first [split; reflexivity | vm_compute in T; discriminate]|]).
    destruct H.
Defined.

(** One turn of the first loop returns exactly when the descriptor, if
    line 107 selects the child, is read without an exception. *)
Lemma create_action_for_outcome (uuid4 : nat -> string) (o : os)
      (menu : handle) (c : node) (h : host) :
  fst (create_action_for uuid4 o menu c h) = Returned tt
  <-> descriptor_reads o c.
Proof.
  rewrite create_action_for_run. unfold descriptor_reads.
  destruct (is_mcr_file c);
    [|cbn; split; [intros _ D; discriminate D|reflexivity]].
  destruct (read_macro_file o (path c)) as [[n cat]|e] eqn:R.
  - destruct (Py.truthy n && Py.truthy cat); cbn; split; eauto.
  - cbn. split; [discriminate|].
    intros H. destruct (H eq_refl) as (v & Hv). discriminate.
Qed.

(** An outcome property that holds of a return and at every descriptor
    read holds of the synthesis. *)
Lemma synthesis_outcome (uuid4 : nat -> string) (o : os) (root : string)
      (P : outcome unit -> Prop) (nd : node) :
  P (Returned tt) ->
  (forall n, In n (below nd) -> forall menu h,
             P (fst (create_action_for uuid4 o menu n h))) ->
  forall (parent : handle) (h : host),
    P (fst (_create_menu_from_tree uuid4 o root parent nd h)).
Proof.
  intros P0. induction nd as [nm p ty cs IH] using node_ind'.
  intros D.
  assert (L : forall menu h,
             P (fst (loops uuid4 o (_create_menu_from_tree uuid4 o root)
                           cs menu h))).
  { intros menu h. unfold loops, bind.
    pose proof (for_each_outcome P (create_action_for uuid4 o menu) cs P0)
      as F1.
    specialize (F1 (fun c Hc h1 =>
                      D c (in_below_child (mk_node nm p ty cs) c Hc)
                        menu h1) h).
    destruct (for_each (create_action_for uuid4 o menu) cs h)
      as [[[]|e] h1]; cbn [fst] in *; auto.
    apply (for_each_outcome P); auto.
    intros c Hc h2.
    destruct (node_type_eqb (type c) directory); [|exact P0].
    rewrite Forall_forall in IH. apply IH; auto.
    intros n Hn. apply D.
    apply (in_below_trans (mk_node nm p ty cs) c n Hc Hn). }
  intros parent h. cbn [_create_menu_from_tree].
  destruct (String.eqb (normpath o p) (normpath o root)); auto.
  destruct ty; [|exact P0].
  unfold bind at 1, str_uuid4 at 1.
  unfold bind at 1, do_createSubMenu, new_handle, log, ret, bind at 1 2.
  cbn [allocated drawn calls]. apply L.
Qed.

(** X8.  [_create_menu_from_tree] returns whenever the descriptor of
    every [.mcr] file node below the top reads without an exception:
    nothing else in the synthesis can raise. *)
Theorem synthesis_returns (uuid4 : nat -> string) (o : os) (root : string)
        (parent : handle) (nd : node) (h : host) :
  (forall n, In n (below nd) -> is_mcr_file n = true ->
             exists v, read_macro_file o (path n) = Returned v) ->
  fst (_create_menu_from_tree uuid4 o root parent nd h) = Returned tt.
Proof.
  intros D.
  apply (synthesis_outcome uuid4 o root (fun r => r = Returned tt));
    [reflexivity|].
  intros n Hn menu h1. apply create_action_for_outcome.
  intros T. auto.
Qed.

Lemma synthesis_returns_witness :
  fst (_create_menu_from_tree Scenario.uuid4 Scenario.tools "Tools" 0
                              scenario_tree (fresh_host 1))
  = Returned tt.
Proof.
  apply (synthesis_returns Scenario.uuid4 Scenario.tools "Tools" 0
           scenario_tree (fresh_host 1)).
  intros n H. vm_compute in H.
  repeat (destruct H as [<-|H];
          [intros _; eexists; vm_compute; reflexivity
           || (intros T; vm_compute in T; discriminate)|]).
  destruct H.
Defined.

Lemma for_each_relation {A : Type} (R : host -> host -> Prop)
      (f : A -> M unit) (xs : list A) :
  (forall h, R h h) ->
  (forall a b c, R a b -> R b c -> R a c) ->
  (forall x, In x xs -> forall h, R h (snd (f x h))) ->
  forall h, R h (snd (for_each f xs h)).
Proof.
  intros Rr Rt. induction xs as [|x xs IH]; intros E h; [apply Rr|].
  rewrite for_each_cons.
  pose proof (E x (or_introl eq_refl) h) as Hx.
  destruct (f x h) as [[[]|e] h1]; cbn [snd] in *; auto.
  apply (Rt _ h1); auto. apply IH. intros y Hy. apply E. now right.
Qed.

(** A relation between host states that the steps of the synthesis
    respect is respected by the synthesis. *)
Lemma synthesis_relation (uuid4 : nat -> string) (o : os) (root : string)
      (R : host -> host -> Prop) :
  (forall h, R h h) ->
  (forall a b c, R a b -> R b c -> R a c) ->
  (forall menu c h, R h (snd (create_action_for uuid4 o menu c h))) ->
  (forall parent title h,
      R h (snd ((id <- str_uuid4 uuid4 ;;
                 do_createSubMenu parent id title) h))) ->
  forall (nd : node) (parent : handle) (h : host),
    R h (snd (_create_menu_from_tree uuid4 o root parent nd h)).
Proof.
  intros Rr Rt Ra Rs.
  induction nd as [nm p ty cs IH] using node_ind'.
  assert (L : forall menu h,
             R h (snd (loops uuid4 o (_create_menu_from_tree uuid4 o root)
                             cs menu h))).
  { intros menu h. unfold loops, bind.
    pose proof (for_each_relation R (create_action_for uuid4 o menu) cs
                  Rr Rt (fun c _ h1 => Ra menu c h1) h) as F1.
    destruct (for_each (create_action_for uuid4 o menu) cs h)
      as [[[]|e] h1]; cbn [snd] in *; auto.
    apply (Rt _ h1); auto.
    apply (for_each_relation R); auto.
    intros c Hc h2.
    destruct (node_type_eqb (type c) directory); [|apply Rr].
    rewrite Forall_forall in IH. now apply IH. }
  intros parent h. cbn [_create_menu_from_tree].
  destruct (String.eqb (normpath o p) (normpath o root)); auto.
  destruct ty; [|apply Rr].
  pose proof (Rs parent nm h) as S.
  unfold bind, str_uuid4, do_createSubMenu, new_handle, log, ret in *.
  cbn [allocated drawn calls snd] in *.
  eapply Rt; [exact S|]. apply L.
Qed.

Lemma ids_app (l1 l2 : list call) : ids (l1 ++ l2) = ids l1 ++ ids l2.
Proof. apply flat_map_app. Qed.

Lemma drew_refl (uuid4 : nat -> string) (h : host) : drew uuid4 h h.
Proof. exists []. rewrite app_nil_r. cbn. repeat split; lia. Qed.

Lemma drew_trans (uuid4 : nat -> string) (a b c : host) :
  drew uuid4 a b -> drew uuid4 b c -> drew uuid4 a c.
Proof.
  intros (l1 & C1 & D1 & I1) (l2 & C2 & D2 & I2).
  exists (l1 ++ l2). rewrite C2, C1, <- app_assoc, ids_app, length_app.
  repeat split; [lia|].
  rewrite seq_app, map_app, <- I1. f_equal.
  rewrite I2 at 1. now rewrite D1.
Qed.

(** One call with a fresh draw as its identifier. *)
Lemma drew_one (uuid4 : nat -> string) (h : host) (a : nat) (c : call) :
  call_id c = [uuid4 (drawn h)] ->
  drew uuid4 h {| allocated := a; drawn := S (drawn h);
                  calls := calls h ++ [c] |}.
Proof.
  intros E. exists [c]. unfold ids. cbn [calls drawn flat_map].
  rewrite E. cbn. repeat split; lia.
Qed.

(** X10.  Every element that [_create_menu_from_tree] creates gets a
    draw of [uuid4] of its own: the identifiers in the log it adds are
    the consecutive draws from the first unused one on, in creation
    order, and the draw counter advances by their number. *)
Theorem synthesis_draws_fresh_ids
        (uuid4 : nat -> string) (o : os) (root : string)
        (parent : handle) (nd : node) (h : host) :
  drew uuid4 h (snd (_create_menu_from_tree uuid4 o root parent nd h)).
Proof.
  apply synthesis_relation.
  - apply drew_refl.
  - apply drew_trans.
  - intros menu c h1. rewrite create_action_for_run.
    destruct (is_mcr_file c); [|apply drew_refl].
    destruct (read_macro_file o (path c)) as [[n cat]|e]; [|apply drew_refl].
    destruct (Py.truthy n && Py.truthy cat); [|apply drew_refl].
    cbn [snd]. now apply drew_one.
  - intros p title h1.
    cbv [bind str_uuid4 do_createSubMenu new_handle log ret snd
         allocated drawn calls].
    now apply drew_one.
Qed.

Section Mirror.

Variable uuid4 : nat -> string.
Variable o : os.
Variable root : string.

Lemma first_loop_actions (menu : handle) (cs : list node) (h h' : host) :
  for_each (create_action_for uuid4 o menu) cs h = (Returned tt, h') ->
  exists acts,
    calls h' = calls h ++ acts
    /\ allocated h' = allocated h
    /\ actions_for o menu cs acts.
Proof.
  unfold actions_for, action_labels.
  revert h. induction cs as [|c cs IH]; intros h.
  - intros [= <-]. exists []. rewrite app_nil_r. repeat split. constructor.
  - rewrite for_each_cons, create_action_for_run.
    cbn [flat_map]. unfold label_of at 1.
    destruct (is_mcr_file c); [|apply IH].
    destruct (read_macro_file o (path c)) as [[n cat]|e]; [|discriminate].
    destruct (Py.truthy n && Py.truthy cat); [|apply IH].
    intros R. destruct (IH _ R) as (acts & C & A & F).
    cbn [calls allocated] in *.
    eexists (_ :: acts). rewrite C, <- app_assoc.
    repeat split; auto. cbn [app]. constructor; eauto.
Qed.

Lemma second_loop_mirrors (menu : handle) (cs : list node) :
  Forall (adds_mirror uuid4 o root) cs ->
  existsb (aliases_root o root) cs = false ->
  forall (h h' : host),
    for_each (fun child =>
                if node_type_eqb (type child) directory
                then _create_menu_from_tree uuid4 o root menu child
                else ret tt) cs h = (Returned tt, h') ->
    exists log,
      calls h' = calls h ++ log
      /\ mirrors o cs menu (allocated h) (allocated h') log.
Proof.
  induction 1 as [|c cs Pc _ IH]; intros Al h h'.
  - intros [= <-]. exists []. rewrite app_nil_r. split; constructor.
  - cbn [existsb] in Al. apply orb_false_iff in Al. destruct Al as [Ac Acs].
    rewrite for_each_cons.
    destruct (node_type_eqb (type c) directory) eqn:T.
    + assert (Tc : type c = directory) by (destruct (type c); easy).
      destruct (_create_menu_from_tree uuid4 o root menu c h)
        as [[[]|e] h1] eqn:R1; [|discriminate].
      destruct (Pc menu h h1 Tc Ac R1) as (id & acts & inner & C1 & A1 & M1).
      intros R. destruct (IH Acs _ _ R) as (log & C & M).
      exists (createSubMenu menu id (name c) (allocated h)
                :: acts ++ inner ++ log).
      split.
      * rewrite C, C1, <- app_assoc. cbn [app].
        now rewrite <- app_assoc.
      * now apply mirrors_directory with (mid := allocated h1).
    + unfold ret at 1. intros R. destruct (IH Acs _ _ R) as (log & C & M).
      exists log. split; auto. now apply mirrors_file.
Qed.

Lemma loops_mirror (menu : handle) (cs : list node) (h h' : host) :
  Forall (adds_mirror uuid4 o root) cs ->
  existsb (aliases_root o root) cs = false ->
  loops uuid4 o (_create_menu_from_tree uuid4 o root) cs menu h
  = (Returned tt, h') ->
  exists acts blocks,
    calls h' = calls h ++ acts ++ blocks
    /\ actions_for o menu cs acts
    /\ mirrors o cs menu (allocated h) (allocated h') blocks.
Proof.
  intros P Al. unfold loops, bind.
  destruct (for_each (create_action_for uuid4 o menu) cs h)
    as [[[]|e] h1] eqn:R1; [|discriminate].
  destruct (first_loop_actions _ _ _ _ R1) as (acts & C1 & A1 & F1).
  intros R2.
  destruct (second_loop_mirrors menu cs P Al _ _ R2) as (blocks & C2 & M).
  exists acts, blocks. rewrite C2, C1, <- app_assoc.
  rewrite A1 in M. auto.
Qed.

Lemma every_directory_adds_mirror (nd : node) : adds_mirror uuid4 o root nd.
Proof.
  induction nd as [nm p ty cs IH] using node_ind'.
  intros parent h h' T Al. cbn [type] in T. subst ty.
  cbn [aliases_root] in Al. apply orb_false_iff in Al.
  destruct Al as [Ne Al].
  cbn [_create_menu_from_tree]. rewrite Ne.
  unfold bind at 1, str_uuid4 at 1.
  unfold bind at 1, do_createSubMenu, new_handle, log, ret, bind at 1 2.
  cbn [allocated drawn calls].
  intros R.
  destruct (loops_mirror _ _ _ _ IH Al R) as (acts & blocks & C & F & M).
  cbn [calls allocated name children] in *.
  exists (uuid4 (drawn h)), acts, blocks.
  rewrite C, <- app_assoc. auto.
Qed.

End Mirror.

(** X11.  When [_create_menu_from_tree] returns from the root node, the
    log it added mirrors the whole tree below the root: first one action
    per descriptor of the root's children on the caller's menu; then, for
    each directory child in stored order, one submenu with the
    directory's name on the caller's menu, filled in the same way from
    the directory's own children, and so on down the tree.  Files get no
    submenu, and no directory is left out, an empty one included. *)
Theorem synthesis_mirrors_tree
        (uuid4 : nat -> string) (o : os) (self_root : string)
        (parent : handle) (nd : node) (h h' : host) :
  String.eqb (normpath o (path nd)) (normpath o self_root) = true ->
  existsb (aliases_root o self_root) (children nd) = false ->
  _create_menu_from_tree uuid4 o self_root parent nd h
  = (Returned tt, h') ->
  exists acts blocks,
    calls h' = calls h ++ acts ++ blocks
    /\ actions_for o parent (children nd) acts
    /\ mirrors o (children nd) parent (allocated h) (allocated h') blocks.
Proof.
  intros Q Al R. destruct nd as [nm p ty cs]. cbn [path children] in *.
  cbn [_create_menu_from_tree] in R. rewrite Q in R.
  eapply loops_mirror; eauto.
  rewrite Forall_forall. intros c _. apply every_directory_adds_mirror.
Qed.

Lemma synthesis_mirrors_tree_witness :
  exists acts blocks,
    calls {| allocated := 2; drawn := 3;
             calls := [ createAction 0 "0" action_tag "PaintTool`Paint";
                        createSubMenu 0 "1" "Sub" 1;
                        createAction 1 "2" action_tag "EraseTool`Paint" ] |}
    = calls (fresh_host 1) ++ acts ++ blocks
    /\ actions_for Scenario.tools 0 (children scenario_tree) acts
    /\ mirrors Scenario.tools (children scenario_tree) 0
               (allocated (fresh_host 1)) 2 blocks.
Proof.
  apply (synthesis_mirrors_tree
           Scenario.uuid4 Scenario.tools "Tools" 0 scenario_tree
           (fresh_host 1)
           {| allocated := 2; drawn := 3;
              calls := [ createAction 0 "0" action_tag "PaintTool`Paint";
                         createSubMenu 0 "1" "Sub" 1;
                         createAction 1 "2" action_tag "EraseTool`Paint" ] |}).
  - reflexivity.
  - reflexivity.
  - reflexivity.
Defined.

(** ** The quad menu *)

Lemma dict_mem_item (d : dict) (k : string) :
  dict_mem d k = false -> dict_item d k = Raised KeyError.
Proof.
  induction d as [|[k' v] d IH]; cbn [dict_mem dict_item]; auto.
  destruct (String.eqb k k'); [discriminate|auto].
Qed.

(** [define_quad_menu] is its prelude followed by the synthesis on the
    menu that [CreateMenu] returned. *)
Lemma define_quad_menu_run (uuid4 : nat -> string) (o : os)
      (self : MenuGenerator) (h : host) :
  define_quad_menu uuid4 o self h
  = _create_menu_from_tree uuid4 o (root_directory_path self)
      (S (S (S (allocated h)))) (directory_tree self)
      {| allocated := S (S (S (S (allocated h))));
         drawn := S (S (drawn h));
         calls := calls h ++ quad_prelude uuid4 self (allocated h) (drawn h)
      |}.
Proof.
  unfold define_quad_menu, quad_prelude, modifier_calls, position_calls,
    dict_get.
  unfold do_notificationParam, do_GetContextById, do_CreateQuadMenu,
    do_SetRightClickModifiers, do_CreateMenu, do_print, str_uuid4,
    new_handle, log, lift, ret, modifier_warning, position_warning.
  destruct (dict_mem modifier_keys_map (quad_menu_modifier_keys self)) eqn:K;
    [destruct (dict_item_mem _ _ K) as (modifiers & ->)
    |rewrite (dict_mem_item _ _ K)];
    (destruct (dict_mem quad_menu_positions (quad_menu_position self)) eqn:P;
     [destruct (dict_item_mem _ _ P) as (pos & ->)
     |rewrite (dict_mem_item _ _ P)]);
    cbn [bind allocated drawn calls dict_item quad_menu_positions
         String.eqb Ascii.eqb Bool.eqb];
    f_equal; f_equal; rewrite <- !app_assoc; reflexivity.
Qed.

(** The log of [define_quad_menu]: the prelude, then actions and
    submenus only. *)
Lemma define_quad_menu_log (uuid4 : nat -> string) (o : os)
      (self : MenuGenerator) (h : host) :
  exists menus,
    calls (snd (define_quad_menu uuid4 o self h))
    = calls h ++ quad_prelude uuid4 self (allocated h) (drawn h) ++ menus
    /\ Forall (fun c => is_menu_call c = true) menus.
Proof.
  rewrite define_quad_menu_run.
  match goal with
  | |- context [_create_menu_from_tree _ _ ?r ?m ?t ?h1] =>
      destruct (synthesis_menu_calls uuid4 o r t m h1) as (lg & C & F)
  end.
  exists lg. rewrite C. cbn [calls]. now rewrite <- app_assoc.
Qed.

Lemma filter_none {A : Type} (f g : A -> bool) (xs : list A) :
  Forall (fun x => g x = true) xs ->
  (forall x, g x = true -> f x = false) ->
  filter f xs = [].
Proof.
  intros F H. induction F as [|x xs Hx _ IH]; cbn [filter]; auto.
  now rewrite (H x Hx).
Qed.

(** X12.  [define_quad_menu] calls [SetRightClickModifiers] exactly once,
    on the quad menu it has just created and with the host name that
    [modifier_keys_map] gives for the configured string, when that
    string is a key of the map; it does not call it at all otherwise. *)
Theorem quad_menu_gating (uuid4 : nat -> string) (o : os)
        (self : MenuGenerator) (h : host) :
  exists log,
    calls (snd (define_quad_menu uuid4 o self h)) = calls h ++ log
    /\ filter is_gating_call log
       = match dict_item modifier_keys_map (quad_menu_modifier_keys self)
         with
         | Returned v =>
             [SetRightClickModifiers (S (allocated h))
                                     (S (S (allocated h))) v]
         | Raised _ => []
         end.
Proof.
  destruct (define_quad_menu_log uuid4 o self h) as (menus & C & F).
  eexists. split; [exact C|].
  rewrite filter_app,
    (filter_none is_gating_call is_menu_call menus F)
    by (intros [] E; try discriminate; reflexivity).
  rewrite app_nil_r.
  unfold quad_prelude, modifier_calls, position_calls.
  destruct (dict_item modifier_keys_map (quad_menu_modifier_keys self));
    destruct (dict_mem quad_menu_positions (quad_menu_position self));
    reflexivity.
Qed.

(** X13.  [define_quad_menu] prints nothing but its two warnings: the one
    on the modifier keys exactly when the configured string is not a key
    of [modifier_keys_map], then the one on the position exactly when the
    configured position is not a key of [quad_menu_positions]. *)
Theorem quad_menu_warnings (uuid4 : nat -> string) (o : os)
        (self : MenuGenerator) (h : host) :
  exists log,
    calls (snd (define_quad_menu uuid4 o self h)) = calls h ++ log
    /\ filter is_print_call log
       = (if dict_mem modifier_keys_map (quad_menu_modifier_keys self)
          then [] else [print (modifier_warning self)])
         ++ (if dict_mem quad_menu_positions (quad_menu_position self)
             then [] else [print (position_warning self)]).
Proof.
  destruct (define_quad_menu_log uuid4 o self h) as (menus & C & F).
  eexists. split; [exact C|].
  rewrite filter_app,
    (filter_none is_print_call is_menu_call menus F)
    by (intros [] E; try discriminate; reflexivity).
  rewrite app_nil_r.
  unfold quad_prelude, modifier_calls, position_calls.
  destruct (dict_mem modifier_keys_map (quad_menu_modifier_keys self)) eqn:K;
    [destruct (dict_item_mem _ _ K) as (v & ->)
    |rewrite (dict_mem_item _ _ K)];
    destruct (dict_mem quad_menu_positions (quad_menu_position self));
    reflexivity.
Qed.

(** X14.  [define_quad_menu] creates exactly one menu in the quad menu,
    at the position that [quad_menu_positions] gives for the configured
    one, and at [TopRight] when the configured position is not a key of
    the map: an unknown position behaves as [TOP_RIGHT]. *)
Theorem quad_menu_position_fallback (uuid4 : nat -> string) (o : os)
        (self : MenuGenerator) (h : host) :
  exists log,
    calls (snd (define_quad_menu uuid4 o self h)) = calls h ++ log
    /\ filter is_CreateMenu_call log
       = [ CreateMenu (S (S (allocated h))) (uuid4 (S (drawn h)))
             (dict_get quad_menu_positions (quad_menu_position self)
                       "TopRight")
             (dict_get quad_menu_positions (quad_menu_position self)
                       "TopRight")
             (S (S (S (allocated h)))) ]
    /\ (dict_mem quad_menu_positions (quad_menu_position self) = false ->
        dict_get quad_menu_positions (quad_menu_position self) "TopRight"
        = dict_get quad_menu_positions "TOP_RIGHT" "TopRight").
Proof.
  destruct (define_quad_menu_log uuid4 o self h) as (menus & C & F).
  eexists. split; [exact C|]. split.
  - rewrite filter_app,
      (filter_none is_CreateMenu_call is_menu_call menus F)
      by (intros [] E; try discriminate; reflexivity).
    rewrite app_nil_r.
    unfold quad_prelude, modifier_calls, position_calls.
    destruct (dict_item modifier_keys_map (quad_menu_modifier_keys self));
      destruct (dict_mem quad_menu_positions (quad_menu_position self));
      reflexivity.
  - intros P. unfold dict_get at 1. now rewrite (dict_mem_item _ _ P).
Qed.

(** ** The tree printer *)

Lemma for_each_enumerate_cons {A : Type} (body : Z -> A -> M unit) (i : Z)
      (x : A) (xs : list A) (h : host) :
  for_each_enumerate body i (x :: xs) h
  = match body i x h with
    | (Returned _, h') => for_each_enumerate body (i + 1)%Z xs h'
    | (Raised e, h') => (Raised e, h')
    end.
Proof. reflexivity. Qed.

Lemma logged_nil (h : host) : logged h [] = h.
Proof. destruct h. unfold logged. cbn. now rewrite app_nil_r. Qed.

Lemma logged_app (h : host) (l1 l2 : list call) :
  logged (logged h l1) l2 = logged h (l1 ++ l2).
Proof. unfold logged. cbn. now rewrite app_assoc. Qed.

(** What the printer does for a node that is printed. *)
Lemma print_directory_tree_lines (nd : node) :
  forall (prefix : string) (is_last : bool) (h : host),
  exists log,
    _print_directory_tree nd prefix is_last false h
    = (Returned tt, logged h log)
    /\ Forall2 tree_line log (preorder nd).
Proof.
  induction nd as [nm p ty cs IH] using node_ind'.
  intros prefix is_last h.
  assert (L : forall (all : list node) (pre : string) (i : Z) (h1 : host),
             exists log,
               for_each_enumerate
                 (fun i child =>
                    _print_directory_tree child pre (is_last_index i all)
                                          false)
                 i cs h1
               = (Returned tt, logged h1 log)
               /\ Forall2 tree_line log (flat_map preorder cs)).
  { intros all pre. induction IH as [|c cs' Pc _ IHcs]; intros i h1.
    - exists []. rewrite logged_nil. split; [reflexivity|constructor].
    - rewrite for_each_enumerate_cons.
      destruct (Pc pre (is_last_index i all) h1) as (l1 & -> & F1).
      destruct (IHcs (i + 1)%Z (logged h1 l1)) as (l2 & -> & F2).
      exists (l1 ++ l2). rewrite logged_app. split; [reflexivity|].
      cbn [flat_map]. now apply Forall2_app. }
  cbn [_print_directory_tree negb]. cbv zeta.
  unfold bind at 1, do_print, log.
  match goal with
  | |- context [for_each_enumerate _ _ _ ?h1] =>
      match goal with
      | |- context [for_each_enumerate (fun i child => _ ?pre _ _) _ _ _] =>
          destruct (L cs pre 0%Z h1) as (lg & E & F)
      end
  end.
  eexists (_ :: lg). split.
  - rewrite E. unfold logged. cbn [allocated drawn calls].
    rewrite <- app_assoc. reflexivity.
  - cbn [preorder]. constructor; [|exact F].
    exists prefix. eexists. split; [|reflexivity].
    destruct is_last; auto.
Qed.

(** X17.  [_print_directory_tree] on a node that is not the root prints
    one line per node of the subtree, the node first and then the
    subtrees of its children in stored order; each line ends with the
    name of its node after one of the two connectors.  It returns, and
    touches nothing of the host but the printed output. *)
Theorem print_directory_tree_preorder (nd : node) (prefix : string)
        (is_last : bool) (h : host) :
  exists log,
    _print_directory_tree nd prefix is_last false h
    = (Returned tt, logged h log)
    /\ Forall2 tree_line log (preorder nd)
    /\ List.length log = List.length (preorder nd).
Proof.
  destruct (print_directory_tree_lines nd prefix is_last h) as (log & E & F).
  exists log. repeat split; auto.
  eapply Forall2_length; eauto.
Qed.

(** ** The main menu *)

Lemma print_children_lines (cs all : list node) (pre : string) :
  forall (i : Z) (h : host),
  exists lines,
    for_each_enumerate
      (fun i child =>
         _print_directory_tree child pre (is_last_index i all) false)
      i cs h
    = (Returned tt, logged h lines)
    /\ Forall2 tree_line lines (flat_map preorder cs).
Proof.
  induction cs as [|c cs IH]; intros i h.
  - exists []. rewrite logged_nil. split; [reflexivity|constructor].
  - rewrite for_each_enumerate_cons.
    destruct (print_directory_tree_lines c pre (is_last_index i all) h)
      as (l1 & -> & F1).
    destruct (IH (i + 1)%Z (logged h l1)) as (l2 & -> & F2).
    exists (l1 ++ l2). rewrite logged_app. split; [reflexivity|].
    cbn [flat_map]. now apply Forall2_app.
Qed.

(** [define_main_menu] is its prelude, the diagnostic lines if they are
    asked for, and then the synthesis on the new menu; the generator
    comes out with its [print_tree] flag cleared. *)
Lemma define_main_menu_run (uuid4 : nat -> string) (o : os)
      (self : MenuGenerator) (h : host) :
  exists lines,
    define_main_menu uuid4 o self h
    = (let (r, h2) :=
         _create_menu_from_tree uuid4 o (root_directory_path self)
           (S (S (allocated h))) (directory_tree self)
           {| allocated := S (S (S (allocated h)));
              drawn := S (drawn h);
              calls := calls h
                       ++ main_prelude uuid4 self (allocated h) (drawn h)
                       ++ lines |} in
       (r, (printed_once self, h2)))
    /\ (if print_tree self then
          exists tl,
            lines = tl ++ [print EmptyString]
            /\ Forall2 tree_line tl (below (directory_tree self))
        else lines = []).
Proof.
  unfold define_main_menu, printed_once, main_prelude.
  destruct (print_tree self) eqn:Fl.
  - destruct (print_children_lines
                (children (directory_tree self))
                (children (directory_tree self)) EmptyString 0%Z
                {| allocated := S (S (S (allocated h)));
                   drawn := S (drawn h);
                   calls := (calls h ++ [notificationParam (allocated h)])
                            ++ [createSubMenu (S (allocated h))
                                  (uuid4 (drawn h)) (main_menu_name self)
                                  (S (S (allocated h)))] |})
      as (tl & E & F).
    exists (tl ++ [print EmptyString]). split; [|eauto].
    cbv [mbind in_host read_self mret assign_print_tree
         do_notificationParam do_mainMenuBar do_createSubMenu do_print
         str_uuid4 new_handle log bind ret allocated drawn calls].
    rewrite Fl.
    cbv [mbind in_host read_self mret assign_print_tree
         do_notificationParam do_mainMenuBar do_createSubMenu do_print
         str_uuid4 new_handle log bind ret allocated drawn calls] in E.
    rewrite E.
    cbv [logged allocated drawn calls root_directory_path directory_tree].
    rewrite <- !app_assoc. cbn [app].
    destruct self; reflexivity.
  - exists []. split; [|reflexivity].
    cbv [mbind in_host read_self mret assign_print_tree
         do_notificationParam do_mainMenuBar do_createSubMenu do_print
         str_uuid4 new_handle log bind ret allocated drawn calls].
    rewrite Fl. rewrite <- !app_assoc. cbn [app]. reflexivity.
Qed.

(** The log of [define_main_menu]: the prelude, the diagnostic lines,
    then actions and submenus only. *)
Lemma define_main_menu_log (uuid4 : nat -> string) (o : os)
      (self : MenuGenerator) (h : host) :
  exists lines menus,
    fst (snd (define_main_menu uuid4 o self h)) = printed_once self
    /\ calls (snd (snd (define_main_menu uuid4 o self h)))
       = calls h ++ main_prelude uuid4 self (allocated h) (drawn h)
         ++ lines ++ menus
    /\ Forall (fun c => is_menu_call c = true) menus
    /\ (if print_tree self then
          exists tl,
            lines = tl ++ [print EmptyString]
            /\ Forall2 tree_line tl (below (directory_tree self))
        else lines = []).
Proof.
  destruct (define_main_menu_run uuid4 o self h) as (lines & -> & L).
  match goal with
  | |- context [_create_menu_from_tree _ _ ?r ?m ?t ?h1] =>
      destruct (synthesis_menu_calls uuid4 o r t m h1) as (lg & C & F);
      destruct (_create_menu_from_tree uuid4 o r m t h1) as [r2 h2]
  end.
  exists lines, lg. cbn [fst snd calls] in *.
  rewrite C, <- !app_assoc. auto.
Qed.

Lemma tree_lines_are_prints (tl : list call) (ns : list node) :
  Forall2 tree_line tl ns -> filter is_print_call tl = tl.
Proof.
  induction 1 as [|c n tl ns (i & k & _ & ->) _ IH]; auto.
  cbn [filter is_print_call]. now rewrite IH.
Qed.

Lemma print_tree_printed_once (self : MenuGenerator) :
  print_tree (printed_once self) = false
  /\ directory_tree (printed_once self) = directory_tree self
  /\ root_directory_path (printed_once self) = root_directory_path self
  /\ main_menu_name (printed_once self) = main_menu_name self.
Proof.
  unfold printed_once. destruct (print_tree self) eqn:E; cbn; auto.
Qed.

(** X18.  The diagnostic print is one-shot: [define_main_menu] leaves the
    generator with [print_tree] cleared, whatever its outcome and with
    the cached tree untouched, and a later [define_main_menu] of that
    generator prints nothing at all. *)
Theorem main_menu_prints_once (uuid4 : nat -> string) (o : os)
        (self : MenuGenerator) (h : host) :
  print_tree (fst (snd (define_main_menu uuid4 o self h))) = false
  /\ directory_tree (fst (snd (define_main_menu uuid4 o self h)))
     = directory_tree self
  /\ forall h1,
     exists log,
       calls (snd (snd (define_main_menu uuid4 o
                          (fst (snd (define_main_menu uuid4 o self h)))
                          h1)))
       = calls h1 ++ log
       /\ filter is_print_call log = [].
Proof.
  destruct (define_main_menu_log uuid4 o self h) as (_ & _ & -> & _).
  destruct (print_tree_printed_once self) as (P & T & _).
  repeat split; auto.
  intros h1.
  destruct (define_main_menu_log uuid4 o (printed_once self) h1)
    as (lines & menus & _ & C & F & L).
  rewrite P in L. subst lines.
  eexists. split; [exact C|].
  cbn [app main_prelude filter is_print_call].
  apply (filter_none is_print_call is_menu_call menus F).
  intros [] E; try discriminate; reflexivity.
Qed.

(** X19.  When [print_tree] is set, [define_main_menu] prints one line
    per node below the root of the cached tree, in depth-first order
    (each node ahead of its children, the children in stored order), the
    root itself not being printed, and then one empty line; it prints
    nothing else. *)
Theorem main_menu_prints_tree (uuid4 : nat -> string) (o : os)
        (self : MenuGenerator) (h : host) :
  print_tree self = true ->
  exists log tl,
    calls (snd (snd (define_main_menu uuid4 o self h))) = calls h ++ log
    /\ filter is_print_call log = tl ++ [print EmptyString]
    /\ Forall2 tree_line tl (below (directory_tree self)).
Proof.
  intros Fl.
  destruct (define_main_menu_log uuid4 o self h)
    as (lines & menus & _ & C & F & L).
  rewrite Fl in L. destruct L as (tl & -> & T).
  eexists. exists tl. split; [exact C|]. split; [|exact T].
  cbn [app main_prelude filter is_print_call].
  rewrite !filter_app, (tree_lines_are_prints _ _ T).
  rewrite (filter_none is_print_call is_menu_call menus F)
    by (intros [] E; try discriminate; reflexivity).
  cbn [filter is_print_call]. now rewrite app_nil_r.
Qed.

Lemma main_menu_prints_tree_witness :
  exists log tl,
    calls (snd (snd (define_main_menu Scenario.uuid4 Scenario.tools
                                      printing_generator (fresh_host 0))))
    = calls (fresh_host 0) ++ log
    /\ filter is_print_call log = tl ++ [print EmptyString]
    /\ Forall2 tree_line tl (below (directory_tree printing_generator)).
Proof.
  apply (main_menu_prints_tree Scenario.uuid4 Scenario.tools
           printing_generator (fresh_host 0)).
  reflexivity.
Defined.

Lemma direct_prints (menu : handle) (lines : list call) :
  Forall (fun c => is_print_call c = true) lines -> direct menu lines = [].
Proof.
  intros F. apply direct_no_menu_call.
  eapply Forall_impl; [|exact F]. intros [] E; try discriminate; reflexivity.
Qed.

Lemma tree_lines_print (tl : list call) (ns : list node) :
  Forall2 tree_line tl ns -> Forall (fun c => is_print_call c = true) tl.
Proof.
  induction 1 as [|c n tl ns (i & k & _ & ->) _ IH]; constructor; auto.
Qed.

(** X21.  [define_main_menu] puts exactly one entry on the menu bar, a
    submenu with the configured main menu name, and the entries of the
    root's children go directly on that submenu (a prefix of them if a
    descriptor raises); in the whole log, diagnostic lines included,
    every menu has its actions created before its submenus. *)
Theorem main_menu_structure (uuid4 : nat -> string) (o : os)
        (self : MenuGenerator) (h : host) :
  String.eqb (normpath o (path (directory_tree self)))
             (normpath o (root_directory_path self)) = true ->
  existsb (aliases_root o (root_directory_path self))
          (children (directory_tree self)) = false ->
  exists log,
    calls (snd (snd (define_main_menu uuid4 o self h))) = calls h ++ log
    /\ direct (S (allocated h)) log = [Sub (main_menu_name self)]
    /\ run_of (fst (define_main_menu uuid4 o self h))
              (direct (S (S (allocated h))) log)
              (expected_entries o (children (directory_tree self)))
    /\ actions_precede_submenus log.
Proof.
  intros Q Al.
  destruct (define_main_menu_run uuid4 o self h) as (lines & -> & L).
  assert (P : Forall (fun c => is_print_call c = true) lines).
  { destruct (print_tree self).
    - destruct L as (tl & -> & T). apply Forall_app. split.
      + eapply tree_lines_print; eauto.
      + repeat constructor.
    - subst lines. constructor. }
  clear L.
  destruct (directory_tree self) as [nm p ty cs] eqn:T.
  cbn [path children] in *.
  cbn [_create_menu_from_tree]. rewrite Q.
  match goal with
  | |- context [loops _ _ _ _ ?m ?h1] =>
      destruct (loops uuid4 o
                  (_create_menu_from_tree uuid4 o (root_directory_path self))
                  cs m h1) as [r h2] eqn:R;
      destruct (populate_built uuid4 o (root_directory_path self) m cs h1
                  r h2 Al) as (es & lg & C & B & A & X);
      [cbn [allocated]; lia|exact R|]
  end.
  cbn [fst snd allocated calls] in *.
  assert (Lo : S (S (allocated h)) < S (S (S (allocated h)))) by lia.
  destruct (built_direct _ _ _ _ _ B Lo) as (D & O & Sm).
  assert (E : forall m,
             direct m (main_prelude uuid4 self (allocated h) (drawn h)
                       ++ lines ++ lg)
             = (if Nat.eqb (S (allocated h)) m
                then [Sub (main_menu_name self)] else [])
               ++ direct m lg).
  { intros m. rewrite !direct_app, (direct_prints m lines P).
    unfold direct at 1, main_prelude. cbn [flat_map entry_of app].
    now rewrite app_nil_r. }
  exists (main_prelude uuid4 self (allocated h) (drawn h) ++ lines ++ lg).
  split; [rewrite C, <- !app_assoc; reflexivity|].
  split; [|split].
  - rewrite E, Nat.eqb_refl, (O (S (allocated h))) by lia. reflexivity.
  - rewrite E. replace (Nat.eqb (S (allocated h)) (S (S (allocated h))))
      with false by (symmetry; apply Nat.eqb_neq; lia).
    cbn [app]. now rewrite D.
  - apply direct_order. intros m. rewrite E.
    destruct (Nat.eqb (S (allocated h)) m) eqn:Em.
    + apply Nat.eqb_eq in Em. subst m.
      rewrite (O (S (allocated h))) by lia.
      now exists [], [main_menu_name self].
    + cbn [app]. destruct (Nat.eq_dec m (S (S (allocated h)))) as [->|Hm].
      * now rewrite D.
      * now apply Sm.
Qed.

Lemma main_menu_structure_witness :
  exists log,
    calls (snd (snd (define_main_menu Scenario.uuid4 Scenario.tools
                                      printing_generator (fresh_host 0))))
    = calls (fresh_host 0) ++ log
    /\ direct (S (allocated (fresh_host 0))) log
       = [Sub (main_menu_name printing_generator)]
    /\ run_of (fst (define_main_menu Scenario.uuid4 Scenario.tools
                                     printing_generator (fresh_host 0)))
              (direct (S (S (allocated (fresh_host 0)))) log)
              (expected_entries Scenario.tools
                 (children (directory_tree printing_generator)))
    /\ actions_precede_submenus log.
Proof.
  apply (main_menu_structure Scenario.uuid4 Scenario.tools
           printing_generator (fresh_host 0)).
  - reflexivity.
  - reflexivity.
Defined.

Lemma synthesis_drew (uuid4 : nat -> string) (o : os) (root : string)
      (parent : handle) (nd : node) (h : host) :
  drew uuid4 h (snd (_create_menu_from_tree uuid4 o root parent nd h)).
Proof.
  apply synthesis_relation; [apply drew_refl|apply drew_trans| |].
  - intros menu c h1. rewrite create_action_for_run.
    destruct (is_mcr_file c); [|apply drew_refl].
    destruct (read_macro_file o (path c)) as [[n cat]|e]; [|apply drew_refl].
    destruct (Py.truthy n && Py.truthy cat); [|apply drew_refl].
    cbn [snd]. now apply drew_one.
  - intros p title h1.
    cbv [bind str_uuid4 do_createSubMenu new_handle log ret snd
         allocated drawn calls].
    now apply drew_one.
Qed.

Lemma ids_prints (lines : list call) :
  Forall (fun c => is_print_call c = true) lines -> ids lines = [].
Proof.
  induction 1 as [|c lines Hc _ IH]; auto.
  unfold ids in *. cbn [flat_map]. rewrite IH.
  destruct c; try discriminate; reflexivity.
Qed.

(** X22.  In one [define_quad_menu] and in one [define_main_menu], every
    identifier handed to the host (for the quad menu, its menu, each
    submenu and each action) is a draw of [uuid4] of its own: the
    identifiers are the consecutive draws from the first unused one on,
    in call order. *)
Theorem entry_points_draw_fresh_ids (uuid4 : nat -> string) (o : os)
        (self : MenuGenerator) (h : host) :
  drew uuid4 h (snd (define_quad_menu uuid4 o self h))
  /\ drew uuid4 h (snd (snd (define_main_menu uuid4 o self h))).
Proof.
  split.
  - rewrite define_quad_menu_run.
    eapply drew_trans; [|apply synthesis_drew].
    exists (quad_prelude uuid4 self (allocated h) (drawn h)).
    cbn [calls drawn].
    assert (I : ids (quad_prelude uuid4 self (allocated h) (drawn h))
                = [uuid4 (drawn h); uuid4 (S (drawn h))]).
    { unfold quad_prelude, modifier_calls, position_calls.
      destruct (dict_item modifier_keys_map (quad_menu_modifier_keys self));
        destruct (dict_mem quad_menu_positions (quad_menu_position self));
        reflexivity. }
    rewrite I. cbn. repeat split; lia.
  - destruct (define_main_menu_run uuid4 o self h) as (lines & -> & L).
    assert (P : ids lines = []).
    { apply ids_prints. destruct (print_tree self).
      - destruct L as (tl & -> & T). apply Forall_app. split.
        + eapply tree_lines_print; eauto.
        + repeat constructor.
      - subst lines. constructor. }
    match goal with
    | |- context [_create_menu_from_tree _ _ ?r ?m ?t ?h1] =>
        pose proof (synthesis_drew uuid4 o r m t h1) as Sd;
        destruct (_create_menu_from_tree uuid4 o r m t h1) as [r2 h2]
    end.
    cbn [snd] in *.
    eapply drew_trans; [|exact Sd].
    exists (main_prelude uuid4 self (allocated h) (drawn h) ++ lines).
    cbn [calls drawn]. rewrite ids_app, P, app_nil_r.
    cbn. repeat split; lia.
Qed.

(** ** Registration *)

Section Registration.

Variable same_name : string -> string -> bool.
Hypothesis same_name_refl : forall a, same_name a a = true.

Let drop (id : string) (ss : list script) : list script :=
  filter (fun s => negb (same_name (script_id s) id)) ss.

Lemma drop_app (id : string) (a b : list script) :
  drop id (a ++ b) = drop id a ++ drop id b.
Proof. apply filter_app. Qed.

Lemma drop_drop (id : string) (ss : list script) :
  drop id (drop id ss) = drop id ss.
Proof.
  unfold drop. induction ss as [|s ss IH]; cbn [filter]; auto.
  destruct (negb (same_name (script_id s) id)) eqn:E; cbn [filter]; auto.
  now rewrite E, IH.
Qed.

Lemma drop_comm (a b : string) (ss : list script) :
  drop a (drop b ss) = drop b (drop a ss).
Proof.
  unfold drop. induction ss as [|s ss IH]; cbn [filter]; auto.
  destruct (negb (same_name (script_id s) b)) eqn:Eb;
    destruct (negb (same_name (script_id s) a)) eqn:Ea;
    cbn [filter]; rewrite ?Ea, ?Eb, ?IH; auto.
Qed.

Lemma drop_own (id : string) (ev : string) (f : callback) :
  drop id [ {| event := ev; fn := f; script_id := id |} ] = [].
Proof. unfold drop. cbn. now rewrite same_name_refl. Qed.

(** The scripts after one registration. *)
Lemma register_menus_scripts (self : MenuGenerator) (m q : string)
      (c : cui) :
  scripts (register_menus same_name self m q c)
  = drop q (drop m (scripts c)) ++ drop q [main_script self m]
    ++ [quad_script self q].
Proof.
  unfold register_menus, removeScripts, addScript, LoadConfiguration.
  cbn [scripts]. fold (drop m (scripts c)).
  change (filter (fun s => negb (same_name (script_id s) q)))
    with (drop q).
  rewrite drop_app, <- app_assoc. reflexivity.
Qed.

Lemma drop_singleton (id : string) (s : script) :
  drop id [s] = [s] \/ drop id [s] = [].
Proof. unfold drop. cbn. destruct (negb _); auto. Qed.

(** X23.  Registering is idempotent on the scripts of the host: a second
    [register_menus] with the same ids leaves exactly the scripts that
    the first one left, in the same order, whatever was registered
    before and whether or not the two ids are the same name. *)
Theorem register_menus_idempotent (self : MenuGenerator) (m q : string)
        (c : cui) :
  scripts (register_menus same_name self m q
             (register_menus same_name self m q c))
  = scripts (register_menus same_name self m q c).
Proof.
  rewrite !register_menus_scripts.
  set (S0 := scripts c).
  set (M := main_script self m). set (Q := quad_script self q).
  assert (E1 : drop m (drop q (drop m S0)) = drop q (drop m S0))
    by (now rewrite drop_comm, drop_drop).
  assert (E2 : drop m (drop q [M]) = [])
    by (rewrite drop_comm; unfold M, main_script; now rewrite drop_own).
  assert (E3 : drop q (drop m [Q]) = [])
    by (rewrite drop_comm; unfold Q, quad_script; now rewrite drop_own).
  rewrite !drop_app, E1, E2, E3, drop_drop.
  change (drop q []) with (@nil script).
  cbn [app]. now rewrite app_nil_r.
Qed.

(** X24.  With two different ids, after [register_menus] the main menu
    callback is the one script under the first id, the quad menu
    callback the one script under the second, and the scripts under any
    other id are as they were: earlier registrations under the two ids
    are replaced, nothing else is touched. *)
Theorem register_menus_replaces (self : MenuGenerator) (m q : string)
        (c : cui) :
  same_name m q = false ->
  same_name q m = false ->
  scripts_under same_name m (register_menus same_name self m q c)
  = [main_script self m]
  /\ scripts_under same_name q (register_menus same_name self m q c)
     = [quad_script self q]
  /\ drop q (drop m (scripts (register_menus same_name self m q c)))
     = drop q (drop m (scripts c)).
Proof.
  intros Hmq Hqm. unfold scripts_under.
  rewrite register_menus_scripts.
  assert (D : drop q [main_script self m] = [main_script self m]).
  { unfold drop. cbn. now rewrite Hmq. }
  rewrite D.
  assert (K : forall id ss,
             filter (fun s => same_name (script_id s) id) (drop id ss) = []).
  { intros id ss. unfold drop.
    induction ss as [|s ss IH]; cbn [filter]; auto.
    destruct (same_name (script_id s) id) eqn:E; cbn [negb filter]; auto.
    now rewrite E. }
  repeat split.
  - rewrite !filter_app, (drop_comm q m), K.
    cbn. now rewrite same_name_refl, Hqm.
  - rewrite !filter_app, K. cbn. now rewrite Hmq, same_name_refl.
  - assert (E1 : drop m (drop q (drop m (scripts c)))
                 = drop q (drop m (scripts c)))
      by (now rewrite drop_comm, drop_drop).
    assert (E2 : drop m [main_script self m] = [])
      by (unfold main_script; now rewrite drop_own).
    assert (E3 : drop q (drop m [quad_script self q]) = [])
      by (rewrite drop_comm; unfold quad_script; now rewrite drop_own).
    rewrite !drop_app, E1, E2, E3, drop_drop.
    change (drop q []) with (@nil script).
    now rewrite !app_nil_r.
Qed.

(** X25.  With one and the same name for the two ids, the removal that
    precedes the second registration takes the main menu callback away
    again: after [register_menus] the quad menu callback is the only
    script under that id. *)
Theorem register_menus_same_id (self : MenuGenerator) (m q : string)
        (c : cui) :
  same_name m q = true ->
  scripts_under same_name q (register_menus same_name self m q c)
  = [quad_script self q].
Proof.
  intros Hmq. unfold scripts_under.
  rewrite register_menus_scripts.
  assert (D : drop q [main_script self m] = []).
  { unfold drop. cbn. now rewrite Hmq. }
  rewrite D. cbn [app]. rewrite filter_app.
  replace (filter _ (drop q (drop m (scripts c)))) with (@nil script).
  - cbn. now rewrite same_name_refl.
  - symmetry. unfold drop at 1.
    induction (drop m (scripts c)) as [|s ss IH]; cbn [filter]; auto.
    destruct (same_name (script_id s) q) eqn:E; cbn [negb filter]; auto.
    now rewrite E.
Qed.

End Registration.

Lemma register_menus_idempotent_witness :
  scripts (register_menus String.eqb foo_generator "menu_callback"
             "quad_menu_callback"
             (register_menus String.eqb foo_generator "menu_callback"
                "quad_menu_callback" busy_cui))
  = scripts (register_menus String.eqb foo_generator "menu_callback"
               "quad_menu_callback" busy_cui).
Proof.
  apply (register_menus_idempotent String.eqb String.eqb_refl).
Defined.

Lemma register_menus_replaces_witness :
  scripts_under String.eqb "menu_callback"
    (register_menus String.eqb foo_generator "menu_callback"
       "quad_menu_callback" busy_cui)
  = [main_script foo_generator "menu_callback"]
  /\ scripts_under String.eqb "quad_menu_callback"
       (register_menus String.eqb foo_generator "menu_callback"
          "quad_menu_callback" busy_cui)
     = [quad_script foo_generator "quad_menu_callback"]
  /\ filter (fun s => negb (String.eqb (script_id s) "quad_menu_callback"))
       (filter (fun s => negb (String.eqb (script_id s) "menu_callback"))
          (scripts (register_menus String.eqb foo_generator "menu_callback"
                      "quad_menu_callback" busy_cui)))
     = filter (fun s => negb (String.eqb (script_id s) "quad_menu_callback"))
         (filter (fun s => negb (String.eqb (script_id s) "menu_callback"))
            (scripts busy_cui)).
Proof.
  apply (register_menus_replaces String.eqb String.eqb_refl foo_generator
           "menu_callback" "quad_menu_callback" busy_cui);
    reflexivity.
Defined.

Lemma register_menus_same_id_witness :
  scripts_under String.eqb "tools"
    (register_menus String.eqb foo_generator "tools" "tools" busy_cui)
  = [quad_script foo_generator "tools"].
Proof.
  apply (register_menus_same_id String.eqb String.eqb_refl foo_generator
           "tools" "tools" busy_cui).
  reflexivity.
Defined.

(** ** The quad menu, end to end *)

(** X16.  [define_quad_menu] synthesizes into the menu that [CreateMenu]
    returned: the entries of the root's children go directly on that
    menu (a prefix of them if a descriptor raises), and in the whole log
    every menu has its actions created before its submenus. *)
Theorem quad_menu_structure (uuid4 : nat -> string) (o : os)
        (self : MenuGenerator) (h : host) :
  String.eqb (normpath o (path (directory_tree self)))
             (normpath o (root_directory_path self)) = true ->
  existsb (aliases_root o (root_directory_path self))
          (children (directory_tree self)) = false ->
  exists log,
    calls (snd (define_quad_menu uuid4 o self h)) = calls h ++ log
    /\ run_of (fst (define_quad_menu uuid4 o self h))
              (direct (S (S (S (allocated h)))) log)
              (expected_entries o (children (directory_tree self)))
    /\ actions_precede_submenus log.
Proof.
  intros Q Al. rewrite define_quad_menu_run.
  assert (P : Forall (fun c => is_menu_call c = false)
                     (quad_prelude uuid4 self (allocated h) (drawn h))).
  { unfold quad_prelude, modifier_calls, position_calls.
    destruct (dict_item modifier_keys_map (quad_menu_modifier_keys self));
      destruct (dict_mem quad_menu_positions (quad_menu_position self));
      repeat constructor. }
  destruct (directory_tree self) as [nm p ty cs] eqn:T.
  cbn [path children] in *.
  cbn [_create_menu_from_tree]. rewrite Q.
  match goal with
  | |- context [loops _ _ _ _ ?m ?h1] =>
      destruct (loops uuid4 o
                  (_create_menu_from_tree uuid4 o (root_directory_path self))
                  cs m h1) as [r h2] eqn:R;
      destruct (populate_built uuid4 o (root_directory_path self) m cs h1
                  r h2 Al) as (es & lg & C & B & A & X);
      [cbn [allocated]; lia|exact R|]
  end.
  cbn [fst snd allocated calls] in *.
  assert (Lo : S (S (S (allocated h))) < S (S (S (S (allocated h)))))
    by lia.
  destruct (built_direct _ _ _ _ _ B Lo) as (D & _ & Sm).
  exists (quad_prelude uuid4 self (allocated h) (drawn h) ++ lg).
  split; [rewrite C, <- app_assoc; reflexivity|].
  assert (E : forall m,
             direct m (quad_prelude uuid4 self (allocated h) (drawn h) ++ lg)
             = direct m lg).
  { intros m. now rewrite direct_app, (direct_no_menu_call m _ P). }
  split.
  - now rewrite E, D.
  - apply direct_order. intros m. rewrite E.
    destruct (Nat.eq_dec m (S (S (S (allocated h))))) as [->|Hm].
    + now rewrite D.
    + now apply Sm.
Qed.

Lemma quad_menu_structure_witness :
  exists log,
    calls (snd (define_quad_menu Scenario.uuid4 Scenario.tools
                                 scenario_generator (fresh_host 0)))
    = calls (fresh_host 0) ++ log
    /\ run_of (fst (define_quad_menu Scenario.uuid4 Scenario.tools
                                     scenario_generator (fresh_host 0)))
              (direct (S (S (S (allocated (fresh_host 0))))) log)
              (expected_entries Scenario.tools
                 (children (directory_tree scenario_generator)))
    /\ actions_precede_submenus log.
Proof.
  apply (quad_menu_structure Scenario.uuid4 Scenario.tools
           scenario_generator (fresh_host 0)).
  - reflexivity.
  - reflexivity.
Defined.

(** ** Counting what the synthesizer creates *)

Lemma submenus_below_unfold (nd : node) :
  submenus_below nd
  = list_sum (map (fun c => if is_directory c
                            then S (submenus_below c) else 0)
                  (children nd)).
Proof. now destruct nd. Qed.

Lemma actions_below_unfold (o : os) (nd : node) :
  actions_below o nd
  = List.length (action_labels o (children nd))
    + list_sum (map (fun c => if is_directory c
                              then actions_below o c else 0)
                    (children nd)).
Proof. now destruct nd. Qed.

Lemma list_sum_cons (n : nat) (l : list nat) :
  list_sum (n :: l) = n + list_sum l.
Proof. reflexivity. Qed.

Lemma actions_for_counts (o : os) (menu : handle) (cs : list node)
      (acts : list call) :
  actions_for o menu cs acts ->
  List.length (filter is_createSubMenu acts) = 0
  /\ List.length (filter is_createAction acts)
     = List.length (action_labels o cs).
Proof.
  unfold actions_for. generalize (action_labels o cs). intros labels F.
  induction F as [|a l acts labels (id & ->) _ [IH1 IH2]]; auto.
  cbn [filter is_createSubMenu is_createAction List.length]. auto.
Qed.

Lemma mirrors_counts (o : os) (cs : list node) (menu : handle)
      (lo hi : nat) (log : list call) :
  mirrors o cs menu lo hi log ->
  hi = lo + list_sum (map (fun c => if is_directory c
                                    then S (submenus_below c) else 0) cs)
  /\ List.length (filter is_createSubMenu log)
     = list_sum (map (fun c => if is_directory c
                               then S (submenus_below c) else 0) cs)
  /\ List.length (filter is_createAction log)
     = list_sum (map (fun c => if is_directory c
                               then actions_below o c else 0) cs).
Proof.
  induction 1 as [ menu lo
                 | c cs menu lo hi log D M IH
                 | c cs menu lo mid hi id acts inner rest D A M1 IH1 M2 IH2 ];
    cbn [map]; rewrite ?list_sum_cons.
  - cbn [filter List.length]. change (list_sum []) with 0.
    repeat split; lia.
  - rewrite D. destruct IH as (H1 & H2 & H3). repeat split; lia.
  - rewrite D.
    destruct IH1 as (H1 & H2 & H3). destruct IH2 as (K1 & K2 & K3).
    destruct (actions_for_counts _ _ _ _ A) as (A1 & A2).
    rewrite (submenus_below_unfold c), (actions_below_unfold o c).
    cbn [filter is_createSubMenu is_createAction List.length].
    rewrite !filter_app, !length_app.
    repeat split; lia.
Qed.

(** X20.  When [_create_menu_from_tree] returns from the root node, it
    has created exactly one submenu for every directory it met below the
    root, none for the root and none for a file, and exactly one action
    for every descriptor that gives a name and a category; each submenu
    is a new host object. *)
Theorem synthesis_counts
        (uuid4 : nat -> string) (o : os) (self_root : string)
        (parent : handle) (nd : node) (h h' : host) :
  String.eqb (normpath o (path nd)) (normpath o self_root) = true ->
  existsb (aliases_root o self_root) (children nd) = false ->
  _create_menu_from_tree uuid4 o self_root parent nd h
  = (Returned tt, h') ->
  exists log,
    calls h' = calls h ++ log
    /\ List.length (filter is_createSubMenu log) = submenus_below nd
    /\ List.length (filter is_createAction log) = actions_below o nd
    /\ allocated h' = allocated h + submenus_below nd.
Proof.
  intros Q Al R. destruct nd as [nm p ty cs]. cbn [path children] in *.
  cbn [_create_menu_from_tree] in R. rewrite Q in R.
  destruct (loops_mirror uuid4 o self_root parent cs h h') as
    (acts & blocks & C & A & M); auto.
  { rewrite Forall_forall. intros c _. apply every_directory_adds_mirror. }
  destruct (mirrors_counts _ _ _ _ _ _ M) as (H1 & H2 & H3).
  destruct (actions_for_counts _ _ _ _ A) as (A1 & A2).
  exists (acts ++ blocks). split; [exact C|].
  rewrite !filter_app, !length_app.
  cbn [submenus_below actions_below]. repeat split; lia.
Qed.

Lemma synthesis_counts_witness :
  exists log,
    calls {| allocated := 2; drawn := 3;
             calls := [ createAction 0 "0" action_tag "PaintTool`Paint";
                        createSubMenu 0 "1" "Sub" 1;
                        createAction 1 "2" action_tag "EraseTool`Paint" ] |}
    = calls (fresh_host 1) ++ log
    /\ List.length (filter is_createSubMenu log)
       = submenus_below scenario_tree
    /\ List.length (filter is_createAction log)
       = actions_below Scenario.tools scenario_tree
    /\ 2 = allocated (fresh_host 1) + submenus_below scenario_tree.
Proof.
  apply (synthesis_counts
           Scenario.uuid4 Scenario.tools "Tools" 0 scenario_tree
           (fresh_host 1)
           {| allocated := 2; drawn := 3;
              calls := [ createAction 0 "0" action_tag "PaintTool`Paint";
                         createSubMenu 0 "1" "Sub" 1;
                         createAction 1 "2" action_tag "EraseTool`Paint" ] |}).
  - reflexivity.
  - reflexivity.
  - reflexivity.
Defined.

(* ================================================================== *)
(** * The synthesis and the descriptors on its way *)
(* ================================================================== *)

(** ** When the synthesis returns *)

Lemma for_each_returns {A : Type} (Q : A -> Prop) (f : A -> M unit)
      (xs : list A) :
  (forall x, In x xs -> forall h, fst (f x h) = Returned tt <-> Q x) ->
  forall h, fst (for_each f xs h) = Returned tt <-> Forall Q xs.
Proof.
  induction xs as [|x xs IH]; intros E h.
  - split; [constructor|reflexivity].
  - rewrite for_each_cons.
    pose proof (E x (or_introl eq_refl) h) as Hx.
    destruct (f x h) as [[[]|e] h1]; cbn [fst] in *.
    + rewrite IH by (intros y Hy; apply E; now right).
      split.
      * intros F. constructor; [now apply Hx|exact F].
      * intros F. now inversion F.
    + split; [discriminate|].
      intros F. inversion F as [|? ? Qx _]; subst.
      apply Hx in Qx. discriminate.
Qed.

Lemma Forall_flat_map_iff {A B : Type} (P : B -> Prop) (f : A -> list B)
      (xs : list A) :
  Forall P (flat_map f xs) <-> Forall (fun x => Forall P (f x)) xs.
Proof.
  induction xs as [|x xs IH]; cbn [flat_map].
  - split; constructor.
  - rewrite Forall_app, IH. split.
    + intros [H1 H2]. now constructor.
    + intros H. now inversion H.
Qed.

(** The two loops of a node return exactly when every descriptor on
    their way is read without an exception, whatever the menu and the
    state of the host. *)
Lemma loops_return (uuid4 : nat -> string) (o : os) (root : string)
      (nd : node) :
  forall (menu : handle) (h : host),
    fst (loops uuid4 o (_create_menu_from_tree uuid4 o root)
               (children nd) menu h) = Returned tt
    <-> Forall (descriptor_reads o) (reached nd).
Proof.
  induction nd as [nm p ty cs IH] using node_ind'.
  intros menu h. cbn [children reached].
  rewrite Forall_app, Forall_flat_map_iff.
  unfold loops, bind.
  pose proof (for_each_returns (descriptor_reads o)
                (create_action_for uuid4 o menu) cs
                (fun c _ h1 => create_action_for_outcome uuid4 o menu c h1)
                h) as F1.
  destruct (for_each (create_action_for uuid4 o menu) cs h)
    as [[[]|e] h1]; cbn [fst] in *.
  - rewrite (for_each_returns
               (fun c => Forall (descriptor_reads o)
                                (if is_directory c then reached c else []))).
    + split; [intros F; split; [now apply F1|exact F]|now intros [_ F]].
    + intros c Hc h2. unfold is_directory.
      destruct (node_type_eqb (type c) directory) eqn:T.
      * rewrite Forall_forall in IH. specialize (IH c Hc).
        destruct c as [cn cp cty ccs]. cbn [children type] in *.
        cbn [_create_menu_from_tree].
        destruct (String.eqb (normpath o cp) (normpath o root));
          [apply IH|].
        destruct cty; [|discriminate].
        unfold bind at 1, str_uuid4 at 1.
        unfold bind at 1, do_createSubMenu, new_handle, log, ret,
          bind at 1 2.
        cbn [allocated drawn calls]. apply IH.
      * cbn. split; [constructor|reflexivity].
  - split; [discriminate|]. intros [F _]. apply F1 in F. discriminate.
Qed.

(** X9.  [_create_menu_from_tree], called on the root node or on a
    directory, returns exactly when every descriptor on its way is read
    without an exception: those of the children of the node and of the
    children of every directory below it, a directory that is taken for
    the root included.  The menu and the state of the host have no part
    in it. *)
Theorem synthesis_returns_exactly
        (uuid4 : nat -> string) (o : os) (root : string)
        (parent : handle) (nd : node) (h : host) :
  String.eqb (normpath o (path nd)) (normpath o root) = true
  \/ type nd = directory ->
  fst (_create_menu_from_tree uuid4 o root parent nd h) = Returned tt
  <-> Forall (descriptor_reads o) (reached nd).
Proof.
  intros T. destruct nd as [nm p ty cs]. cbn [path type] in T.
  cbn [_create_menu_from_tree].
  destruct (String.eqb (normpath o p) (normpath o root)).
  - apply (loops_return uuid4 o root (mk_node nm p ty cs)).
  - destruct T as [T|T]; [discriminate|]. subst ty.
    unfold bind at 1, str_uuid4 at 1.
    unfold bind at 1, do_createSubMenu, new_handle, log, ret, bind at 1 2.
    cbn [allocated drawn calls].
    apply (loops_return uuid4 o root (mk_node nm p directory cs)).
Qed.

Lemma synthesis_returns_exactly_witness :
  fst (_create_menu_from_tree Scenario.uuid4 Mixed.tools "Tools" 0
                              mixed_tree (fresh_host 1)) = Returned tt
  <-> Forall (descriptor_reads Mixed.tools) (reached mixed_tree).
Proof.
  apply (synthesis_returns_exactly Scenario.uuid4 Mixed.tools "Tools" 0
           mixed_tree (fresh_host 1)).
  left. reflexivity.
Defined.

(** X15.  Nothing in [define_quad_menu] raises ahead of the synthesis:
    the two dictionary look-ups are guarded, so an unknown modifier or
    position does not raise.  On a generator whose cached tree has the
    root path on top, [define_quad_menu] returns exactly when every
    descriptor on the way of the synthesis is read without an
    exception. *)
Theorem quad_menu_returns_exactly (uuid4 : nat -> string) (o : os)
        (self : MenuGenerator) (h : host) :
  String.eqb (normpath o (path (directory_tree self)))
             (normpath o (root_directory_path self)) = true ->
  fst (define_quad_menu uuid4 o self h) = Returned tt
  <-> Forall (descriptor_reads o) (reached (directory_tree self)).
Proof.
  intros Q. rewrite define_quad_menu_run.
  destruct (directory_tree self) as [nm p ty cs]. cbn [path] in Q.
  cbn [_create_menu_from_tree]. rewrite Q.
  apply (loops_return uuid4 o (root_directory_path self)
           (mk_node nm p ty cs)).
Qed.

Lemma quad_menu_returns_exactly_witness :
  fst (define_quad_menu Scenario.uuid4 Scenario.tools foo_generator
                        (fresh_host 0)) = Returned tt
  <-> Forall (descriptor_reads Scenario.tools)
             (reached (directory_tree foo_generator)).
Proof.
  apply (quad_menu_returns_exactly Scenario.uuid4 Scenario.tools
           foo_generator (fresh_host 0)).
  reflexivity.
Defined.

(** ** Two menu contexts *)

Lemma mixed_tree_built :
  _build_tree Mixed.tools 3 "Tools" true = Some mixed_tree.
Proof. reflexivity. Qed.

Lemma broken_tree_built :
  _build_tree Broken.tools 3 "Tools" true = Some broken_tree.
Proof. reflexivity. Qed.

(** Of the children of the mixed context, the descriptor in capitals is
    the one that gets an action: not the descriptor without a category,
    not the text file, not the directory. *)
Lemma mixed_gets_action :
  filter (gets_action Mixed.tools) (children mixed_tree)
  = [ mk_node "A.MCR" "Tools/A.MCR" file [] ].
Proof. reflexivity. Qed.

(** A descriptor that raises ends the synthesis on the spot: the
    descriptor after it gets no action and the directory no submenu,
    though the one would give a name and a category. *)
Lemma raising_descriptor_ends_synthesis :
  _create_menu_from_tree Scenario.uuid4 Broken.tools "Tools" 0
                         broken_tree (fresh_host 1)
  = (Raised IndexError, fresh_host 1)
  /\ filter (gets_action Broken.tools) (children broken_tree)
     = [ mk_node "b.mcr" "Tools/b.mcr" file [] ].
Proof. split; reflexivity. Qed.

(** ** The root's children on the caller's menu *)

(** C2.  On a node whose normalised path is that of the configured root,
    with every descriptor on the way read without an exception, the
    method returns and the caller's menu itself is the menu of the node:
    the entries created directly on it are exactly those of the node's
    children, one action per descriptor that gives a name and a category
    and then one submenu per directory child.  No submenu stands for the
    root: as many submenus are created, and as many host objects, as
    there are directories below the root.  The tree is one in which no
    directory below the top is taken for the root, and the caller's menu
    is an existing host object. *)
Theorem root_populates_parent_menu
        (uuid4 : nat -> string) (o : os) (self_root : string)
        (parent : handle) (nd : node) (h : host) :
  String.eqb (normpath o (path nd)) (normpath o self_root) = true ->
  existsb (aliases_root o self_root) (children nd) = false ->
  parent < allocated h ->
  Forall (descriptor_reads o) (reached nd) ->
  exists h' log,
    _create_menu_from_tree uuid4 o self_root parent nd h = (Returned tt, h')
    /\ calls h' = calls h ++ log
    /\ direct parent log = expected_entries o (children nd)
    /\ List.length (filter is_createSubMenu log) = submenus_below nd
    /\ allocated h' = allocated h + submenus_below nd.
Proof.
  intros Q Al L D.
  pose proof (proj2 (loops_return uuid4 o self_root nd parent h) D) as Rt.
  destruct nd as [nm p ty cs]. cbn [path children] in *.
  cbn [_create_menu_from_tree]. rewrite Q.
  destruct (loops uuid4 o (_create_menu_from_tree uuid4 o self_root)
                  cs parent h) as [r h'] eqn:R.
  cbn [fst] in Rt. subst r.
  destruct (populate_built uuid4 o self_root parent cs h (Returned tt) h'
              Al L R) as (es & log & C & B & _ & [_ X]).
  specialize (X eq_refl). subst es.
  destruct (built_direct _ _ _ _ _ B L) as (Dr & _ & _).
  destruct (loops_mirror uuid4 o self_root parent cs h h')
    as (acts & blocks & C' & A & M); auto.
  { rewrite Forall_forall. intros c _. apply every_directory_adds_mirror. }
  assert (E : log = acts ++ blocks).
  { rewrite C in C'. now apply app_inv_head in C'. }
  destruct (mirrors_counts _ _ _ _ _ _ M) as (H1 & H2 & _).
  destruct (actions_for_counts _ _ _ _ A) as (A1 & _).
  exists h', log. repeat split; auto.
  rewrite E, filter_app, length_app. cbn [submenus_below]. lia.
Qed.

Lemma root_populates_parent_menu_witness :
  exists h' log,
    _create_menu_from_tree Scenario.uuid4 Mixed.tools "Tools" 0
                           mixed_tree (fresh_host 1)
    = (Returned tt, h')
    /\ calls h' = calls (fresh_host 1) ++ log
    /\ direct 0 log = expected_entries Mixed.tools (children mixed_tree)
    /\ List.length (filter is_createSubMenu log) = submenus_below mixed_tree
    /\ allocated h' = allocated (fresh_host 1) + submenus_below mixed_tree.
Proof.
  apply (root_populates_parent_menu
           Scenario.uuid4 Mixed.tools "Tools" 0 mixed_tree (fresh_host 1)).
  - reflexivity.
  - reflexivity.
  - simpl. lia.
  - repeat constructor; intros _; eexists; vm_compute; reflexivity.
Defined.

(** ** One action per descriptor *)









